(** * The 3D-generation option resolver, reference-image generator,
      status store and asynchronous job orchestrator

    Shallow embedding of [src/providers/model3dHelpers.ts] and of the
    parts of [src/utils/model3dUtils.ts] it relies on (the model and
    variant enums, the two compatibility tables and the Meshy polling
    loop).

    Conventions of the embedding:
    - a JavaScript string is a [string] that holds the UTF-8 encoding
      of its text (what a string literal of this file holds); a
      [number] that the code only uses as a count or a percentage is a
      [Z];
    - a thrown exception is its message text ([Throw msg]); every
      function that can throw returns a [Completion];
    - an optional property of an options object is a [Slot]: the key can
      be absent, present with the value [undefined], or present with a
      value (object spread distinguishes the first two);
    - the file system, the clock and the remote backends are explicit:
      the mutable part is a [World] threaded through the code, the
      external collaborators are the fields of an [Env]. *)

From Stdlib Require Import ZArith QArith String Ascii List Bool Lia.
From stdpp Require Import base option list strings pretty gmap sorting.

Local Open Scope string_scope.
Local Open Scope Z_scope.
Local Open Scope list_scope.

(** ** JavaScript values and string primitives *)

Module Js.

(** Outcome of evaluating a block: normal completion, or a thrown
    error carried as its message. *)
Inductive Completion (A : Type) : Type :=
| Return (a : A)
| Throw (msg : string).
Arguments Return {A} a.
Arguments Throw {A} msg.

Definition bind {A B} (c : Completion A) (k : A -> Completion B)
  : Completion B :=
  match c with
  | Return a => k a
  | Throw e => Throw e
  end.

(** A property slot of an object literal. *)
Inductive Slot (A : Type) : Type :=
| Absent
| Undefined
| Present (a : A).
Arguments Absent {A}.
Arguments Undefined {A}.
Arguments Present {A} a.

(** Reading [o.f]: an absent key reads as [undefined]. *)
Definition read {A} (s : Slot A) : option A :=
  match s with
  | Present a => Some a
  | _ => None
  end.

(** Destructuring default [{ f = d } = o]. *)
Definition read_or {A} (d : A) (s : Slot A) : A :=
  match s with
  | Present a => a
  | _ => d
  end.

(** One key of [{ ...lower, ...upper }]: an own key of [upper] wins,
    also when its value is [undefined]. *)
Definition over {A} (lower upper : Slot A) : Slot A :=
  match upper with
  | Absent => lower
  | _ => upper
  end.

(** Truthiness of a string-valued expression. *)
Definition truthy (s : option string) : bool :=
  match s with
  | Some EmptyString => false
  | Some _ => true
  | None => false
  end.

(** [`${s}`] for a possibly undefined string. *)
Definition show (s : option string) : string :=
  match s with
  | Some s => s
  | None => "undefined"
  end.

(** [hay.includes(needle)]. *)
Fixpoint includes (hay needle : string) : bool :=
  String.prefix needle hay
  || match hay with
     | EmptyString => false
     | String _ rest => includes rest needle
     end.

(** [xs.includes(x)] on an array of strings. *)
Definition array_includes (xs : list string) (x : string) : bool :=
  existsb (String.eqb x) xs.

(** The code points [String.prototype.trim] removes: the WhiteSpace
    and LineTerminator productions of ECMAScript (TAB, LF, VT, FF, CR,
    SPACE, NO-BREAK SPACE, the other space separators of Unicode, LINE
    and PARAGRAPH SEPARATOR, and the byte order mark). *)
Definition is_white_space (cp : N) : bool :=
  existsb (N.eqb cp)
    [0x9; 0xA; 0xB; 0xC; 0xD; 0x20; 0xA0; 0x1680; 0x2028; 0x2029; 0x202F;
     0x205F; 0x3000; 0xFEFF]%N
  || ((0x2000 <=? cp)%N && (cp <=? 0x200A)%N).

(** The code point that UTF-8 writes as the two bytes [a b], or as the
    three bytes [a b c]. *)
Definition continuation (b : N) : bool := ((128 <=? b) && (b <? 192))%N.

Definition code_point2 (a b : N) : option N :=
  if ((194 <=? a) && (a <? 224))%N && continuation b
  then Some ((a - 192) * 64 + (b - 128))%N
  else None.

Definition code_point3 (a b c : N) : option N :=
  if ((224 <=? a) && (a <? 240))%N && continuation b && continuation c
     && (2048 <=? (a - 224) * 4096 + (b - 128) * 64 + (c - 128))%N
  then Some ((a - 224) * 4096 + (b - 128) * 64 + (c - 128))%N
  else None.

Definition white (cp : option N) : bool :=
  match cp with
  | Some cp => is_white_space cp
  | None => false
  end.

(** [s.trim().length === 0]: the text is white space from end to end.
    It is read code point by code point; no code point beyond the
    three-byte ones is white space. *)
Fixpoint blank (s : string) : bool :=
  match s with
  | EmptyString => true
  | String a s1 =>
      if (N_of_ascii a <? 128)%N then
        is_white_space (N_of_ascii a) && blank s1
      else
        match s1 with
        | EmptyString => false
        | String b s2 =>
            if white (code_point2 (N_of_ascii a) (N_of_ascii b)) then blank s2
            else
              match s2 with
              | EmptyString => false
              | String c s3 =>
                  white (code_point3 (N_of_ascii a) (N_of_ascii b)
                           (N_of_ascii c))
                  && blank s3
              end
        end
  end.

(** [xs.includes(v)] and [v === x] when [v] may be [undefined]. *)
Definition value_in (xs : list string) (v : option string) : bool :=
  match v with
  | Some x => array_includes xs x
  | None => false
  end.

Definition value_is (v : option string) (x : string) : bool :=
  match v with
  | Some y => String.eqb y x
  | None => false
  end.

Definition is_dot (c : ascii) : bool := Ascii.eqb c "."%char.

Fixpoint has_dot (s : string) : bool :=
  match s with
  | EmptyString => false
  | String c rest => is_dot c || has_dot rest
  end.

(** [s.replace(/\.[^.]+$/, repl)] where [repl] holds no [$]: the last
    dot and what follows it are replaced, provided something follows
    it; [None] when the pattern does not match. *)
Fixpoint replace_ext_match (s repl : string) : option string :=
  match s with
  | EmptyString => None
  | String c rest =>
      match replace_ext_match rest repl with
      | Some r => Some (String c r)
      | None =>
          if is_dot c && negb (has_dot rest)
             && negb (String.eqb rest EmptyString)
          then Some repl
          else None
      end
  end.

Definition replace_ext (s repl : string) : string :=
  match replace_ext_match s repl with
  | Some r => r
  | None => s
  end.

End Js.

Import Js.

(** ** [src/utils/model3dUtils.ts]: enums and compatibility tables *)

Module Model3DModel.
Definition TRELLIS : string := "trellis".
Definition HUNYUAN3D : string := "hunyuan3d".
Definition HUNYUAN_WORLD : string := "hunyuan-world".
Definition SEED3D : string := "seed3d".
Definition MESHY : string := "meshy".
End Model3DModel.

Module Model3DVariant.
Definition SINGLE : string := "single".
Definition MULTI : string := "multi".
Definition SINGLE_TURBO : string := "single-turbo".
Definition MULTI_TURBO : string := "multi-turbo".
End Model3DVariant.

Module Model3DFormat.
Definition GLB : string := "glb".
Definition GLTF : string := "gltf".
End Model3DFormat.

Import Model3DModel Model3DVariant Model3DFormat.

(** Available variant combinations for each model. *)
Definition AVAILABLE_VARIANTS : gmap string (list string) :=
  <[TRELLIS := [SINGLE; MULTI]]>
  (<[HUNYUAN3D := [SINGLE; MULTI; SINGLE_TURBO; MULTI_TURBO]]>
  (<[HUNYUAN_WORLD := [SINGLE]]>
  (<[SEED3D := [SINGLE]]>
  (<[MESHY := [SINGLE; MULTI]]> ∅)))).

(** Default variants for each model. *)
Definition DEFAULT_VARIANTS : gmap string string :=
  <[TRELLIS := SINGLE]>
  (<[HUNYUAN3D := SINGLE]>
  (<[HUNYUAN_WORLD := SINGLE]>
  (<[SEED3D := SINGLE]>
  (<[MESHY := SINGLE]> ∅)))).

(** The view tags of [referenceViews]; the code never checks them at run
    time, so they are taken at their declared type. *)
Inductive View : Type := Front | Back | Top | Left | Right.

Definition view_name (v : View) : string :=
  match v with
  | Front => "front"
  | Back => "back"
  | Top => "top"
  | Left => "left"
  | Right => "right"
  end.

#[global] Instance View_eq_dec : EqDecision View.
Proof. solve_decision. Defined.

(** ** [src/providers/model3dHelpers.ts]: the option resolver *)

(** [Model3DGenerationOptionsExtended] as the functions see it at run
    time.  [model] and [variant] are strings because
    [validate3DModelOptions] checks them against string lists. *)
Record Model3DGenerationOptionsExtended : Type := {
  prompt : Slot string;
  inputImagePaths : Slot (list string);
  outputPath : Slot string;
  model : Slot string;
  variant : Slot string;
  format : Slot string;
  quality : Slot string;
  textured_mesh : Slot bool;
  autoGenerateReferences : Slot bool;
  referenceModel : Slot string;
  referenceViews : Slot (list View);
  cleanupReferences : Slot bool
}.

(** [{ ...lower, ...upper }] on option objects (a shallow merge). *)
Definition spread (lower upper : Model3DGenerationOptionsExtended)
  : Model3DGenerationOptionsExtended :=
  {| prompt := over (prompt lower) (prompt upper);
     inputImagePaths := over (inputImagePaths lower) (inputImagePaths upper);
     outputPath := over (outputPath lower) (outputPath upper);
     model := over (model lower) (model upper);
     variant := over (variant lower) (variant upper);
     format := over (format lower) (format upper);
     quality := over (quality lower) (quality upper);
     textured_mesh := over (textured_mesh lower) (textured_mesh upper);
     autoGenerateReferences :=
       over (autoGenerateReferences lower) (autoGenerateReferences upper);
     referenceModel := over (referenceModel lower) (referenceModel upper);
     referenceViews := over (referenceViews lower) (referenceViews upper);
     cleanupReferences :=
       over (cleanupReferences lower) (cleanupReferences upper) |}.

(** Helper function to determine which model variant to use. *)
Definition selectModelVariant
    (model : string) (inputImageCount : Z) (preferTurbo : bool) : string :=
  if String.eqb model TRELLIS || String.eqb model MESHY then
    if inputImageCount <=? 1 then SINGLE else MULTI
  else if String.eqb model HUNYUAN_WORLD || String.eqb model SEED3D then
    SINGLE
  else if preferTurbo then
    if inputImageCount <=? 1 then SINGLE_TURBO else MULTI_TURBO
  else
    if inputImageCount <=? 1 then SINGLE else MULTI.

(** Helper function to validate and get default variant (the lenient
    path: an unavailable variant is replaced, with a warning).  For a
    model outside the tables the default is [undefined], and looking an
    explicit variant up throws.  The two tables are object literals:
    this holds for every model name that is not a property name of
    [Object.prototype] ("constructor", "toString", ...), for which the
    lookup finds the inherited property instead of [undefined]; such
    names are outside this model. *)
Definition validateAndGetVariant
    (model : string) (variant : option string)
  : Completion (option string) :=
  if negb (truthy variant) then Return (DEFAULT_VARIANTS !! model)
  else
    match AVAILABLE_VARIANTS !! model with
    | None => Throw "Cannot read properties of undefined (reading 'includes')"
    | Some availableVariants =>
        if negb (value_in availableVariants variant)
        then Return (DEFAULT_VARIANTS !! model)
        else Return variant
    end.

Definition when (b : bool) (msg : string) : Completion unit :=
  if b then Throw msg else Return tt.

#[global] Instance Completion_bind : MBind Completion :=
  fun A B k c => bind c k.
#[global] Instance Completion_ret : MRet Completion := @Return.

(** [options.variant?.includes('turbo')]. *)
Definition variant_includes (o : Model3DGenerationOptionsExtended)
    (part : string) : bool :=
  match read (variant o) with
  | Some v => includes v part
  | None => false
  end.

Definition model_is (o : Model3DGenerationOptionsExtended) (m : string)
  : bool :=
  value_is (read (model o)) m.

Definition no_input_images (o : Model3DGenerationOptionsExtended) : bool :=
  match read (inputImagePaths o) with
  | Some l => (length l =? 0)%nat
  | None => true
  end.

(** Validation function for 3D model generation options. *)
Definition validate3DModelOptions (options : Model3DGenerationOptionsExtended)
  : Completion unit :=
  when (negb (truthy (read (outputPath options)))
        || blank (show (read (outputPath options))))
       "Output path is required and cannot be empty" ;;
  when (negb (value_in
                ["trellis"; "hunyuan3d"; "hunyuan-world"; "seed3d"; "meshy"]
                (read (model options))))
       "Model must be one of: trellis, hunyuan3d, hunyuan-world, seed3d, meshy" ;;
  when (truthy (read (variant options))
        && negb (value_in
                   ["single"; "multi"; "single-turbo"; "multi-turbo"]
                   (read (variant options))))
       "Variant must be one of: single, multi, single-turbo, multi-turbo" ;;
  when (truthy (read (format options))
        && negb (value_in ["glb"; "gltf"] (read (format options))))
       "Format must be one of: glb, gltf" ;;
  when (model_is options "trellis" && variant_includes options "turbo")
       "Trellis model does not support turbo variants" ;;
  when (model_is options "hunyuan-world"
        && truthy (read (variant options))
        && negb (value_is (read (variant options)) "single"))
       "Hunyuan World model only supports single variant" ;;
  when (model_is options "seed3d"
        && truthy (read (variant options))
        && negb (value_is (read (variant options)) "single"))
       "Seed3D model only supports single variant" ;;
  when (model_is options "meshy" && variant_includes options "turbo")
       "Meshy model does not support turbo variants" ;;
  when (no_input_images options && negb (truthy (read (prompt options))))
       "Either input images or a prompt is required for 3D model generation".

(** Get default options for 3D model generation. *)
Definition baseDefaults : Model3DGenerationOptionsExtended :=
  {| prompt := Absent;
     inputImagePaths := Absent;
     outputPath := Absent;
     model := Absent;
     variant := Absent;
     format := Present GLB;
     quality := Absent;
     textured_mesh := Absent;
     autoGenerateReferences := Present true;
     referenceModel := Present "gemini";
     referenceViews := Present [Front; Back; Top];
     cleanupReferences := Present true |}.

Definition withModelVariant (base : Model3DGenerationOptionsExtended)
    (m v : string) : Model3DGenerationOptionsExtended :=
  {| prompt := prompt base;
     inputImagePaths := inputImagePaths base;
     outputPath := outputPath base;
     model := Present m;
     variant := Present v;
     format := format base;
     quality := quality base;
     textured_mesh := textured_mesh base;
     autoGenerateReferences := autoGenerateReferences base;
     referenceModel := referenceModel base;
     referenceViews := referenceViews base;
     cleanupReferences := cleanupReferences base |}.

Definition getDefault3DOptions (model : option string)
  : Completion Model3DGenerationOptionsExtended :=
  if value_is model TRELLIS then
    Return (withModelVariant baseDefaults TRELLIS MULTI)
  else if value_is model HUNYUAN3D then
    Return (withModelVariant baseDefaults HUNYUAN3D MULTI)
  else if value_is model HUNYUAN_WORLD then
    Return (withModelVariant baseDefaults HUNYUAN_WORLD SINGLE)
  else if value_is model SEED3D then
    Return (withModelVariant baseDefaults SEED3D SINGLE)
  else if value_is model MESHY then
    Return (withModelVariant baseDefaults MESHY SINGLE)
  else
    Throw ("No default options available for model: " +:+ show model).

(** Merge user options with defaults. *)
Definition merge3DWithDefaults (options : Model3DGenerationOptionsExtended)
  : Completion Model3DGenerationOptionsExtended :=
  defaults ← getDefault3DOptions (read (model options));
  mret (spread defaults options).

(** ** The status store *)

Inductive JobStatus : Type := pending | processing | completed | failed.

#[global] Instance JobStatus_eq_dec : EqDecision JobStatus.
Proof. solve_decision. Defined.

(** [Model3DGenerationResult]: the fields the orchestrator reads or
    writes; what a backend reports besides (timings, mesh information,
    request parameters) travels in [res_details]. *)
Record Model3DGenerationResult : Type := {
  res_provider : string;
  res_model : string;
  res_variant : string;
  res_savedPaths : list string;
  res_prompt_used : option string;
  res_input_images : list string;
  res_details : string;
  auto_generated_references : option (list string);
  reference_model_used : option string;
  reference_views_generated : option (list string)
}.

(** [Model3DGenerationStatus] as it is at run time: the object that
    [JSON.parse] makes of the text of the status file.  Such an object
    can lack any key of the interface ([JSON.stringify] leaves out a key
    whose value is [undefined], and the file may come from elsewhere),
    so every key is optional here; values are taken at their declared
    types, and keys the interface does not have are not looked at. *)
Record Model3DGenerationStatus : Type := {
  id : option string;
  status : option JobStatus;
  progress : option Z;
  message : option string;
  startTime : option string;
  endTime : option string;
  result : option Model3DGenerationResult;
  error : option string;
  logs : option (list string)
}.

(** A [Partial<Model3DGenerationStatus>] handed to [updateStatusFile]:
    each key is absent, present with the value [undefined], or present
    with a value. *)
Record StatusUpdate : Type := {
  set_id : Slot string;
  set_status : Slot JobStatus;
  set_progress : Slot Z;
  set_message : Slot string;
  set_startTime : Slot string;
  set_endTime : Slot string;
  set_result : Slot Model3DGenerationResult;
  set_error : Slot string;
  set_logs : Slot (list string)
}.

(** One key of [Object.assign(target, source)] as [JSON.stringify]
    writes it afterwards: an own key of the source wins, and a key set
    to [undefined] is not written. *)
Definition assigned {A} (cur : option A) (upd : Slot A) : option A :=
  match upd with
  | Absent => cur
  | Undefined => None
  | Present a => Some a
  end.

(** [Object.assign(currentStatus, status)]. *)
Definition assign (cur : Model3DGenerationStatus) (upd : StatusUpdate)
  : Model3DGenerationStatus :=
  {| id := assigned (id cur) (set_id upd);
     status := assigned (status cur) (set_status upd);
     progress := assigned (progress cur) (set_progress upd);
     message := assigned (message cur) (set_message upd);
     startTime := assigned (startTime cur) (set_startTime upd);
     endTime := assigned (endTime cur) (set_endTime upd);
     result := assigned (result cur) (set_result upd);
     error := assigned (error cur) (set_error upd);
     logs := assigned (logs cur) (set_logs upd) |}.

(** ** External collaborators and the mutable world *)

(** Argument bag of [generateImage] as built by the reference
    generator. *)
Record GenerateImageArgs : Type := {
  gi_provider : string;
  gi_prompt : string;
  gi_outputPath : string;
  gi_inputImagePaths : option (list string);
  gi_size : option string;
  gi_image_size : option string
}.

(** What the awaited [generateImage] call does: reject, resolve with a
    text [JSON.parse] refuses, or resolve with a JSON object whose
    [savedPaths] key may be missing. *)
Inductive ImageReply : Type :=
| Rejected (msg : string)
| Malformed (msg : string)
| Resolved (savedPaths : option (list string)).

Inductive Backend : Type :=
| trellisGenerate3DSingle
| trellisGenerate3DMulti
| hunyuan3DGenerateSingle
| hunyuan3DGenerateMulti
| hunyuan3DGenerateSingleTurbo
| hunyuan3DGenerateMultiTurbo
| hunyuanWorldGenerate3D
| seed3DGenerate
| meshyGenerateSingle
| meshyGenerateMulti.

(** [imagePath: finalInputPaths[0]] (undefined on an empty array) or
    [imagePaths: finalInputPaths]. *)
Inductive ImageInput : Type :=
| imagePath (p : option string)
| imagePaths (ps : list string).

Record BackendArgs : Type := {
  b_prompt : option string;
  b_images : ImageInput;
  b_outputPath : option string;
  b_format : string
}.

(** What a path of the disk holds, as far as the status store can
    tell: the JSON text of an object, seen through the keys of a status
    record, or anything else (an image, a binary model, a directory,
    text that is no JSON object), which the store cannot read as a
    record and leaves as it is. *)
Inductive File : Type :=
| StatusJson (s : Model3DGenerationStatus)
| Blob.

(** Observable actions, in the order they happen: a write of the status
    store that succeeded, the calls of the job, and the files its
    collaborators (the image provider, the 3D backend) wrote. *)
Inductive Event : Type :=
| StatusWritten (s : Model3DGenerationStatus)
| ImageRequested (args : GenerateImageArgs)
| BackendCalled (b : Backend) (args : BackendArgs)
| UnlinkCalled (path : string)
| FileSaved (path : string).

(** The collaborators of one run.  [generateImage n args] is the [n]-th
    call of the run together with the files it leaves on disk;
    [backend b args] is the answer of a 3D backend and [backendSaves b
    args] the files it leaves on disk, with what they hold; [isoTime n]
    is what the [n]-th [new Date().toISOString()] returns; [basename] is
    Node's [path.basename]; [unlinkDenied] are the paths the process may
    not delete; [writable n path] tells whether [writeFileSync(path,
    ...)] succeeds once [n] actions have happened (it throws when the
    directory is missing or the path may not be written). *)
Record Env : Type := {
  isoTime : nat -> string;
  basename : string -> string -> string;
  generateImage : nat -> GenerateImageArgs -> ImageReply * list string;
  backend : Backend -> BackendArgs -> Completion Model3DGenerationResult;
  backendSaves : Backend -> BackendArgs -> list (string * File);
  unlinkDenied : gset string;
  writable : nat -> string -> bool
}.

(** The files on disk (the status file is one of them), the number of
    clock reads, and the actions so far. *)
Record World : Type := {
  disk : gmap string File;
  ticks : nat;
  trace : list Event
}.

(** The paths that exist, and the record the file at a path holds when
    it holds one. *)
Definition files (w : World) : gset string := dom (disk w).

Definition statusFile (statusPath : string) (w : World)
  : option Model3DGenerationStatus :=
  match disk w !! statusPath with
  | Some (StatusJson s) => Some s
  | _ => None
  end.

Definition now (env : Env) (w : World) : string * World :=
  (isoTime env (ticks w),
   {| disk := disk w; ticks := S (ticks w); trace := trace w |}).

Definition emit (e : Event) (w : World) : World :=
  {| disk := disk w; ticks := ticks w; trace := trace w ++ [e] |}.

Definition setDisk (d : gmap string File) (w : World) : World :=
  {| disk := d; ticks := ticks w; trace := trace w |}.

(** A collaborator writes a file. *)
Definition saveFile (w : World) (saved : string * File) : World :=
  setDisk (<[saved.1 := saved.2]> (disk w)) (emit (FileSaved saved.1) w).

Definition saveFiles (saved : list (string * File)) (w : World) : World :=
  foldl saveFile w saved.

(** [writeFileSync(statusPath, JSON.stringify(currentStatus, null, 2))]
    when it succeeds. *)
Definition writeFileSync (statusPath : string) (s : Model3DGenerationStatus)
    (w : World) : World :=
  setDisk (<[statusPath := StatusJson s]> (disk w)) (emit (StatusWritten s) w).

(** The same inside the [try] of the two functions below: when it
    throws, the [catch] warns and the file is as before. *)
Definition writeStatus (env : Env) (statusPath : string)
    (s : Model3DGenerationStatus) (w : World) : World :=
  if writable env (length (trace w)) statusPath
  then writeFileSync statusPath s w
  else w.

(** Create and update status file.  Whatever throws inside the [try]
    (reading a file that is no JSON object, writing to a path that
    cannot be written) is caught and warned about. *)
Definition updateStatusFile (env : Env) (statusPath : string)
    (upd : StatusUpdate) (w : World) : World :=
  match disk w !! statusPath with
  | Some Blob => w
  | Some (StatusJson currentStatus) =>
      writeStatus env statusPath (assign currentStatus upd) w
  | None =>
      let '(t, w0) := now env w in
      let currentStatus :=
        {| id := Some (basename env statusPath ".json");
           status := Some pending;
           progress := Some 0;
           message := Some "Initializing...";
           startTime := Some t;
           endTime := None;
           result := None;
           error := None;
           logs := Some [] |} in
      writeStatus env statusPath (assign currentStatus upd) w0
  end.

(** [currentStatus.logs.push(line)] on an object that has a [logs]
    array. *)
Definition pushLog (s : Model3DGenerationStatus) (line : string)
  : Model3DGenerationStatus :=
  {| id := id s; status := status s; progress := progress s;
     message := message s; startTime := startTime s; endTime := endTime s;
     result := result s; error := error s;
     logs := (fun lines => lines ++ [line]) <$> logs s |}.

(** Add log entry to status file.  On an object without [logs] the call
    of [push] throws before the clock is read; this too is caught and
    warned about. *)
Definition addLogToStatus (env : Env) (statusPath : string)
    (msg : string) (w : World) : World :=
  match disk w !! statusPath with
  | Some Blob => w
  | Some (StatusJson currentStatus) =>
      match logs currentStatus with
      | None => w
      | Some _ =>
          let '(t, w1) := now env w in
          writeStatus env statusPath
            (pushLog currentStatus ("[" +:+ t +:+ "] " +:+ msg)) w1
      end
  | None =>
      let '(t0, w0) := now env w in
      let currentStatus :=
        {| id := Some (basename env statusPath ".json");
           status := Some processing;
           progress := Some 0;
           message := Some "Starting...";
           startTime := Some t0;
           endTime := None;
           result := None;
           error := None;
           logs := Some [] |} in
      let '(t, w1) := now env w0 in
      writeStatus env statusPath
        (pushLog currentStatus ("[" +:+ t +:+ "] " +:+ msg)) w1
  end.

(** [unlinkSync(path)]. *)
Definition unlinkSync (env : Env) (path : string) (w : World)
  : World * Completion unit :=
  let w1 := emit (UnlinkCalled path) w in
  if bool_decide (path ∈ files w) then
    if bool_decide (path ∈ unlinkDenied env) then
      (w1, Throw ("EPERM: operation not permitted, unlink '" +:+ path +:+ "'"))
    else
      (setDisk (delete path (disk w)) w1, Return tt)
  else
    (w1, Throw ("ENOENT: no such file or directory, unlink '" +:+ path +:+ "'")).

(** ** The reference image generator *)

(** Comparator of the view sort: front first. *)
Definition frontFirst (a b : View) : Z :=
  if bool_decide (a = Front) then -1
  else if bool_decide (b = Front) then 1
  else 0.

(** [Array.prototype.sort(cmp)]: a stable sort, here by insertion. *)
Fixpoint sortInsert {A} (cmp : A -> A -> Z) (x : A) (sorted : list A)
  : list A :=
  match sorted with
  | [] => [x]
  | y :: rest =>
      if cmp x y <=? 0 then x :: y :: rest
      else y :: sortInsert cmp x rest
  end.

Definition arraySort {A} (cmp : A -> A -> Z) (xs : list A) : list A :=
  foldr (sortInsert cmp) [] xs.

Definition viewDetail (view : View) : string :=
  match view with
  | Front => ", front-facing view showing main features and proportions, sharp edges, fine details"
  | Back => ", rear view showing back details and construction, sharp edges, fine details"
  | Top => ", overhead view showing top layout and proportions, sharp edges, fine details"
  | Left => ", left side profile showing side details and proportions, sharp edges, fine details"
  | Right => ", right side profile showing opposite side details, sharp edges, fine details"
  end.

Definition referenceQualities : string :=
  "professional 3D modeling reference, consistent lighting, "
  +:+ "highly detailed, crisp details, sharp focus, "
  +:+ "shot on Sony A7R IV with 85mm f/1.4 lens, "
  +:+ "professional product photography, suitable for 3D reconstruction".

Definition firstViewPrompt (prompt : string) (view : View) : string :=
  prompt +:+ ", " +:+ view_name view +:+ " view, "
  +:+ "sharp technical reference image, clean white background, "
  +:+ referenceQualities +:+ viewDetail view.

Definition nextViewPrompt (view : View) : string :=
  "Create a " +:+ view_name view
  +:+ " view of the same object, maintaining exact consistency "
  +:+ "with the provided image(s). Sharp technical reference image, clean white background, "
  +:+ referenceQualities +:+ viewDetail view.

(** The argument bag of iteration [i]: the first view is generated from
    the text prompt, the later ones get a copy of [referencePaths]. *)
Definition viewRequest (prompt outputBasePath model : string) (i : nat)
    (view : View) (referencePaths : list string) : GenerateImageArgs :=
  let outputPath :=
    replace_ext outputBasePath ("_ref_" +:+ view_name view +:+ ".png") in
  {| gi_provider := model;
     gi_prompt := if (i =? 0)%nat then firstViewPrompt prompt view
                  else nextViewPrompt view;
     gi_outputPath := outputPath;
     gi_inputImagePaths := if (i =? 0)%nat then None else Some referencePaths;
     gi_size := if String.eqb model "openai" then Some "1024x1024" else None;
     gi_image_size := if String.eqb model "falai" then Some "square_hd" else None |}.

(** The body of the [try] of one iteration after the awaited call:
    parse the reply and push the saved paths. *)
Definition collectSaved (reply : ImageReply) (referencePaths : list string)
  : Completion (list string) :=
  match reply with
  | Rejected msg => Throw msg
  | Malformed msg => Throw msg
  | Resolved None => Return referencePaths
  | Resolved (Some saved) =>
      if (0 <? length saved)%nat then Return (referencePaths ++ saved)
      else Return referencePaths
  end.

Fixpoint referenceLoop (env : Env) (prompt outputBasePath model : string)
    (i : nat) (sortedViews : list View) (referencePaths : list string)
    (w : World) : World * list string :=
  match sortedViews with
  | [] => (w, referencePaths)
  | view :: rest =>
      let args := viewRequest prompt outputBasePath model i view referencePaths in
      let '(reply, created) := generateImage env i args in
      let w1 := saveFiles ((fun path => (path, Blob)) <$> created)
                  (emit (ImageRequested args) w) in
      let referencePaths1 :=
        match collectSaved reply referencePaths with
        | Return paths => paths
        | Throw _ => referencePaths (* warned; continue with other views *)
        end in
      referenceLoop env prompt outputBasePath model (S i) rest referencePaths1 w1
  end.

(** Helper function to generate reference images for 3D modeling with
    consistency. *)
Definition generateReferenceImages (env : Env) (prompt outputBasePath : string)
    (views : list View) (model : string) (w : World) : World * list string :=
  let sortedViews := arraySort frontFirst views in
  referenceLoop env prompt outputBasePath model 0 sortedViews [] w.

(** ** The asynchronous job orchestrator *)

(** [{ progress, message }] and [{ status, progress, message }]. *)
Definition stage (p : Z) (msg : string) : StatusUpdate :=
  {| set_id := Absent; set_status := Absent; set_progress := Present p;
     set_message := Present msg; set_startTime := Absent;
     set_endTime := Absent; set_result := Absent; set_error := Absent;
     set_logs := Absent |}.

Definition stageStatus (s : JobStatus) (p : Z) (msg : string) : StatusUpdate :=
  {| set_id := Absent; set_status := Present s; set_progress := Present p;
     set_message := Present msg; set_startTime := Absent;
     set_endTime := Absent; set_result := Absent; set_error := Absent;
     set_logs := Absent |}.

(** The two [let] variables of the background task; the [finally] block
    reads them whatever way the [try] block was left. *)
Record Locals : Type := {
  finalInputPaths : list string;
  generatedReferences : list string
}.

Definition callBackend (env : Env) (b : Backend) (args : BackendArgs)
    (w : World) : World * Completion Model3DGenerationResult :=
  (saveFiles (backendSaves env b args) (emit (BackendCalled b args) w),
   backend env b args).

(** The [switch (model)] of the background task. *)
Definition dispatch (env : Env) (statusPath : string)
    (options : Model3DGenerationOptionsExtended) (actualVariant : string)
    (finalInputPaths : list string) (w : World)
  : World * Completion Model3DGenerationResult :=
  let model := read (model options) in
  let format := read_or "glb" (format options) in
  let one :=
    {| b_prompt := read (prompt options);
       b_images := imagePath (head finalInputPaths);
       b_outputPath := read (outputPath options);
       b_format := format |} in
  let many (ps : list string) :=
    {| b_prompt := read (prompt options);
       b_images := imagePaths ps;
       b_outputPath := read (outputPath options);
       b_format := format |} in
  if value_is model "trellis" then
    if String.eqb actualVariant "single"
    then callBackend env trellisGenerate3DSingle one w
    else callBackend env trellisGenerate3DMulti (many finalInputPaths) w
  else if value_is model "hunyuan3d" then
    let w1 := updateStatusFile env statusPath
                (stage 50 "Processing with Hunyuan3D...") w in
    if String.eqb actualVariant "single" then
      callBackend env hunyuan3DGenerateSingle one w1
    else if String.eqb actualVariant "multi" then
      callBackend env hunyuan3DGenerateMulti (many finalInputPaths) w1
    else if String.eqb actualVariant "single-turbo" then
      callBackend env hunyuan3DGenerateSingleTurbo one w1
    else if String.eqb actualVariant "multi-turbo" then
      callBackend env hunyuan3DGenerateMultiTurbo (many finalInputPaths) w1
    else
      (w1, Throw ("Unsupported Hunyuan3D variant: " +:+ actualVariant))
  else if value_is model "hunyuan-world" then
    let w1 := updateStatusFile env statusPath
                (stage 50 "Processing with Hunyuan World...") w in
    callBackend env hunyuanWorldGenerate3D one w1
  else if value_is model "seed3d" then
    let w1 := updateStatusFile env statusPath
                (stage 50 "Processing with ByteDance Seed3D...") w in
    callBackend env seed3DGenerate one w1
  else if value_is model "meshy" then
    let w1 := updateStatusFile env statusPath
                (stage 50 "Processing with Meshy...") w in
    if String.eqb actualVariant "single"
    then callBackend env meshyGenerateSingle one w1
    else callBackend env meshyGenerateMulti (many (take 4 finalInputPaths)) w1
  else
    (w, Throw ("Unsupported 3D model: " +:+ show model)).

(** "If no input images provided, generate reference images
    automatically". *)
Definition prepareReferences (env : Env) (statusPath : string)
    (options : Model3DGenerationOptionsExtended) (locals : Locals)
    (w : World) : World * Locals * Completion unit :=
  if (length (finalInputPaths locals) =? 0)%nat
     && truthy (read (prompt options))
     && read_or true (autoGenerateReferences options)
  then
    let w1 := addLogToStatus env statusPath
      "No input images provided, generating reference images automatically..." w in
    let w2 := updateStatusFile env statusPath
      (stage 20 "Generating reference images...") w1 in
    match read (outputPath options) with
    | None =>
        (w2, locals,
         Throw "Cannot read properties of undefined (reading 'replace')")
    | Some out =>
        let outputBasePath := replace_ext out EmptyString in
        let views :=
          if truthy (read (variant options))
             && includes (show (read (variant options))) "multi"
          then read_or [Front; Back; Top] (referenceViews options)
          else [Front] in
        let '(w3, refs) :=
          generateReferenceImages env (show (read (prompt options)))
            outputBasePath views
            (read_or "gemini" (referenceModel options)) w2 in
        let w4 := addLogToStatus env statusPath
          ("Generated " +:+ pretty (length refs) +:+ " reference images") w3 in
        (w4, {| finalInputPaths := refs; generatedReferences := refs |},
         Return tt)
    end
  else (w, locals, Return tt).

(** From "Preparing 3D generation request" to the backend's answer. *)
Definition requestModel (env : Env) (statusPath : string)
    (options : Model3DGenerationOptionsExtended) (locals : Locals)
    (w : World) : World * Completion Model3DGenerationResult :=
  let w1 := updateStatusFile env statusPath
    (stage 30 "Preparing 3D generation request...") w in
  let actualVariant :=
    if truthy (read (variant options)) then show (read (variant options))
    else selectModelVariant (show (read (model options)))
           (Z.of_nat (length (finalInputPaths locals))) false in
  let w2 := addLogToStatus env statusPath
    ("Using variant: " +:+ actualVariant +:+ " with "
     +:+ pretty (length (finalInputPaths locals)) +:+ " input images") w1 in
  let w3 := updateStatusFile env statusPath
    (stage 40 ("Calling " +:+ show (read (model options)) +:+ " "
               +:+ actualVariant +:+ " API...")) w2 in
  dispatch env statusPath options actualVariant (finalInputPaths locals) w3.

Definition withReferences (r : Model3DGenerationResult)
    (refs : list string) (referenceModel : string) (views : list View)
  : Model3DGenerationResult :=
  {| res_provider := res_provider r;
     res_model := res_model r;
     res_variant := res_variant r;
     res_savedPaths := res_savedPaths r;
     res_prompt_used := res_prompt_used r;
     res_input_images := res_input_images r;
     res_details := res_details r;
     auto_generated_references := Some refs;
     reference_model_used := Some referenceModel;
     reference_views_generated := Some (view_name <$> views) |}.

(** From "Finalizing result" to the [completed] record. *)
Definition finishJob (env : Env) (statusPath : string)
    (options : Model3DGenerationOptionsExtended) (locals : Locals)
    (r : Model3DGenerationResult) (w : World) : World :=
  let w1 := updateStatusFile env statusPath
    (stage 90 "Finalizing result...") w in
  let r1 :=
    if (0 <? length (generatedReferences locals))%nat
    then withReferences r (generatedReferences locals)
           (read_or "gemini" (referenceModel options))
           (read_or [Front; Back; Top] (referenceViews options))
    else r in
  let '(t, w2) := now env w1 in
  let w3 := updateStatusFile env statusPath
    {| set_id := Absent;
       set_status := Present completed;
       set_progress := Present 100;
       set_message := Present "3D model generation completed successfully!";
       set_startTime := Absent;
       set_endTime := Present t;
       set_result := Present r1;
       set_error := Absent;
       set_logs := Absent |} w2 in
  addLogToStatus env statusPath "3D model generation completed successfully" w3.

(** The [try] block of the background task. *)
Definition tryBlock (env : Env) (statusPath : string)
    (options : Model3DGenerationOptionsExtended) (locals : Locals)
    (w : World) : World * Locals * Completion unit :=
  let w1 := updateStatusFile env statusPath
    (stageStatus processing 5 "Validating options and preparing inputs...") w in
  let w2 := addLogToStatus env statusPath
    ("Starting 3D generation with model: " +:+ show (read (model options))
     +:+ ", variant: " +:+ show (read (variant options))) w1 in
  match validate3DModelOptions options with
  | Throw e => (w2, locals, Throw e)
  | Return _ =>
      let w3 := updateStatusFile env statusPath
        (stage 10 "Checking input images...") w2 in
      match prepareReferences env statusPath options locals w3 with
      | (w4, locals1, Throw e) => (w4, locals1, Throw e)
      | (w4, locals1, Return _) =>
          match requestModel env statusPath options locals1 w4 with
          | (w5, Throw e) => (w5, locals1, Throw e)
          | (w5, Return r) =>
              (finishJob env statusPath options locals1 r w5, locals1,
               Return tt)
          end
      end
  end.

(** The [catch] block. *)
Definition catchBlock (env : Env) (statusPath : string)
    (errorMessage : string) (w : World) : World :=
  let '(t, w1) := now env w in
  let w2 := updateStatusFile env statusPath
    {| set_id := Absent;
       set_status := Present failed;
       set_progress := Present 0;
       set_message := Present ("Generation failed: " +:+ errorMessage);
       set_startTime := Absent;
       set_endTime := Present t;
       set_result := Absent;
       set_error := Present errorMessage;
       set_logs := Absent |} w1 in
  addLogToStatus env statusPath ("ERROR: " +:+ errorMessage) w2.

(** The [for] loop of the [finally] block. *)
Fixpoint cleanupLoop (env : Env) (statusPath : string)
    (refs : list string) (w : World) : World :=
  match refs with
  | [] => w
  | refPath :: rest =>
      let w1 :=
        match unlinkSync env refPath w with
        | (w0, Return _) =>
            addLogToStatus env statusPath ("Cleaned up: " +:+ refPath) w0
        | (w0, Throw cleanupError) =>
            addLogToStatus env statusPath
              ("Failed to cleanup " +:+ refPath +:+ ": Error: "
               +:+ cleanupError) w0
        end in
      cleanupLoop env statusPath rest w1
  end.

(** The [finally] block: clean up generated reference images if
    requested. *)
Definition finallyBlock (env : Env) (statusPath : string)
    (options : Model3DGenerationOptionsExtended) (locals : Locals)
    (w : World) : World :=
  if read_or true (cleanupReferences options)
     && (0 <? length (generatedReferences locals))%nat
  then
    cleanupLoop env statusPath (generatedReferences locals)
      (addLogToStatus env statusPath "Cleaning up reference images..." w)
  else w.

(** The background task, run to its end. *)
Definition backgroundTask (env : Env) (statusPath : string)
    (options : Model3DGenerationOptionsExtended) (w : World) : World :=
  let locals0 :=
    {| finalInputPaths := read_or [] (inputImagePaths options);
       generatedReferences := [] |} in
  let '(w1, locals, outcome) := tryBlock env statusPath options locals0 w in
  let w2 :=
    match outcome with
    | Return _ => w1
    | Throw errorMessage => catchBlock env statusPath errorMessage w1
    end in
  finallyBlock env statusPath options locals w2.

(** Async 3D model generation with status file for long-running
    operations.  The function writes the [pending] record, starts the
    background task without awaiting it and returns [statusPath]; the
    world returned here is the one the finished task leaves, and [trace]
    holds every state the status file went through on the way. *)
Definition generate3DModelAsync (env : Env)
    (options : Model3DGenerationOptionsExtended) (statusPath : string)
    (w : World) : World * string :=
  let w1 := updateStatusFile env statusPath
    (stageStatus pending 0 "Initializing 3D model generation...") w in
  (backgroundTask env statusPath options w1, statusPath).

(** ** [src/utils/model3dUtils.ts]: polling a Meshy task *)

Record MeshyApiError : Type := {
  err_message : option string;
  err_json : string
}.

(** The fields of the task document the loop looks at. *)
Record MeshyTask : Type := {
  task_error_field : option MeshyApiError;
  task_status : option string;
  task_error_message : option string
}.

Inductive PollEvent : Type :=
| Requested (url authorization : string)
| Slept (ms : Z).

(** [v || fallback] on strings. *)
Definition or_else (v : option string) (fallback : string) : string :=
  if truthy v then show v else fallback.

(** The [for] loop, with [remaining = maxAttempts - attempt]. *)
Fixpoint pollLoop (http : nat -> string -> Completion MeshyTask)
    (url auth : string) (pollInterval : Z) (attempt remaining : nat)
  : list PollEvent * Completion MeshyTask :=
  match remaining with
  | O => ([], Throw "Meshy task timed out after maximum polling attempts")
  | S remaining' =>
      match http attempt url with
      | Throw e => ([Requested url auth], Throw e)
      | Return response =>
          match task_error_field response with
          | Some err =>
              ([Requested url auth],
               Throw ("Meshy API error: "
                      +:+ or_else (err_message err) (err_json err)))
          | None =>
              if value_is (task_status response) "SUCCEEDED" then
                ([Requested url auth], Return response)
              else if value_is (task_status response) "FAILED"
                      || value_is (task_status response) "EXPIRED" then
                ([Requested url auth],
                 Throw ("Meshy task " +:+ show (task_status response) +:+ ": "
                        +:+ or_else (task_error_message response)
                              "Unknown error"))
              else
                let '(evs, out) :=
                  pollLoop http url auth pollInterval (S attempt) remaining' in
                (Requested url auth :: Slept pollInterval :: evs, out)
          end
      end
  end.

(** Helper function to poll Meshy task status.  [http n url] is the
    answer to the [n]-th GET of the loop. *)
Definition pollMeshyTaskStatus (http : nat -> string -> Completion MeshyTask)
    (taskId apiKey basePath : string) (maxAttempts : nat) (pollInterval : Z)
  : list PollEvent * Completion MeshyTask :=
  pollLoop http
    ("https://api.meshy.ai/openapi/v1/" +:+ basePath +:+ "/" +:+ taskId)
    ("Bearer " +:+ apiKey) pollInterval 0 maxAttempts.

(** Default values of [maxAttempts] and [pollInterval]: 10 minutes with
    5s intervals. *)
Definition defaultMaxAttempts : nat := 120.
Definition defaultPollInterval : Z := 5000.

(** ** Vocabulary of the properties *)

(** The name the validation messages use for a model. *)
Definition modelTitle (m : string) : string :=
  if String.eqb m TRELLIS then "Trellis"
  else if String.eqb m HUNYUAN3D then "Hunyuan3D"
  else if String.eqb m HUNYUAN_WORLD then "Hunyuan World"
  else if String.eqb m SEED3D then "Seed3D"
  else if String.eqb m MESHY then "Meshy"
  else m.

(** The members of [Model3DVariant]. *)
Definition allVariants : list string :=
  [SINGLE; MULTI; SINGLE_TURBO; MULTI_TURBO].

(** The checks of [validate3DModelOptions] that do not look at the
    model-variant pair all pass: output path, format, and the presence
    of a prompt or of input images. *)
Definition restIsValid (o : Model3DGenerationOptionsExtended) : Prop :=
  truthy (read (outputPath o)) = true
  /\ blank (show (read (outputPath o))) = false
  /\ (truthy (read (format o)) = true ->
      value_in [GLB; GLTF] (read (format o)) = true)
  /\ (no_input_images o = false \/ truthy (read (prompt o)) = true).

(** The request has neither a prompt nor input images. *)
Definition missingPromptAndImages (o : Model3DGenerationOptionsExtended)
  : Prop :=
  no_input_images o = true /\ truthy (read (prompt o)) = false.

(** Every key of [user] is found unchanged in [merged]. *)
Definition kept {A} (user merged : Slot A) : Prop :=
  user <> Absent -> merged = user.

Definition userWins (user merged : Model3DGenerationOptionsExtended) : Prop :=
  kept (prompt user) (prompt merged)
  /\ kept (inputImagePaths user) (inputImagePaths merged)
  /\ kept (outputPath user) (outputPath merged)
  /\ kept (model user) (model merged)
  /\ kept (variant user) (variant merged)
  /\ kept (format user) (format merged)
  /\ kept (quality user) (quality merged)
  /\ kept (textured_mesh user) (textured_mesh merged)
  /\ kept (autoGenerateReferences user) (autoGenerateReferences merged)
  /\ kept (referenceModel user) (referenceModel merged)
  /\ kept (referenceViews user) (referenceViews merged)
  /\ kept (cleanupReferences user) (cleanupReferences merged).

(** [user] has every key that [defaults] has. *)
Definition supplied {A} (user defaults : Slot A) : Prop :=
  defaults <> Absent -> user <> Absent.

Definition suppliesAll (user defaults : Model3DGenerationOptionsExtended)
  : Prop :=
  supplied (prompt user) (prompt defaults)
  /\ supplied (inputImagePaths user) (inputImagePaths defaults)
  /\ supplied (outputPath user) (outputPath defaults)
  /\ supplied (model user) (model defaults)
  /\ supplied (variant user) (variant defaults)
  /\ supplied (format user) (format defaults)
  /\ supplied (quality user) (quality defaults)
  /\ supplied (textured_mesh user) (textured_mesh defaults)
  /\ supplied (autoGenerateReferences user) (autoGenerateReferences defaults)
  /\ supplied (referenceModel user) (referenceModel defaults)
  /\ supplied (referenceViews user) (referenceViews defaults)
  /\ supplied (cleanupReferences user) (cleanupReferences defaults).

(** Projections of a run's events. *)
Definition statusWrites (evs : list Event) : list Model3DGenerationStatus :=
  omap (fun e => match e with StatusWritten s => Some s | _ => None end) evs.

Definition imageCalls (evs : list Event) : list GenerateImageArgs :=
  omap (fun e => match e with ImageRequested a => Some a | _ => None end) evs.

Definition backendCalls (evs : list Event) : list (Backend * BackendArgs) :=
  omap (fun e => match e with BackendCalled b a => Some (b, a) | _ => None end)
       evs.

Definition unlinkCalls (evs : list Event) : list string :=
  omap (fun e => match e with UnlinkCalled p => Some p | _ => None end) evs.

(** The files the collaborators wrote, and the files that something
    other than the status store wrote or deleted. *)
Definition savedFiles (evs : list Event) : list string :=
  omap (fun e => match e with FileSaved p => Some p | _ => None end) evs.

Definition touched (evs : list Event) : list string :=
  omap (fun e =>
          match e with
          | FileSaved p | UnlinkCalled p => Some p
          | _ => None
          end) evs.

(** The status store has the status path to itself during [evs]: no
    collaborator writes the file and the job does not delete it. *)
Definition leftAlone (statusPath : string) (evs : list Event) : Prop :=
  statusPath ∉ touched evs.

(** The status path can hold the status file of a job: writing it
    succeeds at any time, and the path holds nothing yet or a JSON
    object with a [logs] array (the status file of an earlier job,
    say). *)
Definition usable (env : Env) (statusPath : string) (w : World) : Prop :=
  (forall n, writable env n statusPath = true)
  /\ match disk w !! statusPath with
     | None => True
     | Some (StatusJson s) => is_Some (logs s)
     | Some Blob => False
     end.

(** The status file holds the record [s], which has its log. *)
Definition inUse (statusPath : string) (w : World)
    (s : Model3DGenerationStatus) : Prop :=
  disk w !! statusPath = Some (StatusJson s) /\ is_Some (logs s).

(** [quiet w evs w']: the step from [w] to [w'] does [evs], none of
    them a write of the status store; it deletes only what it is told
    to delete and leaves every file it did not touch as it was. *)
Definition quiet (w : World) (evs : list Event) (w' : World) : Prop :=
  trace w' = trace w ++ evs
  /\ statusWrites evs = []
  /\ (forall p, p ∈ files w -> p ∉ unlinkCalls evs -> p ∈ files w')
  /\ (forall p, p ∉ touched evs -> disk w' !! p = disk w !! p).

(** The events between two worlds of one run. *)
Definition newEvents (before after : World) : list Event :=
  drop (length (trace before)) (trace after).

(** The images one reply reports as saved (none when the call failed). *)
Definition savedBy (reply : ImageReply) : list string :=
  match reply with
  | Resolved (Some saved) => saved
  | _ => []
  end.

(** The images saved by the calls of a run, numbered from [first]. *)
Fixpoint savedByCalls (env : Env) (first : nat)
    (calls : list GenerateImageArgs) : list string :=
  match calls with
  | [] => []
  | call :: rest =>
      savedBy (generateImage env first call).1
      ++ savedByCalls env (S first) rest
  end.

(** A poll answer that leaves the loop running. *)
Definition stillRunning (answer : Completion MeshyTask) : Prop :=
  exists task, answer = Return task
    /\ task_error_field task = None
    /\ value_is (task_status task) "SUCCEEDED" = false
    /\ value_is (task_status task) "FAILED" = false
    /\ value_is (task_status task) "EXPIRED" = false.

(** [k] rounds of the polling loop: a request, and the wait that
    follows an answer that leaves the task running. *)
Fixpoint rounds (k : nat) (url auth : string) (ms : Z) : list PollEvent :=
  match k with
  | O => []
  | S k' => Requested url auth :: Slept ms :: rounds k' url auth ms
  end.

Definition requests (evs : list PollEvent) : list string :=
  omap (fun e => match e with Requested url _ => Some url | _ => None end) evs.

Definition sleeps (evs : list PollEvent) : list Z :=
  omap (fun e => match e with Slept ms => Some ms | _ => None end) evs.

(** ** Sample requests and collaborators *)

(** [{ outputPath: 'model.glb', model: 'trellis', variant: 'single-turbo',
       prompt: 'test model' }]. *)
Definition trellisTurboRequest : Model3DGenerationOptionsExtended :=
  {| prompt := Present "test model"; inputImagePaths := Absent;
     outputPath := Present "model.glb"; model := Present TRELLIS;
     variant := Present SINGLE_TURBO; format := Absent; quality := Absent;
     textured_mesh := Absent; autoGenerateReferences := Absent;
     referenceModel := Absent; referenceViews := Absent;
     cleanupReferences := Absent |}.

(** [{ outputPath: '', model: 'seed3d', variant: 'multi',
       prompt: 'test model' }]. *)
Definition pathlessRequest : Model3DGenerationOptionsExtended :=
  {| prompt := Present "test model"; inputImagePaths := Absent;
     outputPath := Present EmptyString; model := Present SEED3D;
     variant := Present MULTI; format := Absent; quality := Absent;
     textured_mesh := Absent; autoGenerateReferences := Absent;
     referenceModel := Absent; referenceViews := Absent;
     cleanupReferences := Absent |}.

(** [{ outputPath: 'model.glb', model: 'seed3d', variant: 'fast',
       prompt: 'test model' }]: a variant that is no [Model3DVariant]. *)
Definition fastRequest : Model3DGenerationOptionsExtended :=
  {| prompt := Present "test model"; inputImagePaths := Absent;
     outputPath := Present "model.glb"; model := Present SEED3D;
     variant := Present "fast"; format := Absent; quality := Absent;
     textured_mesh := Absent; autoGenerateReferences := Absent;
     referenceModel := Absent; referenceViews := Absent;
     cleanupReferences := Absent |}.

(** [{ outputPath: 'model.glb', model: 'trellis', inputImagePaths: [] }]:
    neither prompt nor images. *)
Definition emptyRequest : Model3DGenerationOptionsExtended :=
  {| prompt := Absent; inputImagePaths := Present [];
     outputPath := Present "model.glb"; model := Present TRELLIS;
     variant := Absent; format := Absent; quality := Absent;
     textured_mesh := Absent; autoGenerateReferences := Absent;
     referenceModel := Absent; referenceViews := Absent;
     cleanupReferences := Absent |}.

(** A request that sets every key the defaults have. *)
Definition fullRequest : Model3DGenerationOptionsExtended :=
  {| prompt := Present "a red cube"; inputImagePaths := Absent;
     outputPath := Present "cube.gltf"; model := Present MESHY;
     variant := Present MULTI; format := Present GLTF; quality := Absent;
     textured_mesh := Absent; autoGenerateReferences := Present false;
     referenceModel := Present "openai";
     referenceViews := Present [Left; Front];
     cleanupReferences := Present false |}.

Definition runningTask : MeshyTask :=
  {| task_error_field := None; task_status := Some "IN_PROGRESS";
     task_error_message := None |}.

Definition succeededTask : MeshyTask :=
  {| task_error_field := None; task_status := Some "SUCCEEDED";
     task_error_message := None |}.

(** Two answers that leave the task running, then success. *)
Definition thirdTimeLucky (n : nat) (url : string) : Completion MeshyTask :=
  if (n <? 2)%nat then Return runningTask else Return succeededTask.

(** The collaborators of the unit tests: the image backend answers the
    first call with [test_front.png], rejects the second, answers the
    third with [test_top.png]; no image reaches the disk. *)
Definition secondCallFails (n : nat) (args : GenerateImageArgs)
  : ImageReply * list string :=
  match n with
  | 0%nat => (Resolved (Some ["test_front.png"]), [])
  | 1%nat => (Rejected "Generation failed", [])
  | _ => (Resolved (Some ["test_top.png"]), [])
  end.

Definition emptyResult : Model3DGenerationResult :=
  {| res_provider := "FAL.ai"; res_model := "trellis"; res_variant := "single";
     res_savedPaths := ["model.glb"]; res_prompt_used := None;
     res_input_images := []; res_details := "{}";
     auto_generated_references := None; reference_model_used := None;
     reference_views_generated := None |}.

(** A 3D backend that saves the model at the output path it is given. *)
Definition savingModel (b : Backend) (args : BackendArgs)
  : list (string * File) :=
  match b_outputPath args with
  | Some path => [(path, Blob)]
  | None => []
  end.

Definition testEnv : Env :=
  {| isoTime := fun _ => "2025-01-08T13:20:00.000Z";
     basename := fun path ext => path;
     generateImage := secondCallFails;
     backend := fun _ _ => Return emptyResult;
     backendSaves := savingModel;
     unlinkDenied := ∅;
     writable := fun _ _ => true |}.

Definition freshWorld : World :=
  {| disk := ∅; ticks := 0; trace := [] |}.

(** ** Vocabulary of the job lifecycle *)

(** What a poller reads of a record: its status and its progress, when
    it has both. *)
Definition mark (r : Model3DGenerationStatus) : option (JobStatus * Z) :=
  s ← status r; p ← progress r; Some (s, p).

Definition marks (evs : list Event) : list (option (JobStatus * Z)) :=
  mark <$> statusWrites evs.

Definition isTerminal (s : JobStatus) : Prop :=
  s = completed \/ s = failed.

Definition statusRank (s : JobStatus) : Z :=
  match s with
  | pending => 0
  | processing => 1
  | completed => 2
  | failed => 2
  end.

(** [later] may be read after [earlier]: the status does not go back, a
    terminal status stays, and the progress does not decrease unless the
    later record is the failure record. *)
Definition follows (earlier later : JobStatus * Z) : Prop :=
  statusRank earlier.1 <= statusRank later.1
  /\ (isTerminal earlier.1 -> later.1 = earlier.1)
  /\ (earlier.2 <= later.2 \/ later.1 = failed).

(** The locals of the background task when it starts. *)
Definition initialLocals (o : Model3DGenerationOptionsExtended) : Locals :=
  {| finalInputPaths := read_or [] (inputImagePaths o);
     generatedReferences := [] |}.

(** The world in which the background task starts: the [pending] record
    has been written. *)
Definition started (env : Env) (statusPath : string) (w : World) : World :=
  updateStatusFile env statusPath
    (stageStatus pending 0 "Initializing 3D model generation...") w.

(** A log line: a time between brackets and the text logged. *)
Definition stamped (text line : string) : Prop :=
  exists t, line = "[" +:+ t +:+ "] " +:+ text.

(** What the cleanup logs for one reference image, by what became of
    the call of [unlinkSync]. *)
Definition cleanupText (refPath : string) (outcome : Completion unit)
  : string :=
  match outcome with
  | Return _ => "Cleaned up: " +:+ refPath
  | Throw cleanupError =>
      "Failed to cleanup " +:+ refPath +:+ ": Error: " +:+ cleanupError
  end.

(** What becomes of the [k]-th deletion of the cleanup of [refs], the
    files [present] being on disk when the cleanup starts: the path is
    deleted when it is on disk, may be deleted and was not deleted
    before; the call throws when the path may not be deleted, or is not
    on disk (any more). *)
Definition deletion (env : Env) (present : gset string) (refs : list string)
    (k : nat) (refPath : string) : Completion unit :=
  if bool_decide (refPath ∈ present) then
    if bool_decide (refPath ∈ unlinkDenied env) then
      Throw ("EPERM: operation not permitted, unlink '" +:+ refPath +:+ "'")
    else if bool_decide (refPath ∈ take k refs) then
      Throw ("ENOENT: no such file or directory, unlink '" +:+ refPath
             +:+ "'")
    else Return tt
  else
    Throw ("ENOENT: no such file or directory, unlink '" +:+ refPath +:+ "'").

(** A request with a prompt and no images, for the single-image model:
    one reference image is generated. *)
Definition cubeRequest : Model3DGenerationOptionsExtended :=
  {| prompt := Present "a red cube"; inputImagePaths := Present [];
     outputPath := Present "cube.glb"; model := Present SEED3D;
     variant := Absent; format := Absent; quality := Absent;
     textured_mesh := Absent; autoGenerateReferences := Absent;
     referenceModel := Absent; referenceViews := Absent;
     cleanupReferences := Absent |}.

(** The same request with an output path that has no extension: the
    reference image is saved at the output path itself, and that path
    is also the status path the [image_to_3d_async] tool derives. *)
Definition aliasRequest : Model3DGenerationOptionsExtended :=
  {| prompt := Present "a toy robot"; inputImagePaths := Absent;
     outputPath := Present "robot"; model := Present SEED3D;
     variant := Absent; format := Absent; quality := Absent;
     textured_mesh := Absent; autoGenerateReferences := Absent;
     referenceModel := Absent; referenceViews := Absent;
     cleanupReferences := Absent |}.

(** The image backend saves what it reports. *)
Definition savingImages (n : nat) (args : GenerateImageArgs)
  : ImageReply * list string :=
  (Resolved (Some [gi_outputPath args]), [gi_outputPath args]).

Definition savingEnv : Env :=
  {| isoTime := fun _ => "2025-01-08T13:20:00.000Z";
     basename := fun path ext => path;
     generateImage := savingImages;
     backend := fun _ _ => Return emptyResult;
     backendSaves := savingModel;
     unlinkDenied := ∅;
     writable := fun _ _ => true |}.

(** The same, with a 3D backend that fails. *)
Definition failingEnv : Env :=
  {| isoTime := fun _ => "2025-01-08T13:20:00.000Z";
     basename := fun path ext => path;
     generateImage := savingImages;
     backend := fun _ _ => Throw "Seed3D API error: quota exceeded";
     backendSaves := fun _ _ => [];
     unlinkDenied := ∅;
     writable := fun _ _ => true |}.

(** The same, on a disk that refuses every write of a status file. *)
Definition readOnlyEnv : Env :=
  {| isoTime := fun _ => "2025-01-08T13:20:00.000Z";
     basename := fun path ext => path;
     generateImage := savingImages;
     backend := fun _ _ => Return emptyResult;
     backendSaves := savingModel;
     unlinkDenied := ∅;
     writable := fun _ _ => false |}.

(** [after] is [before] with further log lines, and nothing else
    changed. *)
Definition onlyLogsAdded (before after : Model3DGenerationStatus) : Prop :=
  id after = id before
  /\ status after = status before
  /\ progress after = progress before
  /\ message after = message before
  /\ startTime after = startTime before
  /\ endTime after = endTime before
  /\ result after = result before
  /\ error after = error before
  /\ exists lines added,
       logs before = Some lines /\ logs after = Some (lines ++ added).

(** The code takes the world from [w] to [w']: what happened in [w]
    has happened in [w']. *)
Definition grows (w w' : World) : Prop :=
  exists evs, trace w' = trace w ++ evs.

(** [runs statusPath m w ms m' w']: the code takes the world from [w] to
    [w']; when it starts on a status file in use that reads [m] and the
    status path is left alone on the way, it writes records that read
    [ms], in this order, and leaves a status file in use that reads
    [m']. *)
Definition runs (statusPath : string) (m : JobStatus * Z) (w : World)
    (ms : list (JobStatus * Z)) (m' : JobStatus * Z) (w' : World) : Prop :=
  grows w w'
  /\ ((exists s, inUse statusPath w s /\ mark s = Some m) ->
      leftAlone statusPath (newEvents w w') ->
      marks (newEvents w w') = (Some <$> ms)
      /\ exists s', inUse statusPath w' s' /\ mark s' = Some m').

(** The record a job ends with. *)
Definition endMark {A} (outcome : Completion A) : JobStatus * Z :=
  match outcome with
  | Return _ => (completed, 100)
  | Throw _ => (failed, 0)
  end.

(** The [try] block of the job started in [w], and the world the
    [finally] block starts in: the one the [try] block left, or the one
    the [catch] block left. *)
Definition tryOutcome (env : Env) (o : Model3DGenerationOptionsExtended)
    (statusPath : string) (w : World) : World * Locals * Completion unit :=
  tryBlock env statusPath o (initialLocals o) (started env statusPath w).

Definition beforeCleanup (env : Env) (o : Model3DGenerationOptionsExtended)
    (statusPath : string) (w : World) : World :=
  match (tryOutcome env o statusPath w).2 with
  | Return _ => (tryOutcome env o statusPath w).1.1
  | Throw e => catchBlock env statusPath e (tryOutcome env o statusPath w).1.1
  end.

(** * Further code of the same files *)

(** ** [src/providers/model3dHelpers.ts]: the synchronous generation *)

(** The [switch (model)] of [generate3DModel]: the one of the
    background task without the status updates. *)
Definition callModel (env : Env)
    (options : Model3DGenerationOptionsExtended) (actualVariant : string)
    (finalInputPaths : list string) (w : World)
  : World * Completion Model3DGenerationResult :=
  let model := read (model options) in
  let format := read_or "glb" (format options) in
  let one :=
    {| b_prompt := read (prompt options);
       b_images := imagePath (head finalInputPaths);
       b_outputPath := read (outputPath options);
       b_format := format |} in
  let many (ps : list string) :=
    {| b_prompt := read (prompt options);
       b_images := imagePaths ps;
       b_outputPath := read (outputPath options);
       b_format := format |} in
  if value_is model "trellis" then
    if String.eqb actualVariant "single"
    then callBackend env trellisGenerate3DSingle one w
    else callBackend env trellisGenerate3DMulti (many finalInputPaths) w
  else if value_is model "hunyuan3d" then
    if String.eqb actualVariant "single" then
      callBackend env hunyuan3DGenerateSingle one w
    else if String.eqb actualVariant "multi" then
      callBackend env hunyuan3DGenerateMulti (many finalInputPaths) w
    else if String.eqb actualVariant "single-turbo" then
      callBackend env hunyuan3DGenerateSingleTurbo one w
    else if String.eqb actualVariant "multi-turbo" then
      callBackend env hunyuan3DGenerateMultiTurbo (many finalInputPaths) w
    else
      (w, Throw ("Unsupported Hunyuan3D variant: " +:+ actualVariant))
  else if value_is model "hunyuan-world" then
    callBackend env hunyuanWorldGenerate3D one w
  else if value_is model "seed3d" then
    callBackend env seed3DGenerate one w
  else if value_is model "meshy" then
    if String.eqb actualVariant "single"
    then callBackend env meshyGenerateSingle one w
    else callBackend env meshyGenerateMulti (many (take 4 finalInputPaths)) w
  else
    (w, Throw ("Unsupported 3D model: " +:+ show model)).

(** "If no input images provided, generate reference images
    automatically", with the check that some image was generated. *)
Definition syncReferences (env : Env)
    (options : Model3DGenerationOptionsExtended) (locals : Locals)
    (w : World) : World * Locals * Completion unit :=
  if (length (finalInputPaths locals) =? 0)%nat
     && truthy (read (prompt options))
     && read_or true (autoGenerateReferences options)
  then
    match read (outputPath options) with
    | None =>
        (w, locals,
         Throw "Cannot read properties of undefined (reading 'replace')")
    | Some out =>
        let outputBasePath := replace_ext out EmptyString in
        let views :=
          if truthy (read (variant options))
             && includes (show (read (variant options))) "multi"
          then read_or [Front; Back; Top] (referenceViews options)
          else [Front] in
        let '(w1, refs) :=
          generateReferenceImages env (show (read (prompt options)))
            outputBasePath views
            (read_or "gemini" (referenceModel options)) w in
        let locals1 :=
          {| finalInputPaths := refs; generatedReferences := refs |} in
        if (length refs =? 0)%nat
        then (w1, locals1,
              Throw "Failed to generate reference images automatically")
        else (w1, locals1, Return tt)
    end
  else (w, locals, Return tt).

(** The [try] block of [generate3DModel]. *)
Definition syncTryBlock (env : Env)
    (options : Model3DGenerationOptionsExtended) (locals : Locals)
    (w : World) : World * Locals * Completion Model3DGenerationResult :=
  match syncReferences env options locals w with
  | (w1, locals1, Throw e) => (w1, locals1, Throw e)
  | (w1, locals1, Return _) =>
      if (length (finalInputPaths locals1) =? 0)%nat then
        (w1, locals1,
         Throw "At least one input image is required for 3D model generation")
      else
        let actualVariant :=
          if truthy (read (variant options)) then show (read (variant options))
          else selectModelVariant (show (read (model options)))
                 (Z.of_nat (length (finalInputPaths locals1))) false in
        match callModel env options actualVariant (finalInputPaths locals1) w1
        with
        | (w2, Throw e) => (w2, locals1, Throw e)
        | (w2, Return r) =>
            (w2, locals1,
             Return
               (if (0 <? length (generatedReferences locals1))%nat
                then withReferences r (generatedReferences locals1)
                       (read_or "gemini" (referenceModel options))
                       (read_or [Front; Back; Top] (referenceViews options))
                else r))
        end
  end.

(** The [for] loop of its [finally] block: a failed deletion is warned
    about and the loop goes on. *)
Fixpoint syncCleanupLoop (env : Env) (refs : list string) (w : World)
  : World :=
  match refs with
  | [] => w
  | refPath :: rest => syncCleanupLoop env rest (unlinkSync env refPath w).1
  end.

Definition syncFinallyBlock (env : Env)
    (options : Model3DGenerationOptionsExtended) (locals : Locals)
    (w : World) : World :=
  if read_or true (cleanupReferences options)
     && (0 <? length (generatedReferences locals))%nat
  then syncCleanupLoop env (generatedReferences locals) w
  else w.

(** Main 3D model generation function with automatic reference
    handling: [try { ... } finally { ... }], so what the [try] block
    returns or throws is what the function returns or throws. *)
Definition generate3DModel (env : Env)
    (options : Model3DGenerationOptionsExtended) (w : World)
  : World * Completion Model3DGenerationResult :=
  let locals0 :=
    {| finalInputPaths := read_or [] (inputImagePaths options);
       generatedReferences := [] |} in
  let '(w1, locals, outcome) := syncTryBlock env options locals0 w in
  (syncFinallyBlock env options locals w1, outcome).

(** [{ prompt, outputPath, model }]. *)
Definition smartBase (prompt outputPath model : string)
  : Model3DGenerationOptionsExtended :=
  {| prompt := Present prompt; inputImagePaths := Absent;
     outputPath := Present outputPath; model := Present model;
     variant := Absent; format := Absent; quality := Absent;
     textured_mesh := Absent; autoGenerateReferences := Absent;
     referenceModel := Absent; referenceViews := Absent;
     cleanupReferences := Absent |}.

(** Helper function to generate 3D model with smart defaults; [model]
    is [None] when the argument is left out. *)
Definition generate3DModelSmart (env : Env) (prompt outputPath : string)
    (model : option string) (options : Model3DGenerationOptionsExtended)
    (w : World) : World * Completion Model3DGenerationResult :=
  match merge3DWithDefaults
          (spread (smartBase prompt outputPath (default HUNYUAN3D model))
             options) with
  | Throw e => (w, Throw e)
  | Return fullOptions =>
      match validate3DModelOptions fullOptions with
      | Throw e => (w, Throw e)
      | Return _ => generate3DModel env fullOptions w
      end
  end.

(** ** Vocabulary of the further properties *)

(** The actions of the job itself outside the status store: its image
    requests, its backend calls and its deletions. *)
Definition external (evs : list Event) : list Event :=
  omap (fun e =>
          match e with
          | ImageRequested _ | BackendCalled _ _ | UnlinkCalled _ => Some e
          | _ => None
          end) evs.

(** The files the backend calls of [evs] save. *)
Definition backendSaved (env : Env) (evs : list Event) : list string :=
  backendCalls evs ≫= fun call => (backendSaves env call.1 call.2).*1.

(** [acts env statusPath w xs w']: the code takes the world from [w] to
    [w'] and its own actions outside the status store are [xs], in this
    order; a file is only removed by one of its deletions, a file other
    than the status file that no collaborator wrote and that was not
    deleted holds what it held, and when no image is requested the
    files the collaborators write are those the 3D backends save. *)
Definition acts (env : Env) (statusPath : string) (w : World)
    (xs : list Event) (w' : World) : Prop :=
  exists evs,
    trace w' = trace w ++ evs
    /\ external evs = xs
    /\ (forall p, p ∈ files w -> p ∉ unlinkCalls evs -> p ∈ files w')
    /\ (forall p, p <> statusPath -> p ∉ touched evs ->
          disk w' !! p = disk w !! p)
    /\ (imageCalls evs = [] -> savedFiles evs = backendSaved env evs).

(** The request asks for generated reference images: no input image,
    a prompt, and [autoGenerateReferences] not switched off. *)
Definition wantsReferences (o : Model3DGenerationOptionsExtended) : bool :=
  (length (read_or [] (inputImagePaths o)) =? 0)%nat
  && truthy (read (prompt o))
  && read_or true (autoGenerateReferences o).

(** The views the reference generator is called with. *)
Definition plannedViews (o : Model3DGenerationOptionsExtended) : list View :=
  if truthy (read (variant o)) && includes (show (read (variant o))) "multi"
  then read_or [Front; Back; Top] (referenceViews o)
  else [Front].

(** What the reference generator asks of the image backend: its
    requests do not depend on the world it is started in. *)
Definition referenceRequests (env : Env) (prompt outputBasePath : string)
    (views : list View) (model : string) : list GenerateImageArgs :=
  imageCalls
    (trace (generateReferenceImages env prompt outputBasePath views model
              freshWorld).1).

(** The image requests of a job, and the images its backend is called
    on: the generated references when the request asks for them, the
    caller's images otherwise. *)
Definition jobRequests (env : Env) (o : Model3DGenerationOptionsExtended)
  : list GenerateImageArgs :=
  if wantsReferences o then
    referenceRequests env (show (read (prompt o)))
      (replace_ext (show (read (outputPath o))) EmptyString)
      (plannedViews o) (read_or "gemini" (referenceModel o))
  else [].

Definition jobInputs (env : Env) (o : Model3DGenerationOptionsExtended)
  : list string :=
  if wantsReferences o then savedByCalls env 0 (jobRequests env o)
  else read_or [] (inputImagePaths o).

(** [variant || selectModelVariant(model, n)]. *)
Definition actualVariantOf (o : Model3DGenerationOptionsExtended) (n : nat)
  : string :=
  if truthy (read (variant o)) then show (read (variant o))
  else selectModelVariant (show (read (model o))) (Z.of_nat n) false.

(** The [case] of the model switch a backend is called from, and the
    variant the backend reports in its result. *)
Definition backendFamily (b : Backend) : string :=
  match b with
  | trellisGenerate3DSingle | trellisGenerate3DMulti => TRELLIS
  | hunyuan3DGenerateSingle | hunyuan3DGenerateMulti
  | hunyuan3DGenerateSingleTurbo | hunyuan3DGenerateMultiTurbo => HUNYUAN3D
  | hunyuanWorldGenerate3D => HUNYUAN_WORLD
  | seed3DGenerate => SEED3D
  | meshyGenerateSingle | meshyGenerateMulti => MESHY
  end.

Definition backendVariant (b : Backend) : string :=
  match b with
  | trellisGenerate3DSingle | hunyuan3DGenerateSingle
  | hunyuanWorldGenerate3D | seed3DGenerate | meshyGenerateSingle => SINGLE
  | trellisGenerate3DMulti | hunyuan3DGenerateMulti
  | meshyGenerateMulti => MULTI
  | hunyuan3DGenerateSingleTurbo => SINGLE_TURBO
  | hunyuan3DGenerateMultiTurbo => MULTI_TURBO
  end.

(** The images a backend is handed out of the effective input images:
    the first one for a single-image backend, all of them for a
    multi-image backend, the first four for Meshy. *)
Definition imagesFor (b : Backend) (inputs : list string) : ImageInput :=
  match b with
  | trellisGenerate3DSingle | hunyuan3DGenerateSingle
  | hunyuan3DGenerateSingleTurbo | hunyuanWorldGenerate3D | seed3DGenerate
  | meshyGenerateSingle => imagePath (head inputs)
  | meshyGenerateMulti => imagePaths (take 4 inputs)
  | _ => imagePaths inputs
  end.

(** The argument bag every backend call of a request is built from. *)
Definition backendArgsFor (o : Model3DGenerationOptionsExtended)
    (b : Backend) (inputs : list string) : BackendArgs :=
  {| b_prompt := read (prompt o);
     b_images := imagesFor b inputs;
     b_outputPath := read (outputPath o);
     b_format := read_or "glb" (format o) |}.

(** The total of the waits of a polling run, in milliseconds. *)
Definition totalWait (evs : list PollEvent) : Z :=
  foldr Z.add 0 (sleeps evs).

(** Two records of one status file: the later one has the identity and
    start time of the earlier one and all its log lines. *)
Definition continues (earlier later : Model3DGenerationStatus) : Prop :=
  id later = id earlier
  /\ startTime later = startTime earlier
  /\ exists lines added,
       logs earlier = Some lines /\ logs later = Some (lines ++ added).

(** The error field is the one of the earlier record. *)
Definition sameError (earlier later : Model3DGenerationStatus) : Prop :=
  error later = error earlier.

(** [evolves statusPath R w w']: the code takes the world from [w] to
    [w']; when it starts on a status file in use that holds [s] and the
    status path is left alone on the way, the records it writes are each
    [R]-related to [s], to the records written before them and to the
    record [s'] it leaves in the file, which is still in use. *)
Definition evolves (statusPath : string)
    (R : relation Model3DGenerationStatus) (w w' : World) : Prop :=
  grows w w'
  /\ forall s,
       inUse statusPath w s ->
       leftAlone statusPath (newEvents w w') ->
       exists s',
         inUse statusPath w' s'
         /\ R s s'
         /\ Forall (fun r => R s r /\ R r s') (statusWrites (newEvents w w'))
         /\ StronglySorted R (statusWrites (newEvents w w')).

(** A status file left by an earlier job that failed. *)
Definition staleRecord : Model3DGenerationStatus :=
  {| id := Some "first_job"; status := Some failed; progress := Some 0;
     message := Some "Generation failed: Seed3D API error: quota exceeded";
     startTime := Some "2024-12-24T08:00:00.000Z";
     endTime := Some "2024-12-24T08:01:00.000Z";
     result := None;
     error := Some "Seed3D API error: quota exceeded";
     logs := Some ["[2024-12-24T08:01:00.000Z] ERROR: Seed3D API error: quota exceeded"] |}.

(** That file is at [cube_status.json]. *)
Definition staleWorld : World :=
  {| disk := {["cube_status.json" := StatusJson staleRecord]};
     ticks := 0; trace := [] |}.

(** A task document that carries an error, and a service that answers
    one running task and then that document. *)
Definition refusedTask : MeshyTask :=
  {| task_error_field :=
       Some {| err_message := Some "Invalid API key"; err_json := "{}" |};
     task_status := None; task_error_message := None |}.

Definition refusedSecond (n : nat) (url : string) : Completion MeshyTask :=
  if (n <? 1)%nat then Return runningTask else Return refusedTask.

(** A caller with two photos of the object, and a disk that holds
    them. *)
Definition photoRequest : Model3DGenerationOptionsExtended :=
  {| prompt := Present "a wooden chair";
     inputImagePaths := Present ["front.png"; "side.png"];
     outputPath := Present "chair.glb"; model := Present MESHY;
     variant := Absent; format := Absent; quality := Absent;
     textured_mesh := Absent; autoGenerateReferences := Absent;
     referenceModel := Absent; referenceViews := Absent;
     cleanupReferences := Absent |}.

Definition photoWorld : World :=
  {| disk := {["front.png" := Blob; "side.png" := Blob]}; ticks := 0;
     trace := [] |}.

(** A request for a multi-view model from a prompt alone. *)
Definition robotRequest : Model3DGenerationOptionsExtended :=
  {| prompt := Present "a toy robot"; inputImagePaths := Absent;
     outputPath := Present "robot.glb"; model := Present HUNYUAN3D;
     variant := Present MULTI; format := Absent; quality := Absent;
     textured_mesh := Absent; autoGenerateReferences := Absent;
     referenceModel := Absent; referenceViews := Absent;
     cleanupReferences := Absent |}.

(** An image backend that rejects every request. *)
Definition noImagesEnv : Env :=
  {| isoTime := fun _ => "2025-01-08T13:20:00.000Z";
     basename := fun path ext => path;
     generateImage := fun _ _ => (Rejected "quota exceeded", []);
     backend := fun _ _ => Return emptyResult;
     backendSaves := savingModel;
     unlinkDenied := ∅;
     writable := fun _ _ => true |}.

(** [{}], the default of the [options] parameter. *)
Definition noOptions : Model3DGenerationOptionsExtended :=
  {| prompt := Absent; inputImagePaths := Absent; outputPath := Absent;
     model := Absent; variant := Absent; format := Absent;
     quality := Absent; textured_mesh := Absent;
     autoGenerateReferences := Absent; referenceModel := Absent;
     referenceViews := Absent; cleanupReferences := Absent |}.

(** The models whose defaults ask for the multi variant. *)
Definition multiByDefault (m : string) : bool :=
  String.eqb m TRELLIS || String.eqb m HUNYUAN3D.

(** * The image helper behind the reference generator *)

(** ** [src/providers/imageHelpers.ts] *)

Module ImageHelpers.

(** A JavaScript number: a finite value (a rational; the two zeros are
    one), NaN, or an infinity. *)
Inductive Number : Type :=
| Num (q : Q)
| NaN
| Infinity
| NegInfinity.

(** Truthiness of a number: zero and NaN are falsy. *)
Definition number_truthy (x : Number) : bool :=
  match x with
  | Num q => negb (Qeq_bool q 0)
  | NaN => false
  | _ => true
  end.

(** [x < c] and [x > c] for a finite constant [c]. *)
Definition number_lt (x : Number) (c : Q) : bool :=
  match x with
  | Num q => negb (Qle_bool c q)
  | NegInfinity => true
  | _ => false
  end.

Definition number_gt (x : Number) (c : Q) : bool :=
  match x with
  | Num q => negb (Qle_bool q c)
  | Infinity => true
  | _ => false
  end.

(** [ImageGenerationOptions] as the functions see it at run time. *)
Record ImageGenerationOptions : Type := {
  prompt : Slot string;
  outputPath : Slot string;
  provider : Slot string;
  inputImagePaths : Slot (list string);
  size : Slot string;
  quality : Slot string;
  style : Slot string;
  n : Slot Number;
  model : Slot string;
  image_size : Slot string;
  num_inference_steps : Slot Number;
  guidance_scale : Slot Number;
  transparentBackground : Slot bool;
  backgroundColor : Slot string;
  transparencyTolerance : Slot Number;
  transparencyBlur : Slot Number
}.

(** The argument bags of the provider functions of
    [src/providers/imageProviders.ts] and of [generateTransparentImage]. *)
Record OpenAIArgs : Type := {
  openai_prompt : option string;
  openai_outputPath : option string;
  openai_inputImagePath : option string;
  openai_size : option string;
  openai_quality : option string;
  openai_style : option string;
  openai_n : option Number
}.

Record GeminiArgs : Type := {
  gemini_prompt : option string;
  gemini_outputPath : option string;
  gemini_inputImagePaths : option (list string);
  gemini_model : option string
}.

Record FalaiArgs : Type := {
  falai_prompt : option string;
  falai_outputPath : option string;
  falai_image_size : option string;
  falai_num_inference_steps : option Number;
  falai_guidance_scale : option Number
}.

Record FalaiEditArgs : Type := {
  edit_prompt : option string;
  edit_inputImagePath : string;
  edit_outputPath : option string;
  edit_image_size : option string;
  edit_num_inference_steps : option Number;
  edit_guidance_scale : option Number
}.

Record TransparentOptions : Type := {
  t_backgroundColor : option string;
  t_tolerance : option Number;
  t_blur : option Number;
  t_size : option string;
  t_quality : option string;
  t_style : option string;
  t_image_size : option string;
  t_num_inference_steps : option Number;
  t_guidance_scale : option Number
}.

(** The provider functions; each resolves with a JSON text or
    rejects. *)
Record Providers : Type := {
  openaiGenerateImage : OpenAIArgs -> Completion string;
  geminiGenerateImage : GeminiArgs -> Completion string;
  falaiGenerateImage : FalaiArgs -> Completion string;
  falaiEditImage : FalaiEditArgs -> Completion string;
  generateTransparentImage :
    option string -> option string -> option string -> TransparentOptions ->
    Completion string
}.

(** What [generateImage] resolves with: the text of a provider, or the
    JSON text of the object built on the transparent path, kept here as
    the object. *)
Record TransparentResult : Type := {
  tr_provider : option string;
  tr_savedPaths : list string;
  tr_prompt_used : option string;
  tr_background_color : string;
  tr_tolerance : Number;
  tr_blur : Number
}.

Inductive ImageJson : Type :=
| ProviderText (text : string)
| TransparentImage (result : TransparentResult).

(** [x || d] on numbers. *)
Definition number_or (x : option Number) (d : Number) : Number :=
  match x with
  | Some v => if number_truthy v then v else d
  | None => d
  end.

(** Helper function to generate images with any provider. *)
Definition generateImage (P : Providers) (options : ImageGenerationOptions)
  : Completion ImageJson :=
  if default false (read (transparentBackground options)) then
    let generationBackgroundColor :=
      if value_is (read (backgroundColor options)) "auto" then Some "white"
      else read (backgroundColor options) in
    saved ← generateTransparentImage P
               (read (prompt options)) (read (outputPath options))
               (read (provider options))
               {| t_backgroundColor := generationBackgroundColor;
                  t_tolerance := read (transparencyTolerance options);
                  t_blur := read (transparencyBlur options);
                  t_size := read (size options);
                  t_quality := read (quality options);
                  t_style := read (style options);
                  t_image_size := read (image_size options);
                  t_num_inference_steps := read (num_inference_steps options);
                  t_guidance_scale := read (guidance_scale options) |};
    mret (TransparentImage
            {| tr_provider := read (provider options);
               tr_savedPaths := [saved];
               tr_prompt_used := read (prompt options);
               tr_background_color :=
                 or_else (read (backgroundColor options)) "white";
               tr_tolerance :=
                 number_or (read (transparencyTolerance options)) (Num 30);
               tr_blur :=
                 number_or (read (transparencyBlur options)) (Num 1) |})
  else if value_is (read (provider options)) "openai" then
    text ← openaiGenerateImage P
        {| openai_prompt := read (prompt options);
           openai_outputPath := read (outputPath options);
           openai_inputImagePath := read (inputImagePaths options) ≫= head;
           openai_size := read (size options);
           openai_quality := read (quality options);
           openai_style := read (style options);
           openai_n := read (n options) |};
    mret (ProviderText text)
  else if value_is (read (provider options)) "gemini" then
    text ← geminiGenerateImage P
        {| gemini_prompt := read (prompt options);
           gemini_outputPath := read (outputPath options);
           gemini_inputImagePaths := read (inputImagePaths options);
           gemini_model := read (model options) |};
    mret (ProviderText text)
  else if value_is (read (provider options)) "falai" then
    match read (inputImagePaths options) with
    | Some (first :: _) =>
        text ← falaiEditImage P
            {| edit_prompt := read (prompt options);
               edit_inputImagePath := first;
               edit_outputPath := read (outputPath options);
               edit_image_size := read (image_size options);
               edit_num_inference_steps := read (num_inference_steps options);
               edit_guidance_scale := read (guidance_scale options) |};
        mret (ProviderText text)
    | _ =>
        text ← falaiGenerateImage P
            {| falai_prompt := read (prompt options);
               falai_outputPath := read (outputPath options);
               falai_image_size := read (image_size options);
               falai_num_inference_steps := read (num_inference_steps options);
               falai_guidance_scale := read (guidance_scale options) |};
        mret (ProviderText text)
    end
  else
    Throw ("Unsupported provider: " +:+ show (read (provider options))).

(** [{ ...lower, ...upper }] on image options. *)
Definition spread (lower upper : ImageGenerationOptions)
  : ImageGenerationOptions :=
  {| prompt := over (prompt lower) (prompt upper);
     outputPath := over (outputPath lower) (outputPath upper);
     provider := over (provider lower) (provider upper);
     inputImagePaths := over (inputImagePaths lower) (inputImagePaths upper);
     size := over (size lower) (size upper);
     quality := over (quality lower) (quality upper);
     style := over (style lower) (style upper);
     n := over (n lower) (n upper);
     model := over (model lower) (model upper);
     image_size := over (image_size lower) (image_size upper);
     num_inference_steps :=
       over (num_inference_steps lower) (num_inference_steps upper);
     guidance_scale := over (guidance_scale lower) (guidance_scale upper);
     transparentBackground :=
       over (transparentBackground lower) (transparentBackground upper);
     backgroundColor := over (backgroundColor lower) (backgroundColor upper);
     transparencyTolerance :=
       over (transparencyTolerance lower) (transparencyTolerance upper);
     transparencyBlur :=
       over (transparencyBlur lower) (transparencyBlur upper) |}.

(** [v && !xs.includes(v)] on an optional string. *)
Definition not_among (xs : list string) (v : option string) : bool :=
  truthy v && negb (value_in xs v).

(** [v && (v < lo || v > hi)] on an optional number. *)
Definition out_of_range (v : option Number) (lo hi : Q) : bool :=
  match v with
  | Some x => number_truthy x && (number_lt x lo || number_gt x hi)
  | None => false
  end.

(** Helper function to validate image generation parameters. *)
Definition validateImageOptions (options : ImageGenerationOptions)
  : Completion unit :=
  when (negb (truthy (read (prompt options)))
        || blank (show (read (prompt options))))
       "Prompt is required and cannot be empty" ;;
  when (negb (truthy (read (outputPath options)))
        || blank (show (read (outputPath options))))
       "Output path is required and cannot be empty" ;;
  when (negb (value_in ["openai"; "gemini"; "falai"]
                (read (provider options))))
       "Provider must be one of: openai, gemini, falai" ;;
  if value_is (read (provider options)) "openai" then
    when (not_among ["1024x1024"; "1792x1024"; "1024x1792"]
            (read (size options)))
         "OpenAI size must be one of: 1024x1024, 1792x1024, 1024x1792" ;;
    when (not_among ["standard"; "hd"] (read (quality options)))
         "OpenAI quality must be one of: standard, hd" ;;
    when (not_among ["vivid"; "natural"] (read (style options)))
         "OpenAI style must be one of: vivid, natural" ;;
    when (out_of_range (read (n options)) 1 10)
         "OpenAI n must be between 1 and 10"
  else if value_is (read (provider options)) "falai" then
    when (not_among ["square_hd"; "square"; "portrait_4_3"; "portrait_16_9";
                     "landscape_4_3"; "landscape_16_9"]
            (read (image_size options)))
         "FAL.ai image_size must be one of: square_hd, square, portrait_4_3, portrait_16_9, landscape_4_3, landscape_16_9" ;;
    when (out_of_range (read (num_inference_steps options)) 1 50)
         "FAL.ai num_inference_steps must be between 1 and 50" ;;
    when (out_of_range (read (guidance_scale options)) 1 20)
         "FAL.ai guidance_scale must be between 1 and 20"
  else Return tt.

Definition noImageOptions : ImageGenerationOptions :=
  {| prompt := Absent; outputPath := Absent; provider := Absent;
     inputImagePaths := Absent; size := Absent; quality := Absent;
     style := Absent; n := Absent; model := Absent; image_size := Absent;
     num_inference_steps := Absent; guidance_scale := Absent;
     transparentBackground := Absent; backgroundColor := Absent;
     transparencyTolerance := Absent; transparencyBlur := Absent |}.

(** Helper function to get default options for each provider. *)
Definition getDefaultOptions (provider : option string)
  : Completion ImageGenerationOptions :=
  if value_is provider "openai" then
    Return {| prompt := Absent; outputPath := Absent; provider := Absent;
              inputImagePaths := Absent;
              size := Present "1024x1024";
              quality := Present "standard";
              style := Present "vivid";
              n := Present (Num 1);
              model := Absent; image_size := Absent;
              num_inference_steps := Absent; guidance_scale := Absent;
              transparentBackground := Absent; backgroundColor := Absent;
              transparencyTolerance := Absent; transparencyBlur := Absent |}
  else if value_is provider "gemini" then
    Return {| prompt := Absent; outputPath := Absent; provider := Absent;
              inputImagePaths := Absent; size := Absent; quality := Absent;
              style := Absent; n := Absent;
              model := Present "gemini-2.5-flash-image";
              image_size := Absent;
              num_inference_steps := Absent; guidance_scale := Absent;
              transparentBackground := Absent; backgroundColor := Absent;
              transparencyTolerance := Absent; transparencyBlur := Absent |}
  else if value_is provider "falai" then
    Return {| prompt := Absent; outputPath := Absent; provider := Absent;
              inputImagePaths := Absent; size := Absent; quality := Absent;
              style := Absent; n := Absent; model := Absent;
              image_size := Present "square_hd";
              num_inference_steps := Present (Num 20);
              guidance_scale := Present (Num (15 # 2));
              transparentBackground := Absent; backgroundColor := Absent;
              transparencyTolerance := Absent; transparencyBlur := Absent |}
  else
    Throw ("No default options available for provider: " +:+ show provider).

(** Helper function to merge user options with defaults. *)
Definition mergeWithDefaults (options : ImageGenerationOptions)
  : Completion ImageGenerationOptions :=
  defaults ← getDefaultOptions (read (provider options));
  mret (spread defaults options).

End ImageHelpers.

(** The object literal the reference generator hands to
    [generateImage]: the [size] and [image_size] keys are always there,
    [inputImagePaths] from the second request on. *)
Definition asOptions (args : GenerateImageArgs)
  : ImageHelpers.ImageGenerationOptions :=
  {| ImageHelpers.prompt := Present (gi_prompt args);
     ImageHelpers.outputPath := Present (gi_outputPath args);
     ImageHelpers.provider := Present (gi_provider args);
     ImageHelpers.inputImagePaths :=
       match gi_inputImagePaths args with
       | Some paths => Present paths
       | None => Absent
       end;
     ImageHelpers.size :=
       match gi_size args with Some s => Present s | None => Undefined end;
     ImageHelpers.quality := Absent;
     ImageHelpers.style := Absent;
     ImageHelpers.n := Absent;
     ImageHelpers.model := Absent;
     ImageHelpers.image_size :=
       match gi_image_size args with
       | Some s => Present s
       | None => Undefined
       end;
     ImageHelpers.num_inference_steps := Absent;
     ImageHelpers.guidance_scale := Absent;
     ImageHelpers.transparentBackground := Absent;
     ImageHelpers.backgroundColor := Absent;
     ImageHelpers.transparencyTolerance := Absent;
     ImageHelpers.transparencyBlur := Absent |}.

(** Providers that answer with the input image they were handed. *)
Definition echoProviders : ImageHelpers.Providers :=
  {| ImageHelpers.openaiGenerateImage :=
       fun a => Return (show (ImageHelpers.openai_inputImagePath a));
     ImageHelpers.geminiGenerateImage :=
       fun a =>
         Return (String.concat ","
                   (default [] (ImageHelpers.gemini_inputImagePaths a)));
     ImageHelpers.falaiGenerateImage := fun a => Return "no input image";
     ImageHelpers.falaiEditImage :=
       fun a => Return (ImageHelpers.edit_inputImagePath a);
     ImageHelpers.generateTransparentImage :=
       fun _ outputPath _ _ => Return (show outputPath) |}.

(** ** Vocabulary of the image options *)

(** A string option is left out, empty, or one of [xs]. *)
Definition oneOf (xs : list string) (v : Slot string) : Prop :=
  forall s, v = Present s -> s = EmptyString \/ s ∈ xs.

(** A number option is left out, zero, NaN, or within [lo, hi]. *)
Definition within (lo hi : Q) (v : Slot ImageHelpers.Number) : Prop :=
  forall x, v = Present x ->
    x = ImageHelpers.NaN
    \/ exists q, x = ImageHelpers.Num q
                 /\ (q == 0 \/ (lo <= q /\ q <= hi))%Q.

Definition imageOptionsValid (o : ImageHelpers.ImageGenerationOptions)
  : Prop :=
  (exists p, ImageHelpers.prompt o = Present p /\ blank p = false)
  /\ (exists out, ImageHelpers.outputPath o = Present out
                  /\ blank out = false)
  /\ ((ImageHelpers.provider o = Present "openai"
       /\ oneOf ["1024x1024"; "1792x1024"; "1024x1792"] (ImageHelpers.size o)
       /\ oneOf ["standard"; "hd"] (ImageHelpers.quality o)
       /\ oneOf ["vivid"; "natural"] (ImageHelpers.style o)
       /\ within 1 10 (ImageHelpers.n o))
      \/ ImageHelpers.provider o = Present "gemini"
      \/ (ImageHelpers.provider o = Present "falai"
          /\ oneOf ["square_hd"; "square"; "portrait_4_3"; "portrait_16_9";
                    "landscape_4_3"; "landscape_16_9"]
               (ImageHelpers.image_size o)
          /\ within 1 50 (ImageHelpers.num_inference_steps o)
          /\ within 1 20 (ImageHelpers.guidance_scale o))).

(** [merged] is the caller's key when the caller has the key, and the
    default otherwise. *)
Definition filled {A} (default user merged : Slot A) : Prop :=
  (user <> Absent -> merged = user) /\ (user = Absent -> merged = default).

(** The default of a key for which only the provider [name] has one. *)
Definition onlyFor {A} (name provider : string) (v : A) : Slot A :=
  if String.eqb provider name then Present v else Absent.

(** [{ prompt: 'a red cube', outputPath: 'cube.png', provider: 'openai',
       n: 0 }]. *)
Definition zeroImagesRequest : ImageHelpers.ImageGenerationOptions :=
  {| ImageHelpers.prompt := Present "a red cube";
     ImageHelpers.outputPath := Present "cube.png";
     ImageHelpers.provider := Present "openai";
     ImageHelpers.inputImagePaths := Absent;
     ImageHelpers.size := Absent;
     ImageHelpers.quality := Absent;
     ImageHelpers.style := Absent;
     ImageHelpers.n := Present (ImageHelpers.Num 0);
     ImageHelpers.model := Absent;
     ImageHelpers.image_size := Absent;
     ImageHelpers.num_inference_steps := Absent;
     ImageHelpers.guidance_scale := Absent;
     ImageHelpers.transparentBackground := Absent;
     ImageHelpers.backgroundColor := Absent;
     ImageHelpers.transparencyTolerance := Absent;
     ImageHelpers.transparencyBlur := Absent |}.

(** * The helpers and backends of [src/utils/model3dUtils.ts] *)

(** ** Base64 image URIs *)

(** [s.startsWith(p)], with what follows the prefix. *)
Fixpoint strip_prefix (p s : string) : option string :=
  match p, s with
  | EmptyString, _ => Some s
  | String a p', String b s' =>
      if Ascii.eqb a b then strip_prefix p' s' else None
  | String _ _, EmptyString => None
  end.

(** The character class [[A-Za-z0-9+/]]. *)
Definition isBase64Char (c : ascii) : bool :=
  let n := nat_of_ascii c in
  ((65 <=? n) && (n <=? 90))%nat
  || ((97 <=? n) && (n <=? 122))%nat
  || ((48 <=? n) && (n <=? 57))%nat
  || (n =? 43)%nat
  || (n =? 47)%nat.

(** [[A-Za-z0-9+/]+={0,2}$]; [some] tells that a character of the class
    has been read. *)
Fixpoint base64Payload (s : string) (some : bool) : bool :=
  match s with
  | EmptyString => some
  | String c rest =>
      if isBase64Char c then base64Payload rest true
      else some && (String.eqb s "=" || String.eqb s "==")
  end.

(** Validate base64 image URI format: the test of
    [^data:image\/(png|jpg|jpeg|webp);base64,([A-Za-z0-9+/]+={0,2})$]. *)
Definition validateBase64ImageURI (uri : string) : bool :=
  match strip_prefix "data:image/" uri with
  | None => false
  | Some rest =>
      existsb
        (fun mime =>
           match strip_prefix (mime +:+ ";base64,") rest with
           | Some payload => base64Payload payload false
           | None => false
           end)
        ["png"; "jpg"; "jpeg"; "webp"]
  end.

(** Convert file paths to base64 URIs; [encode] is
    [encodeImageToBase64]. *)
Fixpoint convertPathsToBase64URIs (encode : string -> Completion string)
    (paths : list string) : Completion (list string) :=
  match paths with
  | [] => Return []
  | path :: rest =>
      match encode path with
      | Throw e =>
          Throw ("Failed to convert image " +:+ path
                 +:+ " to base64 URI: " +:+ e)
      | Return base64Data =>
          uris ← convertPathsToBase64URIs encode rest;
          mret (("data:image/png;base64," +:+ base64Data) :: uris)
      end
  end.

(** Every character of the text is of the class. *)
Fixpoint allBase64 (s : string) : bool :=
  match s with
  | EmptyString => true
  | String c rest => isBase64Char c && allBase64 rest
  end.

(** A text the pattern takes as payload: characters of the class, at
    least one, and then at most two [=]. *)
Definition isPayload (s : string) : Prop :=
  exists body pad,
    s = body +:+ pad
    /\ body <> EmptyString
    /\ allBase64 body = true
    /\ pad ∈ [EmptyString; "="; "=="].

(** An encoder for a disk on which [missing.png] does not exist. *)
Definition sampleEncode (path : string) : Completion string :=
  if String.eqb path "missing.png"
  then Throw "ENOENT: no such file or directory, open 'missing.png'"
  else Return "QUJD".

(** ** The multi-view backend of Hunyuan3D *)

Module Model3DUtils.

(** The double quote. *)
Definition dq : string := String (ascii_of_nat 34) EmptyString.

(** The body of the POST to the multi-view endpoint. *)
Record MultiViewBody : Type := {
  front_image_url : option string;
  back_image_url : option string;
  left_image_url : option string;
  body_format : string
}.

(** The fields of the answer the backend looks at: a truthy [error], the
    JSON text of a truthy [detail], [model_url], and the text of
    [timings]. *)
Record FalResponse : Type := {
  fal_error : option MeshyApiError;
  fal_detail : option string;
  fal_model_url : option string;
  fal_timings : string
}.

(** What the backend needs from outside: the API key, the image
    encoder of [imageUtils], the POST of [makeHTTPRequest] (endpoint,
    authorization header, body), the download ([mkdirSync] and [curl])
    and the [statSync] of the saved model.  [render] is the text of the
    three fields of the result that the orchestrators never read
    ([generation_time], [model_info], [parameters]). *)
Record Services : Type := {
  getFalAIKey : Completion string;
  encodeImageToBase64 : string -> Completion string;
  makeHTTPRequest : string -> string -> MultiViewBody -> Completion FalResponse;
  download : string -> string -> Completion unit;
  modelInfo : string -> Completion string;
  render : string -> string -> MultiViewBody -> string
}.

(** The callback mapped over [args.imagePaths]. *)
Definition toImageUri (svc : Services) (path : string) : Completion string :=
  if String.prefix "data:" path then Return path
  else
    base64Data ← encodeImageToBase64 svc path;
    mret ("data:image/png;base64," +:+ base64Data).

(** [await Promise.all(paths.map(...))]: every path is converted; the
    first failure, in the order of the paths, is the one thrown. *)
Fixpoint allImageUris (svc : Services) (paths : list string)
  : Completion (list string) :=
  match paths with
  | [] => Return []
  | path :: rest =>
      match toImageUri svc path, allImageUris svc rest with
      | Throw e, _ => Throw e
      | Return _, Throw e => Throw e
      | Return uri, Return uris => Return (uri :: uris)
      end
  end.

(** Download and save 3D model files. *)
Definition downloadAndSave3DModel (svc : Services)
    (modelUrl outputPath : string) : Completion string :=
  match download svc modelUrl outputPath with
  | Return _ => Return outputPath
  | Throw e =>
      Throw ("Failed to download and save 3D model to " +:+ outputPath
             +:+ ": " +:+ e)
  end.

(** Get 3D model file information. *)
Definition getModel3DInfo (svc : Services) (modelPath : string)
  : Completion string :=
  match modelInfo svc modelPath with
  | Return info => Return info
  | Throw e =>
      Throw ("Failed to get 3D model info for " +:+ modelPath +:+ ": " +:+ e)
  end.

(** [response.error?.message || JSON.stringify(response.detail ||
    response.error)]. *)
Definition errorText (response : FalResponse) : string :=
  let fallback :=
    match fal_detail response, fal_error response with
    | Some detail, _ => detail
    | None, Some err => err_json err
    | None, None => "undefined"
    end in
  match fal_error response with
  | Some err => or_else (err_message err) fallback
  | None => fallback
  end.

(** Hunyuan3D Multi Image Input, called the way the orchestrators call
    it: with [prompt], [imagePaths], [outputPath] and [format]. *)
Definition hunyuan3DGenerateMulti (svc : Services) (args : BackendArgs)
  : Completion Model3DGenerationResult :=
  apiKey ← getFalAIKey svc;
  match b_images args with
  | imagePath _ =>
      Throw "Cannot read properties of undefined (reading 'length')"
  | imagePaths paths =>
      if (length paths <? 3)%nat then
        Throw ("Hunyuan3D Multi requires at least 3 images "
               +:+ "(front, back, left views). Only "
               +:+ pretty (length paths) +:+ " images provided.")
      else
        imageUris ← allImageUris svc paths;
        let body :=
          {| front_image_url := imageUris !! 0%nat;
             back_image_url := imageUris !! 1%nat;
             left_image_url := imageUris !! 2%nat;
             body_format := or_else (Some (b_format args)) "glb" |} in
        response ← makeHTTPRequest svc
                     "https://fal.run/fal-ai/hunyuan3d/v2/multi-view"
                     ("Key " +:+ apiKey) body;
        if bool_decide (is_Some (fal_error response))
           || bool_decide (is_Some (fal_detail response))
        then Throw ("Hunyuan3D Multi API error: " +:+ errorText response)
        else if truthy (fal_model_url response) then
          outputPath ←
            match b_outputPath args with
            | Some outputPath => Return outputPath
            | None =>
                Throw ("Failed to download and save 3D model to undefined: "
                       +:+ "The " +:+ dq +:+ "path" +:+ dq
                       +:+ " argument must be of type string. "
                       +:+ "Received undefined")
            end;
          modelPath ← downloadAndSave3DModel svc
                        (show (fal_model_url response)) outputPath;
          info ← getModel3DInfo svc outputPath;
          mret {| res_provider := "FAL.ai";
                  res_model := "hunyuan3d-2.0";
                  res_variant := "multi";
                  res_savedPaths := [modelPath];
                  res_prompt_used := b_prompt args;
                  res_input_images := paths;
                  res_details := render svc (fal_timings response) info body;
                  auto_generated_references := None;
                  reference_model_used := None;
                  reference_views_generated := None |}
        else Throw "No model URL in Hunyuan3D Multi response"
  end.

(** ** The multi-image backend of Meshy *)

(** The body of the POST that creates the task; the optional keys are
    never set by the orchestrators. *)
Record MeshyBody : Type := {
  image_urls : list string;
  enable_pbr : bool
}.

(** The answer to that POST: a truthy [error], and [result]. *)
Record MeshyCreateResponse : Type := {
  create_error : option MeshyApiError;
  create_result : option string
}.

(** A task document: what the polling loop reads of it, the model URLs
    by format, and the text of its two dates. *)
Record MeshyDocument : Type := {
  doc_task : MeshyTask;
  doc_model_urls : option (gmap string string);
  doc_dates : string
}.

(** What the backend needs from outside; [meshyGet n url] is the
    answer to the [n]-th GET of the polling loop. *)
Record MeshyServices : Type := {
  getMeshyKey : Completion string;
  meshyEncode : string -> Completion string;
  meshyPost : string -> string -> MeshyBody -> Completion MeshyCreateResponse;
  meshyGet : nat -> string -> Completion MeshyDocument;
  meshyDownload : string -> string -> Completion unit;
  meshyModelInfo : string -> Completion string;
  meshyRender : string -> string -> MeshyBody -> string
}.

Definition toMeshyUri (svc : MeshyServices) (imgPath : string)
  : Completion string :=
  if String.prefix "data:" imgPath || String.prefix "http" imgPath
  then Return imgPath
  else
    base64Data ← meshyEncode svc imgPath;
    mret ("data:image/png;base64," +:+ base64Data).

Fixpoint allMeshyUris (svc : MeshyServices) (paths : list string)
  : Completion (list string) :=
  match paths with
  | [] => Return []
  | path :: rest =>
      match toMeshyUri svc path, allMeshyUris svc rest with
      | Throw e, _ => Throw e
      | Return _, Throw e => Throw e
      | Return uri, Return uris => Return (uri :: uris)
      end
  end.

(** What the polling loop sees of the [n]-th answer. *)
Definition taskOf (svc : MeshyServices) (n : nat) (url : string)
  : Completion MeshyTask :=
  match meshyGet svc n url with
  | Return document => Return (doc_task document)
  | Throw e => Throw e
  end.

(** [result.model_urls?.[format] || result.model_urls?.glb]. *)
Definition modelUrlOf (document : MeshyDocument) (format : string)
  : option string :=
  let urls := default ∅ (doc_model_urls document) in
  if truthy (urls !! format) then urls !! format else urls !! "glb".

(** Meshy Multi-Image-to-3D (1-4 images), called the way the
    orchestrators call it.  The events are those of the polling loop;
    the document the loop returns is the last one it fetched. *)
Definition meshyGenerateMulti (svc : MeshyServices) (args : BackendArgs)
  : list PollEvent * Completion Model3DGenerationResult :=
  match getMeshyKey svc with
  | Throw e => ([], Throw e)
  | Return apiKey =>
  match b_images args with
  | imagePath _ =>
      ([], Throw "Cannot read properties of undefined (reading 'length')")
  | imagePaths paths =>
      if (length paths <? 1)%nat || (4 <? length paths)%nat then
        ([], Throw "Meshy Multi-Image requires 1-4 images")
      else
      match allMeshyUris svc paths with
      | Throw e => ([], Throw e)
      | Return imageUris =>
      let body := {| image_urls := imageUris; enable_pbr := true |} in
      match meshyPost svc
              "https://api.meshy.ai/openapi/v1/image-to-3d/multi-view"
              ("Bearer " +:+ apiKey) body with
      | Throw e => ([], Throw e)
      | Return createResponse =>
      match create_error createResponse with
      | Some err =>
          ([], Throw ("Meshy Multi API error: "
                      +:+ or_else (err_message err) (err_json err)))
      | None =>
      if negb (truthy (create_result createResponse)) then
        ([], Throw "No task ID returned from Meshy Multi API")
      else
      let taskId := show (create_result createResponse) in
      let '(events, polled) :=
        pollMeshyTaskStatus (taskOf svc) taskId apiKey
          "image-to-3d/multi-view" defaultMaxAttempts defaultPollInterval in
      (events,
       _ ← polled;
       result ← meshyGet svc (length (requests events) - 1)
                  ("https://api.meshy.ai/openapi/v1/"
                   +:+ "image-to-3d/multi-view" +:+ "/" +:+ taskId);
       let format := or_else (Some (b_format args)) "glb" in
       if truthy (modelUrlOf result format) then
         outputPath ←
           match b_outputPath args with
           | Some outputPath => Return outputPath
           | None =>
               Throw ("Failed to download and save 3D model to undefined: "
                      +:+ "The " +:+ dq +:+ "path" +:+ dq
                      +:+ " argument must be of type string. "
                      +:+ "Received undefined")
           end;
         modelPath ←
           match meshyDownload svc (show (modelUrlOf result format))
                   outputPath with
           | Return _ => Return outputPath
           | Throw e =>
               Throw ("Failed to download and save 3D model to "
                      +:+ outputPath +:+ ": " +:+ e)
           end;
         info ←
           match meshyModelInfo svc outputPath with
           | Return info => Return info
           | Throw e =>
               Throw ("Failed to get 3D model info for " +:+ outputPath
                      +:+ ": " +:+ e)
           end;
         mret {| res_provider := "Meshy";
                 res_model := "meshy-5";
                 res_variant := "multi";
                 res_savedPaths := [modelPath];
                 res_prompt_used := b_prompt args;
                 res_input_images := paths;
                 res_details := meshyRender svc (doc_dates result) info body;
                 auto_generated_references := None;
                 reference_model_used := None;
                 reference_views_generated := None |}
       else Throw "No model URL in Meshy Multi response")
      end end end end end.

End Model3DUtils.

(** Services with a key, an encoder that answers [QUJD], and an
    endpoint that answers with a model URL. *)
Definition sampleServices : Model3DUtils.Services :=
  {| Model3DUtils.getFalAIKey := Return "fal-key";
     Model3DUtils.encodeImageToBase64 := sampleEncode;
     Model3DUtils.makeHTTPRequest :=
       fun _ _ _ =>
         Return {| Model3DUtils.fal_error := None;
                   Model3DUtils.fal_detail := None;
                   Model3DUtils.fal_model_url :=
                     Some "https://fal.media/model.glb";
                   Model3DUtils.fal_timings := "{}" |};
     Model3DUtils.download := fun _ _ => Return tt;
     Model3DUtils.modelInfo := fun _ => Return "{}";
     Model3DUtils.render := fun _ _ _ => "{}" |}.

(** The collaborators of a job whose multi-view backend is the one
    above. *)
Definition hunyuanEnv : Env :=
  {| isoTime := fun _ => "2025-01-08T13:20:00.000Z";
     basename := fun path ext => path;
     generateImage := savingImages;
     backend :=
       fun b args =>
         match b with
         | hunyuan3DGenerateMulti =>
             Model3DUtils.hunyuan3DGenerateMulti sampleServices args
         | _ => Return emptyResult
         end;
     backendSaves := fun _ _ => [];
     unlinkDenied := ∅;
     writable := fun _ _ => true |}.

(** Two photos for Hunyuan3D, no variant asked for. *)
Definition twoPhotosRequest : Model3DGenerationOptionsExtended :=
  {| prompt := Absent;
     inputImagePaths := Present ["front.png"; "side.png"];
     outputPath := Present "chair.glb"; model := Present HUNYUAN3D;
     variant := Absent; format := Absent; quality := Absent;
     textured_mesh := Absent; autoGenerateReferences := Absent;
     referenceModel := Absent; referenceViews := Absent;
     cleanupReferences := Absent |}.

(** A Meshy service whose task needs two polls, and then has a glb
    model only. *)
Definition sampleMeshy : Model3DUtils.MeshyServices :=
  {| Model3DUtils.getMeshyKey := Return "meshy-key";
     Model3DUtils.meshyEncode := sampleEncode;
     Model3DUtils.meshyPost :=
       fun _ _ _ =>
         Return {| Model3DUtils.create_error := None;
                   Model3DUtils.create_result := Some "task-7" |};
     Model3DUtils.meshyGet :=
       fun n _ =>
         Return {| Model3DUtils.doc_task :=
                     if (n <? 2)%nat then runningTask else succeededTask;
                   Model3DUtils.doc_model_urls :=
                     Some {["glb" := "https://assets.meshy.ai/model.glb"]};
                   Model3DUtils.doc_dates := "{}" |};
     Model3DUtils.meshyDownload := fun _ _ => Return tt;
     Model3DUtils.meshyModelInfo := fun _ => Return "{}";
     Model3DUtils.meshyRender := fun _ _ _ => "{}" |}.

(** * The tool that starts a job *)

(** ** [src/tools/hypescapeTools.ts]: the [image_to_3d_async] tool *)

Module HypescapeTools.

(** The arguments of the tool, at the types of its input schema. *)
Record ToolArguments : Type := {
  arg_prompt : option string;
  arg_outputPath : option string;
  arg_inputImagePaths : option (list string);
  arg_model : option string;
  arg_variant : option string;
  arg_format : option string;
  arg_textured_mesh : option bool;
  arg_autoGenerateReferences : option bool;
  arg_referenceModel : option string;
  arg_referenceViews : option (list View);
  arg_cleanupReferences : option bool;
  arg_statusFile : option string
}.

(** The answer to a tool call: its text, and [isError]. *)
Record CallToolResult : Type := {
  text : string;
  isError : bool
}.

(** A key of an object literal whose value may be [undefined]. *)
Definition key {A} (v : option A) : Slot A :=
  match v with
  | Some a => Present a
  | None => Undefined
  end.

(** The options object handed to [generate3DModelAsync]. *)
Definition requestOptions (args : ToolArguments)
  : Model3DGenerationOptionsExtended :=
  {| prompt := Present (or_else (arg_prompt args) EmptyString);
     inputImagePaths := Present (default [] (arg_inputImagePaths args));
     outputPath := key (arg_outputPath args);
     model := Present (or_else (arg_model args) "hunyuan3d");
     variant := key (arg_variant args);
     format := key (arg_format args);
     quality := Absent;
     textured_mesh := key (arg_textured_mesh args);
     autoGenerateReferences := key (arg_autoGenerateReferences args);
     referenceModel := key (arg_referenceModel args);
     referenceViews := key (arg_referenceViews args);
     cleanupReferences := key (arg_cleanupReferences args) |}.

Definition dq : string := String (ascii_of_nat 34) EmptyString.
Definition nl : string := String (ascii_of_nat 10) EmptyString.

(** The text of the answer once the job is started. *)
Definition startedText (statusPath : string) : string :=
  "3D model generation started in background. Status file: " +:+ statusPath
  +:+ nl +:+ nl +:+ "STATUS FILE FORMAT:" +:+ nl
  +:+ "The status file is a JSON file that updates in real-time with:" +:+ nl
  +:+ "{" +:+ nl +:+ "  " +:+ dq +:+ "id" +:+ dq +:+ ": " +:+ dq
  +:+ "task_id" +:+ dq +:+ "," +:+ nl +:+ "  " +:+ dq +:+ "status" +:+ dq
  +:+ ": " +:+ dq +:+ "pending" +:+ dq +:+ " | " +:+ dq +:+ "processing"
  +:+ dq +:+ " | " +:+ dq +:+ "completed" +:+ dq +:+ " | " +:+ dq
  +:+ "failed" +:+ dq +:+ "," +:+ nl +:+ "  " +:+ dq +:+ "progress" +:+ dq
  +:+ ": 0-100," +:+ nl +:+ "  " +:+ dq +:+ "message" +:+ dq +:+ ": " +:+ dq
  +:+ "Current status description" +:+ dq +:+ "," +:+ nl +:+ "  " +:+ dq
  +:+ "startTime" +:+ dq +:+ ": " +:+ dq +:+ "2025-01-08T13:20:00.000Z"
  +:+ dq +:+ "," +:+ nl +:+ "  " +:+ dq +:+ "endTime" +:+ dq +:+ ": " +:+ dq
  +:+ "2025-01-08T13:25:30.000Z" +:+ dq +:+ "," +:+ nl +:+ "  " +:+ dq
  +:+ "result" +:+ dq
  +:+ ": { /* Model3DGenerationResult when completed */ }," +:+ nl +:+ "  "
  +:+ dq +:+ "error" +:+ dq +:+ ": " +:+ dq +:+ "Error message (if failed)"
  +:+ dq +:+ "," +:+ nl +:+ "  " +:+ dq +:+ "logs" +:+ dq +:+ ": [" +:+ nl
  +:+ "    " +:+ dq
  +:+ "[2025-01-08T13:20:00.000Z] Starting 3D generation..." +:+ dq +:+ ","
  +:+ nl +:+ "    " +:+ dq
  +:+ "[2025-01-08T13:20:05.000Z] Generated 3 reference images" +:+ dq
  +:+ "," +:+ nl +:+ "    " +:+ dq +:+ "..." +:+ dq +:+ nl +:+ "  ]" +:+ nl
  +:+ "}" +:+ nl +:+ nl +:+ "MONITORING USAGE:" +:+ nl
  +:+ "1. Read the status file periodically: JSON.parse(readFileSync('"
  +:+ statusPath +:+ "'))" +:+ nl
  +:+ "2. Check status field for completion state" +:+ nl
  +:+ "3. When status === " +:+ dq +:+ "completed" +:+ dq
  +:+ ": use result.savedPaths for generated model files" +:+ nl
  +:+ "4. When status === " +:+ dq +:+ "failed" +:+ dq
  +:+ ": check error field for failure details" +:+ nl
  +:+ "5. Use logs array for detailed progress information" +:+ nl +:+ nl
  +:+ "PROGRESS STAGES:" +:+ nl
  +:+ "- 5%: Validating options and preparing inputs" +:+ nl
  +:+ "- 10%: Checking input images" +:+ nl
  +:+ "- 20%: Generating reference images (if needed)" +:+ nl
  +:+ "- 30%: Preparing 3D generation request" +:+ nl
  +:+ "- 40%: Calling API (Trellis/Hunyuan3D)" +:+ nl
  +:+ "- 50%: Processing with model" +:+ nl +:+ "- 90%: Finalizing result"
  +:+ nl +:+ "- 100%: Completed".

(** [case 'image_to_3d_async'] of the tool switch. *)
Definition image_to_3d_async (env : Env) (args : option ToolArguments)
    (w : World) : World * Completion string :=
  match args with
  | None => (w, Throw "Arguments are required for image_to_3d_async")
  | Some args =>
      if negb (truthy (arg_outputPath args)) then
        (w, Throw "outputPath is required for image_to_3d_async")
      else
        let statusFile :=
          or_else (arg_statusFile args)
            (replace_ext (show (arg_outputPath args)) "_status.json") in
        let '(w1, statusPath) :=
          generate3DModelAsync env (requestOptions args) statusFile w in
        (w1, Return (startedText statusPath))
  end.

(** The [try]/[catch] of the request handler around that case. *)
Definition callTool (env : Env) (args : option ToolArguments) (w : World)
  : World * CallToolResult :=
  match image_to_3d_async env args w with
  | (w1, Return reply) => (w1, {| text := reply; isError := false |})
  | (w1, Throw e) => (w1, {| text := "Error: " +:+ e; isError := true |})
  end.

End HypescapeTools.

(** A call that names an output path without extension and an unknown
    model. *)
Definition carelessCall : HypescapeTools.ToolArguments :=
  {| HypescapeTools.arg_prompt := Some "a toy robot";
     HypescapeTools.arg_outputPath := Some "robot";
     HypescapeTools.arg_inputImagePaths := None;
     HypescapeTools.arg_model := Some "dalle";
     HypescapeTools.arg_variant := None;
     HypescapeTools.arg_format := None;
     HypescapeTools.arg_textured_mesh := None;
     HypescapeTools.arg_autoGenerateReferences := None;
     HypescapeTools.arg_referenceModel := None;
     HypescapeTools.arg_referenceViews := None;
     HypescapeTools.arg_cleanupReferences := None;
     HypescapeTools.arg_statusFile := None |}.
(** * Properties *)

(** ** Variant selection and validation *)

Lemma available_inv m vs :
  AVAILABLE_VARIANTS !! m = Some vs ->
  (m = TRELLIS /\ vs = [SINGLE; MULTI])
  \/ (m = HUNYUAN3D /\ vs = [SINGLE; MULTI; SINGLE_TURBO; MULTI_TURBO])
  \/ (m = HUNYUAN_WORLD /\ vs = [SINGLE])
  \/ (m = SEED3D /\ vs = [SINGLE])
  \/ (m = MESHY /\ vs = [SINGLE; MULTI]).
Proof.
  unfold AVAILABLE_VARIANTS. intros H.
  repeat (apply lookup_insert_Some in H as [[<- <-]|[? H]]; [tauto|]).
  by rewrite lookup_empty in H.
Qed.

Ltac in_list :=
  solve [ repeat first [ apply list_elem_of_here | apply list_elem_of_further ] ].

Ltac not_in_list H :=
  repeat (apply elem_of_cons in H as [H | H]; [ discriminate H | ]);
  by apply elem_of_nil in H.

(** C5. Whatever the model of the compatibility table, the number of
    input images and the turbo preference, [selectModelVariant] answers
    with a variant the table permits for that model. *)
Theorem selectModelVariant_permitted m vs n preferTurbo :
  AVAILABLE_VARIANTS !! m = Some vs ->
  selectModelVariant m n preferTurbo ∈ vs.
Proof.
  intros H. apply available_inv in H.
  destruct H as [[-> ->]|[[-> ->]|[[-> ->]|[[-> ->]|[-> ->]]]]];
    unfold selectModelVariant; simpl;
    destruct preferTurbo; destruct (n <=? 1); simpl; in_list.
Qed.

Lemma selectModelVariant_permitted_witness :
  selectModelVariant HUNYUAN3D 3 true
  ∈ [SINGLE; MULTI; SINGLE_TURBO; MULTI_TURBO].
Proof.
  apply (selectModelVariant_permitted HUNYUAN3D _ 3 true).
  vm_compute. reflexivity.
Defined.

(** The lenient helper stays inside the table as well: for a model of
    the table it answers with a permitted variant, the default one when
    the requested variant is missing or not permitted. *)
Lemma validateAndGetVariant_permitted m vs requested :
  AVAILABLE_VARIANTS !! m = Some vs ->
  exists v, validateAndGetVariant m requested = Return (Some v) /\ v ∈ vs.
Proof.
  intros Hm. unfold validateAndGetVariant. rewrite Hm.
  assert (Hdefault : exists v, DEFAULT_VARIANTS !! m = Some v /\ v ∈ vs).
  { apply available_inv in Hm.
    destruct Hm as [[-> ->]|[[-> ->]|[[-> ->]|[[-> ->]|[-> ->]]]]];
      eexists; (split; [ vm_compute; reflexivity | in_list ]). }
  destruct Hdefault as (d & -> & Hd).
  destruct (truthy requested); simpl; [|by exists d].
  destruct requested as [v|]; simpl; [|by exists d].
  destruct (array_includes vs v) eqn:Hv; simpl; [|by exists d].
  exists v. split; [done|].
  unfold array_includes in Hv. apply existsb_exists in Hv as (x & Hx & Heq).
  apply String.eqb_eq in Heq. subst x. by apply list_elem_of_In.
Qed.

Lemma when_then (b : bool) msg (rest : Completion unit) :
  (when b msg ;; rest) = if b then Throw msg else rest.
Proof. by destruct b. Qed.

(** Validation of a model of the table with a variant of
    [Model3DVariant]. *)
Lemma validate3DModelOptions_enumerated o m vs v :
  AVAILABLE_VARIANTS !! m = Some vs ->
  model o = Present m ->
  variant o = Present v ->
  v ∈ allVariants ->
  (v ∉ vs ->
     (exists e, validate3DModelOptions o = Throw e)
     /\ (restIsValid o ->
         exists e, validate3DModelOptions o = Throw e
                   /\ includes e (modelTitle m) = true))
  /\ (v ∈ vs -> restIsValid o -> validate3DModelOptions o = Return tt).
Proof.
  intros Hm Hmodel Hvariant Hv.
  apply available_inv in Hm.
  unfold allVariants in Hv.
  assert (Hrest : restIsValid o ->
    (negb (truthy (read (outputPath o))) || blank (show (read (outputPath o)))
     = false)
    /\ (truthy (read (format o))
        && negb (value_in ["glb"; "gltf"] (read (format o))) = false)
    /\ (no_input_images o && negb (truthy (read (prompt o))) = false)).
  { intros (H1 & H2 & H3 & H4). rewrite H1, H2. split; [done|]. split.
    - destruct (truthy (read (format o))); [|done].
      unfold GLB, GLTF in H3. by rewrite H3.
    - destruct H4 as [-> | ->]; [done|]. by rewrite andb_false_r. }
  unfold validate3DModelOptions, model_is, variant_includes.
  rewrite Hmodel, Hvariant.
  assert (Hcases : v = SINGLE \/ v = MULTI \/ v = SINGLE_TURBO
                   \/ v = MULTI_TURBO).
  { repeat (apply elem_of_cons in Hv as [Hv | Hv]; [tauto|]).
    by apply elem_of_nil in Hv. }
  clear Hv Hvariant Hmodel.
  destruct Hcases as [-> | [-> | [-> | ->]]];
    destruct Hm as [[-> ->]|[[-> ->]|[[-> ->]|[[-> ->]|[-> ->]]]]];
    (split; [ intros Hout | intros Hin Hvalid ]);
    try (exfalso; apply Hout; in_list);
    try (exfalso; not_in_list Hin);
    try (destruct (Hrest Hvalid) as (-> & -> & ->); reflexivity);
    (split; [ | intros Hvalid; destruct (Hrest Hvalid) as (-> & -> & _);
                eexists; split; [ reflexivity | vm_compute; reflexivity ] ]);
    rewrite !when_then; simpl;
    repeat match goal with
           | |- exists e, (if ?c then _ else _) = Throw e =>
               destruct c; [ eexists; reflexivity | ]
           end;
    try (eexists; reflexivity).
Qed.

Lemma array_includes_allVariants v :
  array_includes ["single"; "multi"; "single-turbo"; "multi-turbo"] v = true ->
  v ∈ allVariants.
Proof.
  unfold array_includes, allVariants. simpl.
  repeat (destruct (String.eqb v _) eqn:E;
          [ apply String.eqb_eq in E; subst v; intros _; in_list | clear E ]).
  done.
Qed.

Lemma permitted_allVariants m vs v :
  AVAILABLE_VARIANTS !! m = Some vs -> v ∈ vs -> v ∈ allVariants.
Proof.
  intros Hm Hv. apply available_inv in Hm. unfold allVariants.
  destruct Hm as [[-> ->]|[[-> ->]|[[-> ->]|[[-> ->]|[-> ->]]]]];
    repeat (apply elem_of_cons in Hv as [-> | Hv]; [in_list|]);
    by apply elem_of_nil in Hv.
Qed.

(** C8, as the code has it. For a model of the compatibility table and
    an explicitly given variant: when the table does not permit the
    variant, validation throws; when the variant is one of
    [Model3DVariant] and the checks of the output path, the format and
    the prompt or images pass, the message names the model; and when the
    table permits the variant and those checks pass, validation
    accepts. *)
Theorem validate3DModelOptions_variant_compatibility o m vs v :
  AVAILABLE_VARIANTS !! m = Some vs ->
  model o = Present m ->
  variant o = Present v ->
  (v <> EmptyString -> v ∉ vs ->
     exists e, validate3DModelOptions o = Throw e)
  /\ (v ∈ allVariants -> v ∉ vs -> restIsValid o ->
      exists e, validate3DModelOptions o = Throw e
                /\ includes e (modelTitle m) = true)
  /\ (v ∈ vs -> restIsValid o -> validate3DModelOptions o = Return tt).
Proof.
  intros Hm Hmodel Hvariant. split; [|split].
  - intros Hsupplied Hout.
    destruct (array_includes
                ["single"; "multi"; "single-turbo"; "multi-turbo"] v) eqn:Hv.
    + apply array_includes_allVariants in Hv.
      by apply (validate3DModelOptions_enumerated o m vs v).
    + unfold validate3DModelOptions. rewrite !when_then, Hvariant.
      cbn [read value_in]. rewrite Hv. destruct v; [done|]. simpl.
      repeat match goal with
             | |- exists e, (if ?c then _ else _) = Throw e =>
                 destruct c; [ eexists; reflexivity | ]
             end.
      eexists; reflexivity.
  - intros Hv Hout.
    by apply (validate3DModelOptions_enumerated o m vs v).
  - intros Hin.
    apply (validate3DModelOptions_enumerated o m vs v); try done.
    by apply (permitted_allVariants m vs).
Qed.

Lemma validate3DModelOptions_variant_compatibility_witness :
  exists e, validate3DModelOptions trellisTurboRequest = Throw e
            /\ includes e (modelTitle TRELLIS) = true.
Proof.
  destruct (validate3DModelOptions_variant_compatibility
              trellisTurboRequest TRELLIS [SINGLE; MULTI] SINGLE_TURBO)
    as (_ & Hreject & _).
  - vm_compute. reflexivity.
  - reflexivity.
  - reflexivity.
  - apply Hreject.
    + unfold allVariants. in_list.
    + intros Hin. not_in_list Hin.
    + repeat split; vm_compute; try reflexivity; try discriminate.
      right. reflexivity.
Defined.

(** C8 as stated fails: for seed3d, the variant multi and an empty
    output path, validation throws, but the message is the one about
    the output path and does not name the model. *)
Lemma validate3DModelOptions_names_model_counterexample :
  ~ (AVAILABLE_VARIANTS !! SEED3D = Some [SINGLE] ->
     variant pathlessRequest = Present MULTI ->
     MULTI ∉ [SINGLE] ->
     exists e, validate3DModelOptions pathlessRequest = Throw e
               /\ includes e (modelTitle SEED3D) = true).
Proof.
  intros H. destruct H as (e & He & Hnames).
  - reflexivity.
  - reflexivity.
  - intros Hin. not_in_list Hin.
  - vm_compute in He. injection He as <-. vm_compute in Hnames.
    discriminate Hnames.
Qed.

(** A variant outside [Model3DVariant] is refused by the check of the
    variant names, whose message does not name the model either. *)
Example validate3DModelOptions_unknown_variant :
  validate3DModelOptions fastRequest
  = Throw "Variant must be one of: single, multi, single-turbo, multi-turbo".
Proof. reflexivity. Qed.

Lemma array_includes_elem_of xs x :
  array_includes xs x = true <-> x ∈ xs.
Proof.
  unfold array_includes. rewrite existsb_exists, list_elem_of_In. split.
  - intros (y & Hy & Heq). apply String.eqb_eq in Heq. by subst y.
  - intros Hx. exists x. split; [done | apply String.eqb_refl].
Qed.

Lemma when_returns (b : bool) msg (rest : Completion unit) :
  (when b msg ;; rest) = Return tt -> b = false /\ rest = Return tt.
Proof. by destruct b. Qed.

Lemma value_in_models m :
  value_in ["trellis"; "hunyuan3d"; "hunyuan-world"; "seed3d"; "meshy"] m
  = true ->
  exists name vs, m = Some name /\ AVAILABLE_VARIANTS !! name = Some vs.
Proof.
  destruct m as [name|]; [|done]. unfold value_in. intros H.
  apply array_includes_elem_of in H.
  repeat (apply elem_of_cons in H as [-> | H];
          [ do 2 eexists; split; [reflexivity | vm_compute; reflexivity] | ]).
  by apply elem_of_nil in H.
Qed.

(** What validation lets through. *)
Lemma validated_inv o :
  validate3DModelOptions o = Return tt ->
  exists m vs out,
    model o = Present m
    /\ AVAILABLE_VARIANTS !! m = Some vs
    /\ outputPath o = Present out /\ blank out = false
    /\ (forall v, variant o = Present v -> v <> EmptyString -> v ∈ vs)
    /\ (forall f, format o = Present f -> f <> EmptyString ->
          f = GLB \/ f = GLTF)
    /\ (no_input_images o = false \/ truthy (read (prompt o)) = true).
Proof.
  unfold validate3DModelOptions. intros H.
  apply when_returns in H as [Hout H]. apply when_returns in H as [Hmodel H].
  apply when_returns in H as [Hvariant H]. apply when_returns in H as [Hformat H].
  apply when_returns in H as [Htrellis H]. apply when_returns in H as [Hworld H].
  apply when_returns in H as [Hseed H]. apply when_returns in H as [Hmeshy H].
  unfold when in H. destruct (no_input_images o && _) eqn:Hinput; [done|].
  clear H.
  apply negb_false_iff in Hmodel.
  destruct (value_in_models _ Hmodel) as (m & vs & Hm & Hvs).
  apply orb_false_iff in Hout as [Hpath Hblank].
  apply negb_false_iff in Hpath.
  destruct (outputPath o) as [| |out] eqn:Hop; try done.
  assert (Hmo : model o = Present m).
  { destruct (model o); simpl in Hm; congruence. }
  exists m, vs, out. split; [done|]. split; [done|]. split; [done|].
  split; [done|]. split; [|split].
  - intros v Hv Hne. unfold model_is, variant_includes in *.
    rewrite Hmo, Hv in *. cbn [read value_is value_in] in *.
    assert (Htruthy : truthy (Some v) = true) by by destruct v.
    rewrite Htruthy in *.
    apply negb_false_iff in Hvariant.
    apply array_includes_allVariants in Hvariant.
    unfold allVariants in Hvariant.
    apply available_inv in Hvs.
    destruct Hvs as [[-> ->]|[[-> ->]|[[-> ->]|[[-> ->]|[-> ->]]]]];
      repeat (apply elem_of_cons in Hvariant as [-> | Hvariant];
              [ first [ in_list | discriminate ] | ]);
      by apply elem_of_nil in Hvariant.
  - intros f Hf Hne. rewrite Hf in Hformat. cbn [read value_in] in Hformat.
    assert (Htruthy : truthy (Some f) = true) by by destruct f.
    rewrite Htruthy in Hformat. rewrite andb_true_l in Hformat.
    apply negb_false_iff, array_includes_elem_of in Hformat.
    apply elem_of_cons in Hformat as [-> | Hformat]; [by left|].
    apply elem_of_cons in Hformat as [-> | Hformat]; [by right|].
    by apply elem_of_nil in Hformat.
  - apply andb_false_iff in Hinput as [-> | Hp]; [by left|].
    right. by apply negb_false_iff.
Qed.

(** ** Merging with the defaults *)

Lemma over_idemp {A} (d u : Slot A) : over d (over d u) = over d u.
Proof. by destruct u, d. Qed.

Lemma over_kept {A} (d u : Slot A) : kept u (over d u).
Proof. unfold kept. by destruct u. Qed.

Lemma over_supplied {A} (d u : Slot A) : supplied u d -> over d u = u.
Proof. unfold supplied. destruct u, d; simpl; try done; intros H; by destruct H. Qed.

Lemma getDefault3DOptions_model m d :
  getDefault3DOptions m = Return d ->
  exists name, m = Some name /\ model d = Present name.
Proof.
  unfold getDefault3DOptions, value_is.
  destruct m as [name|]; [|done].
  repeat (destruct (String.eqb name _) eqn:E;
          [ apply String.eqb_eq in E; subst name; intros [= <-]; by eexists
          | clear E ]).
  done.
Qed.

(** C9. When the model has defaults, [merge3DWithDefaults] returns an
    option set in which every key of the user is unchanged, merging that
    result again gives the same result, and a user who set every key the
    defaults have gets the options back as they were. *)
Theorem merge3DWithDefaults_idempotent_user_wins o d :
  getDefault3DOptions (read (model o)) = Return d ->
  (exists merged,
      merge3DWithDefaults o = Return merged
      /\ userWins o merged
      /\ merge3DWithDefaults merged = Return merged)
  /\ (suppliesAll o d -> merge3DWithDefaults o = Return o).
Proof.
  intros Hd.
  destruct (getDefault3DOptions_model _ _ Hd) as (name & Hname & Hmodel).
  assert (Hpresent : model o = Present name).
  { destruct (model o); simpl in Hname; congruence. }
  split.
  - exists (spread d o). unfold merge3DWithDefaults.
    rewrite Hd. simpl. split; [done|]. split.
    + unfold userWins, spread; simpl. repeat split; apply over_kept.
    + rewrite Hpresent. simpl. rewrite Hpresent in Hd. simpl in Hd.
      rewrite Hd. simpl. f_equal.
      unfold spread; simpl. by rewrite !over_idemp.
  - intros Hall. unfold merge3DWithDefaults. rewrite Hd. simpl. f_equal.
    unfold suppliesAll in Hall.
    destruct Hall as (?&?&?&?&?&?&?&?&?&?&?&?).
    destruct o; unfold spread; simpl in *.
    f_equal; by apply over_supplied.
Qed.

Lemma merge3DWithDefaults_idempotent_user_wins_witness :
  merge3DWithDefaults fullRequest = Return fullRequest.
Proof.
  refine (proj2 (merge3DWithDefaults_idempotent_user_wins fullRequest
                   (withModelVariant baseDefaults MESHY SINGLE) _) _).
  - reflexivity.
  - unfold suppliesAll, supplied; simpl.
    repeat split; intros H; first [ exact H | discriminate ].
Defined.

(** ** The polling loop *)

Section Polling.
Variable http : nat -> string -> Completion MeshyTask.
Variables url auth : string.
Variable pollInterval : Z.

Lemma requests_rounds k :
  requests (rounds k url auth pollInterval) = replicate k url.
Proof. induction k as [|k IH]; simpl; [done | by rewrite IH]. Qed.

Lemma sleeps_rounds k :
  sleeps (rounds k url auth pollInterval) = replicate k pollInterval.
Proof. induction k as [|k IH]; simpl; [done | by rewrite IH]. Qed.

Lemma requests_app evs1 evs2 :
  requests (evs1 ++ evs2) = requests evs1 ++ requests evs2.
Proof. unfold requests. by rewrite omap_app. Qed.

Lemma sleeps_app evs1 evs2 :
  sleeps (evs1 ++ evs2) = sleeps evs1 ++ sleeps evs2.
Proof. unfold sleeps. by rewrite omap_app. Qed.

(** The events of the loop are rounds of a request and a wait, with one
    last request unless the attempts ran out. *)
Lemma pollLoop_shape attempt remaining :
  exists k,
    ((k < remaining)%nat
     /\ (pollLoop http url auth pollInterval attempt remaining).1
        = rounds k url auth pollInterval ++ [Requested url auth])
    \/ (k = remaining
        /\ (pollLoop http url auth pollInterval attempt remaining).1
           = rounds k url auth pollInterval).
Proof.
  revert attempt. induction remaining as [|n IH]; intros attempt; simpl.
  - exists 0%nat. by right.
  - assert (Hlast : forall out : Completion MeshyTask,
              exists k,
                ((k < S n)%nat
                 /\ ([Requested url auth], out).1
                    = rounds k url auth pollInterval ++ [Requested url auth])
                \/ (k = S n
                    /\ ([Requested url auth], out).1
                       = rounds k url auth pollInterval)).
    { intros out. exists 0%nat. left. split; [lia | done]. }
    destruct (http attempt url) as [task|e]; [|apply Hlast].
    destruct (task_error_field task); [apply Hlast|].
    destruct (value_is (task_status task) "SUCCEEDED"); [apply Hlast|].
    destruct (value_is (task_status task) "FAILED"
              || value_is (task_status task) "EXPIRED"); [apply Hlast|].
    destruct (IH (S attempt)) as [k Hk].
    destruct (pollLoop http url auth pollInterval (S attempt) n) as [evs out].
    simpl in *. exists (S k).
    destruct Hk as [[Hlt ->] | [-> ->]]; [left | right]; (split; [lia | done]).
Qed.

Lemma pollLoop_bounds attempt remaining :
  (length (requests (pollLoop http url auth pollInterval attempt remaining).1)
   <= remaining)%nat
  /\ Forall (fun ms => ms = pollInterval)
       (sleeps (pollLoop http url auth pollInterval attempt remaining).1).
Proof.
  destruct (pollLoop_shape attempt remaining) as [k [[Hk ->] | [Hk ->]]];
    rewrite ?requests_app, ?sleeps_app, requests_rounds, sleeps_rounds;
    simpl; rewrite ?length_app, ?length_replicate, ?app_nil_r; simpl;
    (split; [lia | by apply Forall_replicate]).
Qed.

(** While the answers leave the task running, the loop goes on, a
    round for each of them. *)
Lemma pollLoop_running k attempt remaining :
  (forall j, (j < k)%nat -> stillRunning (http (attempt + j) url)) ->
  (k <= remaining)%nat ->
  pollLoop http url auth pollInterval attempt remaining
  = (rounds k url auth pollInterval
     ++ (pollLoop http url auth pollInterval (attempt + k) (remaining - k)).1,
     (pollLoop http url auth pollInterval (attempt + k) (remaining - k)).2).
Proof.
  revert attempt remaining.
  induction k as [|k IH]; intros attempt remaining Hrun Hle.
  - rewrite Nat.add_0_r, Nat.sub_0_r. simpl. by destruct (pollLoop _ _ _ _ _ _).
  - destruct remaining as [|n]; [lia|].
    destruct (Hrun 0%nat ltac:(lia)) as (task & Hanswer & Herr & Hs & Hf & He).
    rewrite Nat.add_0_r in Hanswer.
    replace (attempt + S k)%nat with (S attempt + k)%nat by lia.
    replace (S n - S k)%nat with (n - k)%nat by lia.
    cbn [pollLoop]. rewrite Hanswer, Herr, Hs, Hf, He. cbn [orb].
    rewrite (IH (S attempt) n); [done| |lia].
    intros j Hj. replace (S attempt + j)%nat with (attempt + S j)%nat by lia.
    apply Hrun. lia.
Qed.
End Polling.

(** C10. Called with the default ceiling and interval, the polling loop
    sends at most 120 requests and waits 5000 ms after every request
    whose answer leaves the task running, and at no other time; it
    returns the task document at the first answer that reports
    SUCCEEDED, throws at the first answer that reports FAILED or
    EXPIRED, and throws the time-out error after 120 answers that all
    leave the task running. *)
Theorem pollMeshyTaskStatus_terminates http taskId apiKey basePath :
  let url := "https://api.meshy.ai/openapi/v1/" +:+ basePath +:+ "/" +:+ taskId in
  let auth := "Bearer " +:+ apiKey in
  let run := pollMeshyTaskStatus http taskId apiKey basePath
               defaultMaxAttempts defaultPollInterval in
  (length (requests run.1) <= 120)%nat
  /\ Forall (fun ms => ms = 5000) (sleeps run.1)
  /\ (exists k,
        ((k < 120)%nat
         /\ run.1 = rounds k url auth 5000 ++ [Requested url auth])
        \/ (k = 120%nat /\ run.1 = rounds k url auth 5000))
  /\ (forall k task,
        (k < 120)%nat ->
        (forall j, (j < k)%nat -> stillRunning (http j url)) ->
        http k url = Return task ->
        task_error_field task = None ->
        (value_is (task_status task) "SUCCEEDED" = true ->
           run = (rounds k url auth 5000 ++ [Requested url auth],
                  Return task))
        /\ (value_is (task_status task) "FAILED"
            || value_is (task_status task) "EXPIRED" = true ->
           run = (rounds k url auth 5000 ++ [Requested url auth],
                  Throw ("Meshy task " +:+ show (task_status task) +:+ ": "
                         +:+ or_else (task_error_message task)
                               "Unknown error"))))
  /\ ((forall j, (j < 120)%nat -> stillRunning (http j url)) ->
      run = (rounds 120 url auth 5000,
             Throw "Meshy task timed out after maximum polling attempts")).
Proof.
  intros url auth run. subst run. unfold pollMeshyTaskStatus. fold url auth.
  split; [apply pollLoop_bounds|].
  split; [apply (pollLoop_bounds http url auth defaultPollInterval)|].
  split; [apply (pollLoop_shape http url auth defaultPollInterval)|].
  split.
  - intros k task Hk Hrun Hanswer Herr.
    rewrite (pollLoop_running http url auth defaultPollInterval k 0
               defaultMaxAttempts);
      [ | exact Hrun | unfold defaultMaxAttempts; lia ].
    simpl (0 + k)%nat. unfold defaultMaxAttempts.
    destruct (120 - k)%nat as [|n] eqn:Hn; [lia|].
    cbn [pollLoop]. rewrite Hanswer, Herr.
    split.
    + by intros ->.
    + intros Hfail.
      assert (value_is (task_status task) "SUCCEEDED" = false) as ->.
      { destruct (task_status task) as [s|]; [|done]. simpl in *.
        destruct (String.eqb s "SUCCEEDED") eqn:E; [|done].
        apply String.eqb_eq in E. by subst s. }
      by rewrite Hfail.
  - intros Hrun.
    rewrite (pollLoop_running http url auth defaultPollInterval 120 0
               defaultMaxAttempts);
      [ | exact Hrun | unfold defaultMaxAttempts; lia ].
    unfold defaultMaxAttempts.
    replace (120 - 120)%nat with 0%nat by lia.
    cbn [pollLoop fst snd]. by rewrite app_nil_r.
Qed.

Lemma pollMeshyTaskStatus_terminates_witness :
  pollMeshyTaskStatus thirdTimeLucky "task" "key" "image-to-3d"
    defaultMaxAttempts defaultPollInterval
  = (rounds 2 "https://api.meshy.ai/openapi/v1/image-to-3d/task"
       "Bearer key" 5000
     ++ [Requested "https://api.meshy.ai/openapi/v1/image-to-3d/task"
           "Bearer key"],
     Return succeededTask).
Proof.
  pose proof (pollMeshyTaskStatus_terminates thirdTimeLucky "task" "key"
                "image-to-3d") as H.
  cbv zeta in H. destruct H as (_ & _ & _ & H & _).
  destruct (H 2%nat succeededTask) as [Hsuccess _].
  - lia.
  - intros j Hj. exists runningTask.
    destruct j as [|[|j]]; [ by repeat split .. | lia ].
  - reflexivity.
  - reflexivity.
  - apply Hsuccess. reflexivity.
Defined.

(** ** Reading the trace of a run *)

Lemma newEvents_app w w' evs :
  trace w' = (trace w ++ evs) -> newEvents w w' = evs.
Proof. unfold newEvents. intros ->. apply drop_app_length. Qed.

Lemma statusWrites_app evs1 evs2 :
  statusWrites (evs1 ++ evs2) = statusWrites evs1 ++ statusWrites evs2.
Proof. unfold statusWrites. by rewrite omap_app. Qed.

Lemma imageCalls_app evs1 evs2 :
  imageCalls (evs1 ++ evs2) = imageCalls evs1 ++ imageCalls evs2.
Proof. unfold imageCalls. by rewrite omap_app. Qed.

Lemma backendCalls_app evs1 evs2 :
  backendCalls (evs1 ++ evs2) = backendCalls evs1 ++ backendCalls evs2.
Proof. unfold backendCalls. by rewrite omap_app. Qed.

Lemma unlinkCalls_app evs1 evs2 :
  unlinkCalls (evs1 ++ evs2) = unlinkCalls evs1 ++ unlinkCalls evs2.
Proof. unfold unlinkCalls. by rewrite omap_app. Qed.

Lemma touched_app evs1 evs2 :
  touched (evs1 ++ evs2) = touched evs1 ++ touched evs2.
Proof. unfold touched. by rewrite omap_app. Qed.

Lemma external_app evs1 evs2 :
  external (evs1 ++ evs2) = external evs1 ++ external evs2.
Proof. unfold external. by rewrite omap_app. Qed.

Lemma marks_app evs1 evs2 : marks (evs1 ++ evs2) = marks evs1 ++ marks evs2.
Proof. unfold marks. by rewrite statusWrites_app, fmap_app. Qed.

Lemma imageCalls_requested calls :
  imageCalls (ImageRequested <$> calls) = calls.
Proof. induction calls as [|c calls IH]; simpl; [done | by f_equal]. Qed.

Lemma backendCalls_requested calls :
  backendCalls (ImageRequested <$> calls) = [].
Proof. by induction calls. Qed.

Lemma unlinkCalls_requested calls :
  unlinkCalls (ImageRequested <$> calls) = [].
Proof. by induction calls. Qed.

Lemma imageCalls_external evs : imageCalls (external evs) = imageCalls evs.
Proof.
  induction evs as [|[] evs IH]; simpl; try done. by f_equal.
Qed.

Lemma backendCalls_external evs :
  backendCalls (external evs) = backendCalls evs.
Proof.
  induction evs as [|[] evs IH]; simpl; try done. by f_equal.
Qed.

Lemma unlinkCalls_external evs : unlinkCalls (external evs) = unlinkCalls evs.
Proof.
  induction evs as [|[] evs IH]; simpl; try done. by f_equal.
Qed.

Lemma unlinkCalls_touched evs p : p ∈ unlinkCalls evs -> p ∈ touched evs.
Proof.
  induction evs as [|[] evs IH]; simpl; try done;
    rewrite ?elem_of_cons; intros H; auto.
  destruct H as [-> | H]; auto.
Qed.

Lemma leftAlone_app statusPath evs1 evs2 :
  leftAlone statusPath (evs1 ++ evs2)
  <-> leftAlone statusPath evs1 /\ leftAlone statusPath evs2.
Proof. unfold leftAlone. rewrite touched_app. apply not_elem_of_app. Qed.

(** ** Steps that leave the status store alone *)

Lemma quiet_refl w : quiet w [] w.
Proof. split; [by rewrite app_nil_r | done]. Qed.

Lemma quiet_seq w evs1 w1 evs2 w2 :
  quiet w evs1 w1 -> quiet w1 evs2 w2 -> quiet w (evs1 ++ evs2) w2.
Proof.
  intros (Ht1 & Hs1 & Hkeep1 & Hsame1) (Ht2 & Hs2 & Hkeep2 & Hsame2).
  split; [by rewrite Ht2, Ht1, app_assoc|].
  split; [by rewrite statusWrites_app, Hs1, Hs2|]. split.
  - intros p Hp Hnot. rewrite unlinkCalls_app in Hnot.
    apply not_elem_of_app in Hnot as [Hn1 Hn2]. auto.
  - intros p Hnot. rewrite touched_app in Hnot.
    apply not_elem_of_app in Hnot as [Hn1 Hn2].
    by rewrite Hsame2, Hsame1.
Qed.

Lemma quiet_emit e w : statusWrites [e] = [] -> quiet w [e] (emit e w).
Proof. by intros He. Qed.

Lemma quiet_tick env w : quiet w [] (now env w).2.
Proof. split; [simpl; by rewrite app_nil_r | done]. Qed.

Lemma quiet_saveFile w saved :
  quiet w [FileSaved saved.1] (saveFile w saved).
Proof.
  split; [done|]. split; [done|]. split.
  - intros p Hp _. unfold files, saveFile in *. simpl.
    apply dom_insert_subseteq, Hp.
  - intros p Hnot. simpl in *. apply not_elem_of_cons in Hnot as [Hne _].
    by apply lookup_insert_ne.
Qed.

Lemma quiet_saveFiles saved : forall w,
  quiet w (FileSaved <$> saved.*1) (saveFiles saved w).
Proof.
  unfold saveFiles.
  induction saved as [|x saved IH]; intros w; simpl; [apply quiet_refl|].
  apply (quiet_seq w [FileSaved x.1] (saveFile w x));
    [apply quiet_saveFile | apply IH].
Qed.

Lemma quiet_unlink env path w :
  quiet w [UnlinkCalled path] (unlinkSync env path w).1.
Proof.
  unfold unlinkSync. repeat case_bool_decide; simpl; try by apply quiet_emit.
  split; [done|]. split; [done|]. split.
  - intros p Hp Hnot. simpl in Hnot. apply not_elem_of_cons in Hnot as [Hne _].
    unfold files in *. simpl. apply dom_delete, elem_of_difference.
    split; [done|]. by apply not_elem_of_singleton.
  - intros p Hnot. simpl in *. apply not_elem_of_cons in Hnot as [Hne _].
    by apply lookup_delete_ne.
Qed.

Lemma quiet_callBackend env b args w :
  quiet w (BackendCalled b args :: (FileSaved <$> (backendSaves env b args).*1))
    (callBackend env b args w).1.
Proof.
  unfold callBackend. cbn [fst].
  apply (quiet_seq w [BackendCalled b args] (emit (BackendCalled b args) w));
    [by apply quiet_emit | apply quiet_saveFiles].
Qed.

Lemma external_saved paths : external (FileSaved <$> paths) = [].
Proof. by induction paths. Qed.

Lemma saveFiles_ticks saved : forall w,
  ticks (saveFiles saved w) = ticks w.
Proof.
  unfold saveFiles. induction saved as [|x saved IH]; intros w; simpl; [done|].
  by rewrite IH.
Qed.

(** ** The reference image generator *)

(** What the [try]/[catch] of one iteration leaves in [referencePaths]. *)
Lemma collectSaved_savedBy reply referencePaths :
  match collectSaved reply referencePaths with
  | Return paths => paths
  | Throw _ => referencePaths
  end = (referencePaths ++ savedBy reply).
Proof.
  destruct reply as [msg|msg|[saved|]]; simpl; try by rewrite app_nil_r.
  destruct saved; simpl; [by rewrite app_nil_r | done].
Qed.

Section ReferenceLoop.
Variable env : Env.
Variables prompt outputBasePath model : string.

(** The loop asks for every view in turn, each request after the first
    carrying what the earlier requests saved, and returns what all
    requests saved; its requests do not depend on the world. *)
Lemma referenceLoop_calls views : forall i referencePaths,
  exists calls,
    length calls = length views
    /\ (forall k view,
          views !! k = Some view ->
          calls !! k
          = Some (viewRequest prompt outputBasePath model (i + k) view
                    (referencePaths
                     ++ savedByCalls env i (take k calls))))
    /\ forall w,
         (referenceLoop env prompt outputBasePath model i views
            referencePaths w).2
         = (referencePaths ++ savedByCalls env i calls)
         /\ ticks (referenceLoop env prompt outputBasePath model i views
                     referencePaths w).1 = ticks w
         /\ exists evs,
              quiet w evs
                (referenceLoop env prompt outputBasePath model i views
                   referencePaths w).1
              /\ external evs = (ImageRequested <$> calls).
Proof.
  induction views as [|view rest IH]; intros i referencePaths.
  - exists []. simpl. rewrite !app_nil_r. repeat split; try done.
    exists []. split; [apply quiet_refl | done].
  - simpl.
    set (args := viewRequest prompt outputBasePath model i view referencePaths).
    destruct (generateImage env i args) as [reply created] eqn:Hreply.
    rewrite collectSaved_savedBy.
    destruct (IH (S i) (referencePaths ++ savedBy reply))
      as (calls & Hlen & Hcalls & Hrun).
    exists (args :: calls). simpl. rewrite Hlen, Hreply. simpl.
    split; [done|]. split.
    + intros [|k] v Hv; simpl in *.
      * injection Hv as <-. by rewrite Nat.add_0_r, app_nil_r.
      * rewrite (Hcalls k v Hv), Hreply. simpl.
        by rewrite <- app_assoc, Nat.add_succ_r.
    + intros w.
      set (w1 := saveFiles _ (emit (ImageRequested args) w)).
      destruct (Hrun w1) as (Hout & Hticks & evs & Hquiet & Hext).
      rewrite Hout, Hticks, <- app_assoc.
      split; [done|]. split; [unfold w1; by rewrite saveFiles_ticks|].
      exists ((ImageRequested args
               :: (FileSaved <$> ((fun path => (path, Blob)) <$> created).*1))
              ++ evs).
      split.
      * eapply quiet_seq; [|exact Hquiet].
        apply (quiet_seq w [ImageRequested args]
                 (emit (ImageRequested args) w));
          [by apply quiet_emit | apply quiet_saveFiles].
      * rewrite external_app. simpl. by rewrite external_saved, Hext.
Qed.
End ReferenceLoop.

Lemma external_requests evs calls :
  external evs = (ImageRequested <$> calls) ->
  imageCalls evs = calls /\ backendCalls evs = [] /\ unlinkCalls evs = [].
Proof.
  intros H.
  rewrite <- imageCalls_external, <- backendCalls_external,
    <- unlinkCalls_external, H.
  by rewrite imageCalls_requested, backendCalls_requested,
    unlinkCalls_requested.
Qed.

(** The requests of a run of the generator, read off its trace. *)
Lemma generateReferenceImages_calls env prompt outputBasePath views model w :
  let run := generateReferenceImages env prompt outputBasePath views model w in
  let calls := imageCalls (newEvents w run.1) in
  length calls = length (arraySort frontFirst views)
  /\ (forall k view,
        arraySort frontFirst views !! k = Some view ->
        calls !! k
        = Some (viewRequest prompt outputBasePath model k view
                  (savedByCalls env 0 (take k calls))))
  /\ run.2 = savedByCalls env 0 calls.
Proof.
  intros run calls. subst calls run. unfold generateReferenceImages.
  destruct (referenceLoop_calls env prompt outputBasePath model
              (arraySort frontFirst views) 0 [])
    as (calls & Hlen & Hcalls & Hrun).
  destruct (Hrun w) as (Hout & _ & evs & (Htrace & _) & Hext).
  rewrite (newEvents_app _ _ _ Htrace).
  destruct (external_requests _ _ Hext) as (-> & _).
  done.
Qed.

(** The view sort puts the front views first and keeps the order of the
    others. *)
Lemma sortInsert_frontFirst x (fronts others : list View) :
  Forall (fun v => v = Front) fronts ->
  Forall (fun v => v <> Front) others ->
  sortInsert frontFirst x (fronts ++ others)
  = if bool_decide (x = Front) then x :: fronts ++ others
    else fronts ++ x :: others.
Proof.
  intros Hfronts Hothers. unfold frontFirst.
  induction Hfronts as [|y fronts -> _ IH]; simpl.
  - destruct Hothers as [|y others Hy _]; simpl; [by case_bool_decide|].
    case_bool_decide; [done|]. by rewrite (bool_decide_eq_false_2 _ Hy).
  - case_bool_decide; [done|]. simpl. by rewrite IH.
Qed.

Lemma arraySort_frontFirst views :
  arraySort frontFirst views
  = (filter (fun v => v = Front) views
     ++ filter (fun v => v <> Front) views).
Proof.
  induction views as [|x views IH]; [done|].
  unfold arraySort in *. simpl. rewrite IH.
  rewrite sortInsert_frontFirst.
  - rewrite !filter_cons. case_bool_decide as Hx; simpl.
    + subst x. by destruct (decide (Front <> Front)).
    + destruct (decide (x = Front)); [done|].
      by destruct (decide (x <> Front)).
  - apply Forall_forall. intros v Hv. by apply list_elem_of_filter in Hv as [? _].
  - apply Forall_forall. intros v Hv. by apply list_elem_of_filter in Hv as [? _].
Qed.

Lemma arraySort_frontFirst_head views :
  Front ∈ views -> exists rest, arraySort frontFirst views = Front :: rest.
Proof.
  intros Hin. rewrite arraySort_frontFirst.
  assert (Hf : Front ∈ filter (fun v => v = Front) views)
    by by apply list_elem_of_filter.
  destruct (filter (fun v => v = Front) views) as [|v fronts] eqn:E.
  - by apply elem_of_nil in Hf.
  - assert (v ∈ filter (fun v => v = Front) views) as Hv
      by (rewrite E; apply list_elem_of_here).
    apply list_elem_of_filter in Hv as [-> _]. by eexists.
Qed.

Lemma arraySort_length {A} (cmp : A -> A -> Z) xs :
  length (arraySort cmp xs) = length xs.
Proof.
  assert (Hins : forall x l, length (sortInsert cmp x l) = S (length l)).
  { intros x l. induction l as [|y l IH]; simpl; [done|].
    destruct (cmp x y <=? 0); simpl; by rewrite ?IH. }
  induction xs as [|x xs IH]; [done|].
  unfold arraySort in *. simpl. by rewrite Hins, IH.
Qed.

(** C6. When the requested views contain the front view, the first
    image request is the front view, made from the text prompt alone,
    and every later request carries as input images exactly the images
    saved by all the requests before it. *)
Theorem generateReferenceImages_front_first env prompt outputBasePath views
    model w :
  Front ∈ views ->
  let run := generateReferenceImages env prompt outputBasePath views model w in
  let calls := imageCalls (newEvents w run.1) in
  (exists first, head calls = Some first
     /\ gi_prompt first = firstViewPrompt prompt Front
     /\ gi_outputPath first = replace_ext outputBasePath "_ref_front.png"
     /\ gi_inputImagePaths first = None)
  /\ (forall k call,
        (0 < k)%nat ->
        calls !! k = Some call ->
        gi_inputImagePaths call = Some (savedByCalls env 0 (take k calls))).
Proof.
  intros Hfront run calls. subst calls run.
  destruct (arraySort_frontFirst_head views Hfront) as [rest Hsorted].
  destruct (generateReferenceImages_calls env prompt outputBasePath views
              model w) as (Hlen & Hcalls & _).
  cbv zeta in Hlen, Hcalls.
  set (calls := imageCalls _) in *. clearbody calls.
  split.
  - rewrite Hsorted in Hcalls. specialize (Hcalls 0%nat Front eq_refl).
    destruct calls as [|first calls]; [done|].
    simpl in Hcalls. injection Hcalls as ->. by eexists.
  - intros k call Hk Hcall.
    assert (Hview : is_Some (arraySort frontFirst views !! k)).
    { apply lookup_lt_is_Some. rewrite <- Hlen.
      by apply lookup_lt_Some in Hcall. }
    destruct Hview as [view Hview].
    rewrite (Hcalls k view Hview) in Hcall. injection Hcall as <-.
    simpl. by destruct k; [lia|].
Qed.

Lemma generateReferenceImages_front_first_witness :
  gi_inputImagePaths
    (viewRequest "test object" "test_object.png" "gemini" 1 Top
       ["test_front.png"])
  = Some (savedByCalls testEnv 0
            (take 1 (imageCalls
                       (newEvents freshWorld
                          (generateReferenceImages testEnv "test object"
                             "test_object.png" [Top; Front; Back] "gemini"
                             freshWorld).1)))).
Proof.
  refine (proj2 (generateReferenceImages_front_first testEnv "test object"
                   "test_object.png" [Top; Front; Back] "gemini" freshWorld _)
            1%nat _ _ _).
  - in_list.
  - lia.
  - vm_compute. reflexivity.
Defined.

Lemma savedByCalls_app env i calls1 calls2 :
  savedByCalls env i (calls1 ++ calls2)
  = savedByCalls env i calls1
    ++ savedByCalls env (i + length calls1) calls2.
Proof.
  revert i. induction calls1 as [|c calls1 IH]; intros i; simpl.
  - by rewrite Nat.add_0_r.
  - by rewrite IH, <- app_assoc, Nat.add_succ_r.
Qed.

(** C7. Every requested view is asked for, whatever happened to the
    views before it, and the generator returns (it has no way to throw)
    exactly the images saved by the requests that succeeded: a request
    that fails adds nothing to the list. *)
Theorem generateReferenceImages_skips_failed_views env prompt outputBasePath
    views model w :
  let run := generateReferenceImages env prompt outputBasePath views model w in
  let calls := imageCalls (newEvents w run.1) in
  length calls = length views
  /\ run.2 = savedByCalls env 0 calls
  /\ (forall k call msg,
        calls !! k = Some call ->
        ((generateImage env k call).1 = Rejected msg
         \/ (generateImage env k call).1 = Malformed msg) ->
        savedByCalls env 0 (take (S k) calls)
        = savedByCalls env 0 (take k calls)).
Proof.
  intros run calls. subst calls run.
  destruct (generateReferenceImages_calls env prompt outputBasePath views
              model w) as (Hlen & _ & Hout).
  cbv zeta in Hlen, Hout.
  set (calls := imageCalls _) in *. clearbody calls.
  rewrite arraySort_length in Hlen.
  split; [done|]. split; [done|].
  intros k call msg Hcall Hfail.
  rewrite (take_S_r _ _ _ Hcall), savedByCalls_app. simpl.
  rewrite length_take_le by (apply lookup_lt_Some in Hcall; lia).
  by destruct Hfail as [-> | ->]; rewrite !app_nil_r.
Qed.

Lemma generateReferenceImages_skips_failed_views_witness :
  let calls :=
    imageCalls (newEvents freshWorld
                  (generateReferenceImages testEnv "test object"
                     "test_object.png" [Front; Back; Top] "gemini"
                     freshWorld).1) in
  savedByCalls testEnv 0 (take 2 calls) = savedByCalls testEnv 0 (take 1 calls).
Proof.
  refine (proj2 (proj2 (generateReferenceImages_skips_failed_views testEnv
                          "test object" "test_object.png" [Front; Back; Top]
                          "gemini" freshWorld))
            1%nat
            (viewRequest "test object" "test_object.png" "gemini" 1 Back
               ["test_front.png"])
            "Generation failed" _ _).
  - vm_compute. reflexivity.
  - left. reflexivity.
Defined.

(** The scenario of the unit test: three views, the second call is
    rejected, the result is the first and the third image. *)
Example generateReferenceImages_second_call_fails :
  (generateReferenceImages testEnv "test object" "test_object.png"
     [Front; Back; Top] "gemini" freshWorld).2
  = ["test_front.png"; "test_top.png"].
Proof. vm_compute. reflexivity. Qed.


(** * What a job does outside its status file *)

Lemma savedFiles_app evs1 evs2 :
  savedFiles (evs1 ++ evs2) = savedFiles evs1 ++ savedFiles evs2.
Proof. unfold savedFiles. by rewrite omap_app. Qed.

Lemma backendSaved_app env evs1 evs2 :
  backendSaved env (evs1 ++ evs2)
  = backendSaved env evs1 ++ backendSaved env evs2.
Proof. unfold backendSaved. by rewrite backendCalls_app, bind_app. Qed.

Lemma savedFiles_saved paths : savedFiles (FileSaved <$> paths) = paths.
Proof. induction paths as [|p paths IH]; simpl; [done | by f_equal]. Qed.

Lemma backendCalls_saved paths : backendCalls (FileSaved <$> paths) = [].
Proof. by induction paths. Qed.

Lemma imageCalls_saved paths : imageCalls (FileSaved <$> paths) = [].
Proof. by induction paths. Qed.

Lemma imageCalls_unlinked paths : imageCalls (UnlinkCalled <$> paths) = [].
Proof. by induction paths. Qed.

Lemma backendCalls_unlinked paths : backendCalls (UnlinkCalled <$> paths) = [].
Proof. by induction paths. Qed.

Lemma unlinkCalls_unlinked paths : unlinkCalls (UnlinkCalled <$> paths) = paths.
Proof. induction paths as [|p paths IH]; simpl; [done | by f_equal]. Qed.

Lemma acts_refl env statusPath w : acts env statusPath w [] w.
Proof. exists []. by rewrite app_nil_r. Qed.

Lemma acts_seq env statusPath w xs1 w1 xs2 w2 :
  acts env statusPath w xs1 w1 -> acts env statusPath w1 xs2 w2 ->
  acts env statusPath w (xs1 ++ xs2) w2.
Proof.
  intros (evs1 & Ht1 & Hx1 & Hkeep1 & Hsame1 & Hsaved1)
         (evs2 & Ht2 & Hx2 & Hkeep2 & Hsame2 & Hsaved2).
  exists (evs1 ++ evs2).
  split; [by rewrite Ht2, Ht1, app_assoc|].
  split; [by rewrite external_app, Hx1, Hx2|]. split; [|split].
  - intros p Hp Hnot. rewrite unlinkCalls_app in Hnot.
    apply not_elem_of_app in Hnot as [Hn1 Hn2]. auto.
  - intros p Hne Hnot. rewrite touched_app in Hnot.
    apply not_elem_of_app in Hnot as [Hn1 Hn2].
    by rewrite Hsame2, Hsame1.
  - rewrite imageCalls_app, savedFiles_app, backendSaved_app.
    intros Hnone. apply app_eq_nil in Hnone as [Hn1 Hn2].
    by rewrite Hsaved1, Hsaved2.
Qed.

Lemma acts_then env statusPath w xs w1 w2 :
  acts env statusPath w xs w1 -> acts env statusPath w1 [] w2 ->
  acts env statusPath w xs w2.
Proof.
  intros H1 H2. rewrite <- (app_nil_r xs). by eapply acts_seq.
Qed.

Lemma acts_after env statusPath w xs w1 w2 :
  acts env statusPath w [] w1 -> acts env statusPath w1 xs w2 ->
  acts env statusPath w xs w2.
Proof. intros H1 H2. by apply (acts_seq env statusPath w [] w1 xs w2). Qed.

Lemma acts_quiet env statusPath w evs w' :
  quiet w evs w' ->
  (imageCalls evs = [] -> savedFiles evs = backendSaved env evs) ->
  acts env statusPath w (external evs) w'.
Proof.
  intros (Htrace & _ & Hkeep & Hsame) Hsaved. exists evs.
  repeat split; try done. intros p _. apply Hsame.
Qed.

Lemma acts_written env statusPath r w :
  acts env statusPath w [] (writeFileSync statusPath r w).
Proof.
  exists [StatusWritten r]. split; [done|]. split; [done|].
  split; [|split; [|done]].
  - intros p Hp _. unfold files in *. simpl. by apply dom_insert_subseteq.
  - intros p Hne _. simpl. by apply lookup_insert_ne.
Qed.

Lemma acts_writeStatus env statusPath r w :
  acts env statusPath w [] (writeStatus env statusPath r w).
Proof.
  unfold writeStatus.
  destruct (writable env _ statusPath); [apply acts_written | apply acts_refl].
Qed.

Lemma acts_tick env statusPath w : acts env statusPath w [] (now env w).2.
Proof. by apply (acts_quiet env statusPath w []); [apply quiet_tick|]. Qed.

Lemma acts_update env statusPath upd w :
  acts env statusPath w [] (updateStatusFile env statusPath upd w).
Proof.
  unfold updateStatusFile.
  destruct (disk w !! statusPath) as [[s|]|];
    [apply acts_writeStatus | apply acts_refl |].
  eapply acts_after; [apply (acts_tick env) | apply acts_writeStatus].
Qed.

Lemma acts_log env statusPath msg w :
  acts env statusPath w [] (addLogToStatus env statusPath msg w).
Proof.
  unfold addLogToStatus.
  destruct (disk w !! statusPath) as [[s|]|]; [|apply acts_refl|].
  - destruct (logs s); [|apply acts_refl].
    eapply acts_after; [apply (acts_tick env) | apply acts_writeStatus].
  - eapply acts_after; [apply (acts_tick env)|].
    eapply acts_after; [apply (acts_tick env) | apply acts_writeStatus].
Qed.

Lemma acts_backend env statusPath b args w :
  acts env statusPath w [BackendCalled b args] (callBackend env b args w).1.
Proof.
  pose proof (acts_quiet env statusPath _ _ _
                (quiet_callBackend env b args w)) as H.
  simpl in H. rewrite external_saved in H. apply H. intros _.
  unfold backendSaved. simpl.
  by rewrite savedFiles_saved, backendCalls_saved, app_nil_r.
Qed.

Lemma acts_unlink env statusPath path w :
  acts env statusPath w [UnlinkCalled path] (unlinkSync env path w).1.
Proof.
  by apply (acts_quiet env statusPath w [UnlinkCalled path]);
    [apply quiet_unlink|].
Qed.

Lemma acts_cleanupLoop env statusPath refs : forall w,
  acts env statusPath w (UnlinkCalled <$> refs)
    (cleanupLoop env statusPath refs w).
Proof.
  induction refs as [|refPath rest IH]; intros w; simpl; [apply acts_refl|].
  eapply (acts_seq env statusPath w [UnlinkCalled refPath]); [|apply IH].
  pose proof (acts_unlink env statusPath refPath w) as Hunlink.
  destruct (unlinkSync env refPath w) as [w0 [[]|e]]; simpl in Hunlink;
    (eapply acts_then; [exact Hunlink | apply acts_log]).
Qed.

Lemma referenceRequests_calls env prompt outputBasePath views model calls :
  (forall w, exists evs,
     quiet w evs
       (generateReferenceImages env prompt outputBasePath views model w).1
     /\ external evs = (ImageRequested <$> calls)) ->
  referenceRequests env prompt outputBasePath views model = calls.
Proof.
  intros H. unfold referenceRequests.
  destruct (H freshWorld) as (evs & (Htrace & _) & Hext).
  rewrite Htrace. simpl. by apply external_requests.
Qed.

(** The requests of the reference generator do not depend on the world
    it is started in. *)
Lemma generateReferenceImages_acts env statusPath prompt outputBasePath views
    model w :
  let calls := referenceRequests env prompt outputBasePath views model in
  acts env statusPath w (ImageRequested <$> calls)
    (generateReferenceImages env prompt outputBasePath views model w).1
  /\ (generateReferenceImages env prompt outputBasePath views model w).2
     = savedByCalls env 0 calls
  /\ length calls = length views
  /\ Forall (fun call =>
               gi_provider call = model
               /\ exists view,
                    gi_outputPath call
                    = replace_ext outputBasePath
                        ("_ref_" +:+ view_name view +:+ ".png")) calls.
Proof.
  cbv zeta.
  destruct (referenceLoop_calls env prompt outputBasePath model
              (arraySort frontFirst views) 0 [])
    as (calls & Hlen & Hcalls & Hrun).
  rewrite (referenceRequests_calls env prompt outputBasePath views model calls).
  2: { intros w0. by destruct (Hrun w0) as (_ & _ & Hevs). }
  unfold generateReferenceImages.
  destruct (Hrun w) as (Hout & _ & evs & Hquiet & Hext).
  rewrite arraySort_length in Hlen.
  split.
  { rewrite <- Hext. apply acts_quiet; [done|].
    rewrite <- imageCalls_external, Hext, imageCalls_requested.
    intros ->. symmetry in Hlen. apply nil_length_inv in Hlen.
    destruct Hquiet as [Htrace _]. rewrite Hlen in Htrace. simpl in Htrace.
    rewrite <- (app_nil_r (trace w)) in Htrace at 1.
    apply app_inv_head in Htrace. by subst evs. }
  split; [done|]. split; [done|].
  apply Forall_lookup. intros k call Hcall.
  destruct (lookup_lt_is_Some_2 (arraySort frontFirst views) k) as [view Hview].
  { rewrite arraySort_length, <- Hlen. by eapply lookup_lt_Some. }
  rewrite (Hcalls k view Hview) in Hcall. injection Hcall as <-.
  split; [done | by exists view].
Qed.

(** The variant a validated request is run with is one the table
    permits for its model. *)
Lemma actualVariantOf_permitted o n :
  validate3DModelOptions o = Return tt ->
  exists m vs,
    model o = Present m
    /\ AVAILABLE_VARIANTS !! m = Some vs
    /\ actualVariantOf o n ∈ vs.
Proof.
  intros Hvalid.
  destruct (validated_inv o Hvalid)
    as (m & vs & out & Hm & Hvs & _ & _ & Hvariant & _).
  exists m, vs. split; [done|]. split; [done|].
  unfold actualVariantOf. rewrite Hm.
  destruct (variant o) as [| |v] eqn:Hv; simpl.
  3: { destruct v as [|c v]; simpl; [|by apply Hvariant]. clear Hvariant.
       apply available_inv in Hvs.
       destruct Hvs as [[-> ->]|[[-> ->]|[[-> ->]|[[-> ->]|[-> ->]]]]];
         unfold selectModelVariant; simpl; try destruct (_ <=? 1); in_list. }
  all: clear Hvariant; apply available_inv in Hvs;
    destruct Hvs as [[-> ->]|[[-> ->]|[[-> ->]|[[-> ->]|[-> ->]]]]];
    unfold selectModelVariant; simpl; try destruct (_ <=? 1); in_list.
Qed.

(** The [switch] of the background task calls the backend of the model
    and variant, once, on the arguments of the request. *)
Lemma dispatch_acts env statusPath o m vs v inputs w :
  model o = Present m ->
  AVAILABLE_VARIANTS !! m = Some vs ->
  v ∈ vs ->
  exists b,
    acts env statusPath w [BackendCalled b (backendArgsFor o b inputs)]
      (dispatch env statusPath o v inputs w).1
    /\ (dispatch env statusPath o v inputs w).2
       = backend env b (backendArgsFor o b inputs)
    /\ backendFamily b = m
    /\ backendVariant b = v.
Proof.
  intros Hm Hvs Hv. unfold dispatch. rewrite Hm. cbv zeta.
  apply available_inv in Hvs.
  destruct Hvs as [[-> ->]|[[-> ->]|[[-> ->]|[[-> ->]|[-> ->]]]]];
    repeat (apply elem_of_cons in Hv as [-> | Hv];
            [ simpl;
              lazymatch goal with
              | |- context [backend env ?b0 _] => exists b0
              end;
              (split; [ first [ apply (acts_backend env)
                              | eapply acts_after;
                                [ apply acts_update | apply (acts_backend env) ] ]
                      | by repeat split ])
            | ]);
    by apply elem_of_nil in Hv.
Qed.

Lemma callModel_acts env statusPath o m vs v inputs w :
  model o = Present m ->
  AVAILABLE_VARIANTS !! m = Some vs ->
  v ∈ vs ->
  exists b,
    acts env statusPath w [BackendCalled b (backendArgsFor o b inputs)]
      (callModel env o v inputs w).1
    /\ (callModel env o v inputs w).2
       = backend env b (backendArgsFor o b inputs)
    /\ backendFamily b = m
    /\ backendVariant b = v.
Proof.
  intros Hm Hvs Hv. unfold callModel. rewrite Hm. cbv zeta.
  apply available_inv in Hvs.
  destruct Hvs as [[-> ->]|[[-> ->]|[[-> ->]|[[-> ->]|[-> ->]]]]];
    repeat (apply elem_of_cons in Hv as [-> | Hv];
            [ simpl;
              lazymatch goal with
              | |- context [backend env ?b0 _] => exists b0
              end;
              (split; [ apply (acts_backend env) | by repeat split ])
            | ]);
    by apply elem_of_nil in Hv.
Qed.

Lemma acts_newEvents env statusPath w xs w' :
  acts env statusPath w xs w' ->
  external (newEvents w w') = xs
  /\ imageCalls (newEvents w w') = imageCalls xs
  /\ backendCalls (newEvents w w') = backendCalls xs
  /\ unlinkCalls (newEvents w w') = unlinkCalls xs.
Proof.
  intros (evs & Htrace & <- & _).
  rewrite (newEvents_app w w' evs Htrace).
  by rewrite imageCalls_external, backendCalls_external,
    unlinkCalls_external.
Qed.

Lemma prepareReferences_acts env statusPath o out w :
  outputPath o = Present out ->
  acts env statusPath w (ImageRequested <$> jobRequests env o)
    (prepareReferences env statusPath o (initialLocals o) w).1.1
  /\ (prepareReferences env statusPath o (initialLocals o) w).1.2
     = {| finalInputPaths := jobInputs env o;
          generatedReferences := savedByCalls env 0 (jobRequests env o) |}
  /\ (prepareReferences env statusPath o (initialLocals o) w).2 = Return tt.
Proof.
  intros Hout.
  unfold prepareReferences, jobInputs, jobRequests, wantsReferences,
    plannedViews, initialLocals.
  cbn [finalInputPaths generatedReferences].
  destruct (_ && _ && _); [|by split; [apply acts_refl|]].
  rewrite Hout. cbn [read show].
  match goal with
  | |- context [generateReferenceImages ?e ?a ?b ?c ?d ?w0] =>
      destruct (generateReferenceImages_acts e statusPath a b c d w0)
        as (Hacts & Hrefs & _);
      destruct (generateReferenceImages e a b c d w0) as [w3 refs]
  end.
  simpl in Hacts, Hrefs. subst refs. simpl.
  split; [|done].
  eapply acts_then; [|apply acts_log].
  eapply acts_after; [|exact Hacts].
  eapply acts_after; [apply acts_log | apply acts_update].
Qed.

Lemma requestModel_acts env statusPath o locals m vs w :
  model o = Present m ->
  AVAILABLE_VARIANTS !! m = Some vs ->
  actualVariantOf o (length (finalInputPaths locals)) ∈ vs ->
  exists b,
    acts env statusPath w [BackendCalled b (backendArgsFor o b (finalInputPaths locals))]
      (requestModel env statusPath o locals w).1
    /\ (requestModel env statusPath o locals w).2
       = backend env b (backendArgsFor o b (finalInputPaths locals))
    /\ backendFamily b = m
    /\ backendVariant b = actualVariantOf o (length (finalInputPaths locals)).
Proof.
  intros Hm Hvs Hv. unfold requestModel. cbv zeta.
  fold (actualVariantOf o (length (finalInputPaths locals))).
  match goal with
  | |- context [dispatch env statusPath o ?v ?i ?w0] =>
      destruct (dispatch_acts env statusPath o m vs v i w0 Hm Hvs Hv)
        as (b & Hacts & Hout & Hfamily & Hvariant)
  end.
  exists b. split; [|done].
  eapply acts_after; [|exact Hacts].
  eapply acts_after; [|apply acts_update].
  eapply acts_after; [apply acts_update | apply acts_log].
Qed.

Lemma finishJob_acts env statusPath o locals r w :
  acts env statusPath w [] (finishJob env statusPath o locals r w).
Proof.
  unfold finishJob. cbv zeta.
  eapply acts_then; [|apply acts_log].
  eapply acts_after; [apply acts_update|].
  eapply acts_after; [apply (acts_tick env) | apply acts_update].
Qed.

Lemma catchBlock_acts env statusPath e w :
  acts env statusPath w [] (catchBlock env statusPath e w).
Proof.
  unfold catchBlock.
  eapply acts_after; [apply (acts_tick env)|].
  eapply acts_after; [apply acts_update | apply acts_log].
Qed.

Lemma finallyBlock_acts env statusPath o locals w :
  acts env statusPath w
    (UnlinkCalled <$> (if read_or true (cleanupReferences o)
                       then generatedReferences locals else []))
    (finallyBlock env statusPath o locals w).
Proof.
  unfold finallyBlock.
  destruct (read_or true (cleanupReferences o)); simpl;
    [|apply acts_refl].
  destruct (generatedReferences locals) as [|ref refs] eqn:Hrefs;
    [apply acts_refl|].
  cbn [length Nat.ltb Nat.leb].
  eapply acts_after; [apply acts_log | apply acts_cleanupLoop].
Qed.

Lemma finallyBlock_nothing_generated env statusPath o locals w :
  generatedReferences locals = [] ->
  finallyBlock env statusPath o locals w = w.
Proof.
  unfold finallyBlock. intros ->. simpl. by rewrite andb_false_r.
Qed.

(** The [try] block: nothing when validation throws; otherwise the
    image requests of the request and one backend call. *)
Lemma tryBlock_acts env statusPath o w :
  let run := tryBlock env statusPath o (initialLocals o) w in
  match validate3DModelOptions o with
  | Throw e =>
      acts env statusPath w [] run.1.1 /\ run.1.2 = initialLocals o /\ run.2 = Throw e
  | Return _ =>
      exists b,
        acts env statusPath w ((ImageRequested <$> jobRequests env o)
                ++ [BackendCalled b (backendArgsFor o b (jobInputs env o))])
          run.1.1
        /\ run.1.2
           = {| finalInputPaths := jobInputs env o;
                generatedReferences :=
                  savedByCalls env 0 (jobRequests env o) |}
        /\ run.2 = (backend env b (backendArgsFor o b (jobInputs env o))
                    ≫= fun _ => Return tt)
        /\ model o = Present (backendFamily b)
        /\ backendVariant b = actualVariantOf o (length (jobInputs env o))
        /\ (forall r,
              backend env b (backendArgsFor o b (jobInputs env o)) = Return r ->
              exists w5,
                run.1.1 = finishJob env statusPath o run.1.2 r w5)
  end.
Proof.
  intros run. subst run. unfold tryBlock. cbv zeta.
  destruct (validate3DModelOptions o) as [[]|e] eqn:Hvalid.
  2: { split; [|done]. simpl.
       eapply acts_after; [apply acts_update | apply acts_log]. }
  destruct (validated_inv o Hvalid)
    as (m0 & vs0 & out & _ & _ & Hout & _).
  destruct (actualVariantOf_permitted o (length (jobInputs env o)) Hvalid)
    as (m & vs & Hm & Hvs & Hv).
  match goal with
  | |- context [prepareReferences env statusPath o ?l ?w0] =>
      destruct (prepareReferences_acts env statusPath o out w0 Hout)
        as (HactsP & HlocalsP & HoutP);
      destruct (prepareReferences env statusPath o l w0)
        as [[w4 locals1] outP] eqn:HP
  end.
  simpl in HactsP, HlocalsP, HoutP. subst locals1 outP.
  match goal with
  | |- context [requestModel env statusPath o ?l ?w0] =>
      destruct (requestModel_acts env statusPath o l m vs w0 Hm Hvs Hv)
        as (b & HactsR & HoutR & Hfamily & Hvariant);
      destruct (requestModel env statusPath o l w0) as [w5 outR]
  end.
  simpl in HactsR, HoutR, Hvariant. subst outR.
  exists b. rewrite Hfamily.
  assert (Hto5 : acts env statusPath w ((ImageRequested <$> jobRequests env o)
                         ++ [BackendCalled b
                               (backendArgsFor o b (jobInputs env o))]) w5).
  { eapply acts_seq; [|exact HactsR].
    eapply acts_after; [|exact HactsP].
    eapply acts_after; [|apply acts_update].
    eapply acts_after; [apply acts_update | apply acts_log]. }
  destruct (backend env b (backendArgsFor o b (jobInputs env o)))
    as [r|e]; simpl.
  - split; [eapply acts_then; [exact Hto5 | apply finishJob_acts]|].
    repeat split; try done. intros r' [= <-]. by exists w5.
  - split; [exact Hto5|]. by repeat split.
Qed.

(** The whole job. *)
Lemma generate3DModelAsync_acts env o statusPath w :
  let w' := (generate3DModelAsync env o statusPath w).1 in
  match validate3DModelOptions o with
  | Throw e => acts env statusPath w [] w'
  | Return _ =>
      exists b,
        acts env statusPath w ((ImageRequested <$> jobRequests env o)
                ++ [BackendCalled b (backendArgsFor o b (jobInputs env o))]
                ++ (UnlinkCalled <$>
                      (if read_or true (cleanupReferences o)
                       then savedByCalls env 0 (jobRequests env o)
                       else []))) w'
        /\ model o = Present (backendFamily b)
        /\ backendVariant b = actualVariantOf o (length (jobInputs env o))
        /\ (tryOutcome env o statusPath w).1.2
           = {| finalInputPaths := jobInputs env o;
                generatedReferences :=
                  savedByCalls env 0 (jobRequests env o) |}
        /\ (tryOutcome env o statusPath w).2
           = (backend env b (backendArgsFor o b (jobInputs env o))
              ≫= fun _ => Return tt)
        /\ (forall r,
              backend env b (backendArgsFor o b (jobInputs env o)) = Return r ->
              exists w5,
                (tryOutcome env o statusPath w).1.1
                = finishJob env statusPath o
                    (tryOutcome env o statusPath w).1.2 r w5)
  end.
Proof.
  intros w'. subst w'. unfold generate3DModelAsync, backgroundTask, tryOutcome.
  simpl.
  fold (started env statusPath w). fold (initialLocals o).
  pose proof (tryBlock_acts env statusPath o (started env statusPath w))
    as Htry.
  cbv zeta in Htry.
  destruct (tryBlock env statusPath o (initialLocals o)
              (started env statusPath w)) as [[w1 locals] outcome].
  simpl in Htry.
  assert (Hstart : acts env statusPath w [] (started env statusPath w))
    by apply acts_update.
  destruct (validate3DModelOptions o) as [[]|e].
  - destruct Htry as (b & Hacts & -> & Hout & Hfamily & Hvariant & Hdone).
    exists b. split; [|done].
    rewrite ?cons_middle, app_assoc.
    eapply acts_seq; [|apply finallyBlock_acts].
    eapply acts_after; [exact Hstart|].
    destruct outcome as [u|e]; [exact Hacts|].
    eapply acts_then; [exact Hacts | apply catchBlock_acts].
  - destruct Htry as (Hacts & -> & ->).
    rewrite finallyBlock_nothing_generated by done.
    eapply acts_after; [exact Hstart|].
    eapply acts_then; [exact Hacts | apply catchBlock_acts].
Qed.

Lemma replace_ext_no_dot s repl : has_dot s = false -> replace_ext s repl = s.
Proof.
  intros Hs. unfold replace_ext.
  assert (Hnone : replace_ext_match s repl = None); [|by rewrite Hnone].
  induction s as [|c s IH]; [done|]. simpl in *.
  apply orb_false_iff in Hs as [Hc Hs]. by rewrite (IH Hs), Hc.
Qed.


(** * The status file of a job *)

Lemma grows_refl w : grows w w.
Proof. exists []. by rewrite app_nil_r. Qed.

Lemma grows_trans w w1 w2 : grows w w1 -> grows w1 w2 -> grows w w2.
Proof.
  intros [evs1 H1] [evs2 H2]. exists (evs1 ++ evs2).
  by rewrite H2, H1, app_assoc.
Qed.

Lemma newEvents_seq w w1 w2 :
  grows w w1 -> grows w1 w2 ->
  newEvents w w2 = newEvents w w1 ++ newEvents w1 w2.
Proof.
  intros [evs1 H1] [evs2 H2].
  rewrite (newEvents_app w w1 evs1 H1), (newEvents_app w1 w2 evs2 H2).
  apply newEvents_app. by rewrite H2, H1, app_assoc.
Qed.

Lemma acts_grows env statusPath w xs w' : acts env statusPath w xs w' -> grows w w'.
Proof. intros (evs & Htrace & _). by exists evs. Qed.

Lemma generate3DModelAsync_unfold env o statusPath w :
  (generate3DModelAsync env o statusPath w).1
  = finallyBlock env statusPath o (tryOutcome env o statusPath w).1.2
      (beforeCleanup env o statusPath w).
Proof.
  unfold generate3DModelAsync, backgroundTask, beforeCleanup, tryOutcome,
    initialLocals, started. simpl.
  by destruct (tryBlock _ _ _ _ _) as [[w1 locals] [u|e]].
Qed.

(** ** The status store *)

Lemma inUse_now env statusPath w s :
  inUse statusPath w s -> inUse statusPath (now env w).2 s.
Proof. done. Qed.

Lemma inUse_writeFileSync statusPath r w :
  is_Some (logs r) -> inUse statusPath (writeFileSync statusPath r w) r.
Proof. intros Hl. split; [|done]. simpl. apply lookup_insert_eq. Qed.

Lemma inUse_statusFile statusPath w s :
  inUse statusPath w s -> statusFile statusPath w = Some s.
Proof. intros [Hs _]. unfold statusFile. by rewrite Hs. Qed.

Lemma inUse_unique statusPath w s s' :
  inUse statusPath w s -> inUse statusPath w s' -> s = s'.
Proof. intros [Hs _] [Hs' _]. congruence. Qed.

Lemma logs_assign s upd :
  set_logs upd = Absent -> logs (assign s upd) = logs s.
Proof. simpl. by intros ->. Qed.

Lemma logs_pushLog s line lines :
  logs s = Some lines -> logs (pushLog s line) = Some (lines ++ [line]).
Proof. simpl. by intros ->. Qed.

Lemma is_Some_logs_pushLog s line :
  is_Some (logs s) -> is_Some (logs (pushLog s line)).
Proof. intros [lines Hl]. rewrite (logs_pushLog _ _ _ Hl). by eexists. Qed.

Lemma mark_assign s upd st pr :
  mark s = Some (st, pr) ->
  set_status upd <> Undefined ->
  set_progress upd <> Undefined ->
  mark (assign s upd)
  = Some (read_or st (set_status upd), read_or pr (set_progress upd)).
Proof.
  unfold mark. simpl.
  destruct (status s) as [st0|]; [|done].
  destruct (progress s) as [pr0|]; [|done]. simpl. intros [= -> ->].
  by destruct (set_status upd), (set_progress upd).
Qed.

Lemma mark_pushLog s line : mark (pushLog s line) = mark s.
Proof. done. Qed.

(** ** The lifecycle of a job *)

#[local] Instance follows_transitive : Transitive follows.
Proof.
  intros a b c (Hr1 & Ht1 & Hp1) (Hr2 & Ht2 & Hp2).
  split; [lia|]. split.
  - intros Ha. rewrite (Ht2 ltac:(rewrite (Ht1 Ha); exact Ha)). by apply Ht1.
  - destruct Hp2 as [Hp2 | Hp2]; [|by right].
    destruct Hp1 as [Hp1 | Hp1]; [left; lia|].
    right. rewrite (Ht2 (or_intror Hp1)). exact Hp1.
Qed.

Ltac follows_step :=
  split; [ simpl; lia
         | split; [ intros [H | H]; first [ discriminate H | reflexivity ]
                  | first [ left; simpl; lia | right; reflexivity ] ] ].

Ltac lawful :=
  simpl;
  repeat first [ apply Sorted_nil | apply Sorted_cons
               | apply HdRel_nil | apply HdRel_cons ];
  follows_step.

Section StatusStore.
Variable env : Env.
Variable statusPath : string.
Hypothesis Hwritable : forall n, writable env n statusPath = true.

Lemma writeStatus_writes r w :
  writeStatus env statusPath r w = writeFileSync statusPath r w.
Proof. unfold writeStatus. by rewrite Hwritable. Qed.

Lemma updateStatusFile_existing upd w s :
  inUse statusPath w s ->
  updateStatusFile env statusPath upd w
  = writeFileSync statusPath (assign s upd) w.
Proof.
  intros [Hs _]. unfold updateStatusFile. by rewrite Hs, writeStatus_writes.
Qed.

Lemma addLogToStatus_existing msg w s :
  inUse statusPath w s ->
  addLogToStatus env statusPath msg w
  = writeFileSync statusPath
      (pushLog s ("[" +:+ isoTime env (ticks w) +:+ "] " +:+ msg))
      (now env w).2.
Proof.
  intros [Hs [lines Hl]]. unfold addLogToStatus. rewrite Hs, Hl. simpl.
  by rewrite writeStatus_writes.
Qed.

Lemma updateStatusFile_json upd w s :
  disk w !! statusPath = Some (StatusJson s) ->
  updateStatusFile env statusPath upd w
  = writeFileSync statusPath (assign s upd) w.
Proof. intros Hs. unfold updateStatusFile. by rewrite Hs, writeStatus_writes. Qed.

Lemma updateStatusFile_blob upd w :
  disk w !! statusPath = Some Blob ->
  updateStatusFile env statusPath upd w = w.
Proof. intros Hs. unfold updateStatusFile. by rewrite Hs. Qed.

Lemma addLogToStatus_json msg w s :
  disk w !! statusPath = Some (StatusJson s) ->
  addLogToStatus env statusPath msg w
  = match logs s with
    | Some _ =>
        writeFileSync statusPath
          (pushLog s ("[" +:+ isoTime env (ticks w) +:+ "] " +:+ msg))
          (now env w).2
    | None => w
    end.
Proof.
  intros Hs. unfold addLogToStatus. rewrite Hs.
  destruct (logs s); [|done]. simpl. by rewrite writeStatus_writes.
Qed.

Lemma addLogToStatus_blob msg w :
  disk w !! statusPath = Some Blob ->
  addLogToStatus env statusPath msg w = w.
Proof. intros Hs. unfold addLogToStatus. by rewrite Hs. Qed.

(** An update finds something else than a JSON object and gives up, or
    it writes a record with the fields of the update. *)
Lemma updateStatusFile_cases upd w :
  (disk w !! statusPath = Some Blob
   /\ updateStatusFile env statusPath upd w = w)
  \/ exists base w0,
       updateStatusFile env statusPath upd w
       = writeFileSync statusPath (assign base upd) w0.
Proof.
  unfold updateStatusFile.
  destruct (disk w !! statusPath) as [[s|]|]; [right|by left|right].
  - exists s, w. by rewrite writeStatus_writes.
  - simpl. rewrite writeStatus_writes. by do 2 eexists.
Qed.

(** The first write of a job: on a usable status path it succeeds, and
    leaves a record that is the old one, or a new one, with the fields
    of the update. *)
Lemma updateStatusFile_first upd w :
  usable env statusPath w ->
  set_logs upd = Absent ->
  exists r0 w0,
    updateStatusFile env statusPath upd w = writeFileSync statusPath r0 w0
    /\ trace w0 = trace w
    /\ disk w0 = disk w
    /\ is_Some (logs r0)
    /\ (forall old, disk w !! statusPath = Some (StatusJson old) ->
          r0 = assign old upd /\ w0 = w)
    /\ (disk w !! statusPath = None ->
          id r0 = assigned (Some (basename env statusPath ".json"))
                    (set_id upd)
          /\ startTime r0 = assigned (Some (isoTime env (ticks w)))
                              (set_startTime upd)
          /\ error r0 = assigned None (set_error upd)
          /\ logs r0 = Some [])
    /\ status r0 = assigned (status r0) (set_status upd)
    /\ progress r0 = assigned (progress r0) (set_progress upd).
Proof.
  intros [_ Husable] Hlogs. unfold updateStatusFile.
  destruct (disk w !! statusPath) as [[old|]|] eqn:Hfile; [|done|].
  - exists (assign old upd), w. rewrite writeStatus_writes.
    split; [done|]. split; [done|]. split; [done|].
    split; [by rewrite logs_assign|].
    split; [by intros old' [= <-]|]. split; [done|].
    simpl. by destruct (set_status upd), (set_progress upd).
  - eexists _, (now env w).2. simpl. rewrite writeStatus_writes.
    split; [reflexivity|]. simpl. rewrite Hlogs.
    split; [done|]. split; [done|]. split; [by eexists|].
    split; [done|]. split; [done|].
    by destruct (set_status upd), (set_progress upd).
Qed.

(** ** Reading the run of a job *)

Lemma runs_refl m w : runs statusPath m w [] m w.
Proof.
  split; [by exists []; rewrite app_nil_r|].
  intros (s & Hs & Hm) _. unfold newEvents. rewrite drop_all.
  split; [done | by exists s].
Qed.

Lemma runs_seq m w ms1 m1 w1 ms2 m2 w2 :
  runs statusPath m w ms1 m1 w1 ->
  runs statusPath m1 w1 ms2 m2 w2 ->
  runs statusPath m w (ms1 ++ ms2) m2 w2.
Proof.
  intros [Hg1 H1] [Hg2 H2].
  split; [by eapply grows_trans|].
  intros Hm Hleft. rewrite (newEvents_seq w w1 w2) in * by done.
  apply leftAlone_app in Hleft as [Hleft1 Hleft2].
  destruct (H1 Hm Hleft1) as (Hms1 & Hm1).
  destruct (H2 Hm1 Hleft2) as (Hms2 & Hm2).
  by rewrite marks_app, Hms1, Hms2, fmap_app.
Qed.

Lemma runs_quiet m w evs w' : quiet w evs w' -> runs statusPath m w [] m w'.
Proof.
  intros (Htrace & Hnone & _ & Hsame).
  split; [by exists evs|].
  rewrite (newEvents_app _ _ _ Htrace).
  intros (s & [Hs Hl] & Hm) Hleft. unfold marks. rewrite Hnone.
  split; [done|]. exists s. split; [|done].
  split; [|done]. by rewrite Hsame.
Qed.

Lemma runs_stored m w r m' :
  mark r = Some m' -> is_Some (logs r) ->
  runs statusPath m w [m'] m' (writeFileSync statusPath r w).
Proof.
  intros Hr Hl. split; [by exists [StatusWritten r]|].
  rewrite (newEvents_app _ (writeFileSync statusPath r w) [StatusWritten r])
    by done.
  intros _ _. unfold marks. simpl. rewrite Hr. split; [done|].
  exists r. split; [by apply inUse_writeFileSync | done].
Qed.

Lemma runs_guarded m w ms m' w' :
  grows w w' ->
  (forall s, inUse statusPath w s -> mark s = Some m ->
             runs statusPath m w ms m' w') ->
  runs statusPath m w ms m' w'.
Proof.
  intros Hg H. split; [done|].
  intros (s & Hs & Hm). destruct (H s Hs Hm) as [_ Hrun].
  apply Hrun. by exists s.
Qed.

Lemma runs_update upd w s p :
  set_logs upd = Absent ->
  set_status upd <> Undefined ->
  set_progress upd <> Undefined ->
  runs statusPath (s, p) w
    [(read_or s (set_status upd), read_or p (set_progress upd))]
    (read_or s (set_status upd), read_or p (set_progress upd))
    (updateStatusFile env statusPath upd w).
Proof.
  intros Hlogs Hs Hp. apply runs_guarded.
  { eapply acts_grows, acts_update. }
  intros r Hr Hm. rewrite (updateStatusFile_existing _ _ _ Hr).
  apply runs_stored.
  - by apply mark_assign.
  - rewrite logs_assign by done. apply Hr.
Qed.

Lemma runs_log msg w m :
  runs statusPath m w [m] m (addLogToStatus env statusPath msg w).
Proof.
  apply runs_guarded.
  { eapply acts_grows, acts_log. }
  intros r Hr Hm. rewrite (addLogToStatus_existing _ _ _ Hr).
  apply (runs_seq m w [] m (now env w).2 [m]).
  - apply (runs_quiet m w []), quiet_tick.
  - apply runs_stored; [done|]. apply is_Some_logs_pushLog, Hr.
Qed.

Lemma runs_tick w m : runs statusPath m w [] m (now env w).2.
Proof. apply (runs_quiet m w []), quiet_tick. Qed.

Lemma runs_clock w m :
  runs statusPath m w [] m
    {| disk := disk w; ticks := S (ticks w); trace := trace w |}.
Proof. apply (runs_tick w m). Qed.

Lemma runs_references prompt outputBasePath views model w m :
  runs statusPath m w [] m
    (generateReferenceImages env prompt outputBasePath views model w).1.
Proof.
  unfold generateReferenceImages.
  destruct (referenceLoop_calls env prompt outputBasePath model
              (arraySort frontFirst views) 0 [])
    as (calls & _ & _ & Hrun).
  destruct (Hrun w) as (_ & _ & evs & Hquiet & _).
  by apply (runs_quiet m w evs).
Qed.

Lemma runs_backend b args w m :
  runs statusPath m w [] m (callBackend env b args w).1.
Proof. eapply runs_quiet, quiet_callBackend. Qed.

Lemma runs_unlink path w m :
  runs statusPath m w [] m (unlinkSync env path w).1.
Proof. eapply runs_quiet, quiet_unlink. Qed.

Lemma runs_cleanupLoop refs : forall w m,
  runs statusPath m w (replicate (length refs) m) m
    (cleanupLoop env statusPath refs w).
Proof.
  induction refs as [|refPath rest IH]; intros w m; simpl.
  - apply runs_refl.
  - eapply (runs_seq m w [m] m); [|apply IH].
    pose proof (runs_unlink refPath w m) as Hunlink.
    destruct (unlinkSync env refPath w) as [w0 c]. simpl in Hunlink.
    eapply (runs_seq m w [] m w0 [m]); [exact Hunlink|].
    destruct c as [[]|e]; apply runs_log.
Qed.

Ltac run_step :=
  first [ simple apply runs_update; done | simple apply runs_log
        | simple apply runs_tick | simple apply runs_clock
        | simple apply runs_references
        | simple apply runs_backend ].

Ltac run_chain :=
  first [ simple apply runs_refl
        | run_step
        | eapply runs_seq; [ | run_step ]; [ run_chain ] ].

Lemma runs_eq m w ms m1 w' ms' m1' :
  runs statusPath m w ms m1 w' -> ms = ms' -> m1 = m1' ->
  runs statusPath m w ms' m1' w'.
Proof. by intros H <- <-. Qed.

Ltac run_exact := eapply runs_eq; [ run_chain | reflexivity | reflexivity ].

(** The [switch] writes at most the 50 % record. *)
Lemma dispatch_runs o actualVariant inputs w p :
  exists ms m',
    runs statusPath (processing, p) w ms m'
      (dispatch env statusPath o actualVariant inputs w).1
    /\ ((ms = [] /\ m' = (processing, p))
        \/ (ms = [(processing, 50)] /\ m' = (processing, 50))).
Proof.
  unfold dispatch. cbv zeta.
  repeat match goal with
         | |- context [if ?c then _ else _] => destruct c
         end;
    do 2 eexists.
  all: split.
  all: cbn [fst].
  all: try run_chain.
  all: auto.
Qed.


Lemma prepareReferences_runs o locals w :
  exists ms m',
    runs statusPath (processing, 10) w ms m'
      (prepareReferences env statusPath o locals w).1.1
    /\ ((ms = [] /\ m' = (processing, 10))
        \/ (ms = [(processing, 10); (processing, 20)]
            /\ m' = (processing, 20))
        \/ (ms = [(processing, 10); (processing, 20); (processing, 20)]
            /\ m' = (processing, 20))).
Proof.
  unfold prepareReferences.
  destruct (_ && _ && _).
  - destruct (read (outputPath o)) as [out|].
    + match goal with
      | |- context [generateReferenceImages ?e ?a ?b ?c ?d ?w0] =>
          pose proof (runs_references a b c d w0) as Hrefs;
          destruct (generateReferenceImages e a b c d w0) as [w3 refs]
      end.
      simpl in Hrefs. do 2 eexists. split.
      * simpl. eapply runs_seq; [ | simple apply runs_log ].
        eapply runs_seq; [ | simple apply Hrefs ]. run_chain.
      * simpl. auto.
    + do 2 eexists. split; [ simpl; run_chain | simpl; auto ].
  - do 2 eexists. split; [ simpl; run_chain | simpl; auto ].
Qed.

Lemma requestModel_runs o locals w p :
  exists ms m',
    runs statusPath (processing, p) w
      ([(processing, 30); (processing, 30); (processing, 40)] ++ ms) m'
      (requestModel env statusPath o locals w).1
    /\ ((ms = [] /\ m' = (processing, 40))
        \/ (ms = [(processing, 50)] /\ m' = (processing, 50))).
Proof.
  unfold requestModel. cbv zeta.
  match goal with
  | |- context [dispatch ?e ?s ?o0 ?v ?i ?w0] =>
      destruct (dispatch_runs o0 v i w0 40) as (ms & m' & Hruns & Hshape)
  end.
  exists ms, m'. split; [|done].
  eapply (runs_seq _ _ [(processing, 30); (processing, 30);
                        (processing, 40)]); [ | exact Hruns ].
  run_exact.
Qed.

Lemma finishJob_runs o locals r w p :
  runs statusPath (processing, p) w
    [(processing, 90); (completed, 100); (completed, 100)]
    (completed, 100)
    (finishJob env statusPath o locals r w).
Proof. unfold finishJob, now. cbv zeta beta iota. run_exact. Qed.

Lemma catchBlock_runs e w m :
  runs statusPath m w [(failed, 0); (failed, 0)] (failed, 0)
    (catchBlock env statusPath e w).
Proof.
  unfold catchBlock, now. cbv zeta beta iota. destruct m as [s p]. run_exact.
Qed.

Lemma finallyBlock_runs o locals w m :
  runs statusPath m w
    (if read_or true (cleanupReferences o)
        && (0 <? length (generatedReferences locals))%nat
     then replicate (S (length (generatedReferences locals))) m else [])
    m (finallyBlock env statusPath o locals w).
Proof.
  unfold finallyBlock.
  destruct (_ && _); [|apply runs_refl].
  eapply (runs_seq m w [m] m); [ apply runs_log | apply runs_cleanupLoop ].
Qed.

(** The records of the [try] block climb from 5 to the record the job
    ends with. *)
Lemma tryBlock_runs o locals w m :
  exists ms m1,
    runs statusPath m w ms m1 (tryBlock env statusPath o locals w).1.1
    /\ Sorted follows
         ((pending, 0) :: ms
          ++ [endMark (tryBlock env statusPath o locals w).2])
    /\ (forall u, (tryBlock env statusPath o locals w).2 = Return u ->
                  m1 = (completed, 100)).
Proof.
  destruct m as [s p]. unfold tryBlock. cbv zeta.
  destruct (validate3DModelOptions o) as [[]|e].
  2: { do 2 eexists. split; [simpl; run_chain|]. split; [lawful | done]. }
  match goal with
  | |- context [prepareReferences ?e ?sp ?o0 ?l ?w0] =>
      destruct (prepareReferences_runs o0 l w0)
        as (msP & mP & HrunsP & HshapeP);
      destruct (prepareReferences e sp o0 l w0) as [[w4 locals1] outP]
  end.
  simpl in HrunsP.
  assert (Hto4 : runs statusPath (s, p) w
                   ([(processing, 5); (processing, 5); (processing, 10)] ++ msP)
                   mP w4).
  { eapply (runs_seq _ _ [(processing, 5); (processing, 5);
                          (processing, 10)]); [ | exact HrunsP ].
    run_exact. }
  destruct outP as [[]|e].
  2: { do 2 eexists. split; [exact Hto4|]. split; [|done].
       destruct HshapeP as [[-> ->] | [[-> ->] | [-> ->]]]; lawful. }
  assert (exists q, mP = (processing, q)) as [q ->].
  { destruct HshapeP as [[_ ->] | [[_ ->] | [_ ->]]]; by eexists. }
  destruct (requestModel_runs o locals1 w4 q)
    as (msR & mR & HrunsR & HshapeR).
  destruct (requestModel env statusPath o locals1 w4) as [w5 [r|e]];
    simpl in HrunsR.
  - assert (exists q', mR = (processing, q')) as [q' ->].
    { destruct HshapeR as [[_ ->] | [_ ->]]; by eexists. }
    do 2 eexists. split.
    + simpl. eapply runs_seq; [ | apply finishJob_runs ].
      eapply runs_seq; [ exact Hto4 | exact HrunsR ].
    + split; [|done].
      destruct HshapeP as [[-> _] | [[-> _] | [-> _]]];
        destruct HshapeR as [[-> _] | [-> _]]; lawful.
  - do 2 eexists. split.
    + simpl. eapply runs_seq; [ exact Hto4 | exact HrunsR ].
    + split; [|done].
      destruct HshapeP as [[-> _] | [[-> _] | [-> _]]];
        destruct HshapeR as [[-> _] | [-> _]]; lawful.
Qed.

(** The first record of a job, on a status path that can be used. *)
Lemma started_runs w :
  usable env statusPath w ->
  exists r0,
    newEvents w (started env statusPath w) = [StatusWritten r0]
    /\ grows w (started env statusPath w)
    /\ inUse statusPath (started env statusPath w) r0
    /\ mark r0 = Some (pending, 0)
    /\ (forall old, disk w !! statusPath = Some (StatusJson old) ->
          r0 = assign old
                 (stageStatus pending 0 "Initializing 3D model generation..."))
    /\ (disk w !! statusPath = None ->
          id r0 = Some (basename env statusPath ".json")
          /\ startTime r0 = Some (isoTime env (ticks w))
          /\ error r0 = None
          /\ logs r0 = Some []).
Proof.
  intros Husable. unfold started.
  destruct (updateStatusFile_first
              (stageStatus pending 0 "Initializing 3D model generation...") w
              Husable eq_refl)
    as (r0 & w0 & -> & Htrace & Hdisk & Hlogs & Hold & Hnew & Hs & Hp).
  exists r0.
  assert (Hevs : trace (writeFileSync statusPath r0 w0)
                 = trace w ++ [StatusWritten r0]).
  { simpl. by rewrite Htrace. }
  split; [by apply newEvents_app|]. split; [by eexists|].
  split; [by apply inUse_writeFileSync|].
  split; [unfold mark; by rewrite Hs, Hp|].
  split; [intros old Hfile; by apply Hold|]. exact Hnew.
Qed.

(** The stages of a job: the first record, the [try] block, the [catch]
    block when the [try] block threw, the [finally] block. *)
Lemma generate3DModelAsync_stages o w :
  let w0 := started env statusPath w in
  let w1 := (tryOutcome env o statusPath w).1.1 in
  let w2 := beforeCleanup env o statusPath w in
  let w' := (generate3DModelAsync env o statusPath w).1 in
  grows w w0 /\ grows w0 w1 /\ grows w1 w2 /\ grows w2 w'
  /\ (leftAlone statusPath (newEvents w w') ->
      leftAlone statusPath (newEvents w0 w1)
      /\ leftAlone statusPath (newEvents w1 w2)
      /\ leftAlone statusPath (newEvents w2 w')).
Proof.
  intros w0 w1 w2 w'.
  assert (H0 : grows w w0) by (eapply acts_grows, acts_update).
  assert (H1 : grows w0 w1).
  { destruct (tryBlock_runs o (initialLocals o) w0 (pending, 0))
      as (ms & m1 & [Hg _] & _). exact Hg. }
  assert (H2 : grows w1 w2).
  { subst w2. unfold beforeCleanup. fold w1.
    destruct (tryOutcome env o statusPath w).2;
      [apply grows_refl | eapply acts_grows, catchBlock_acts]. }
  assert (H3 : grows w2 w').
  { subst w'. rewrite generate3DModelAsync_unfold.
    eapply acts_grows, finallyBlock_acts. }
  split; [done|]. split; [done|]. split; [done|]. split; [done|].
  intros Hleft.
  rewrite (newEvents_seq w w0 w') in Hleft
    by (try done; eauto using grows_trans).
  rewrite (newEvents_seq w0 w1 w') in Hleft
    by (try done; eauto using grows_trans).
  rewrite (newEvents_seq w1 w2 w') in Hleft by done.
  rewrite !leftAlone_app in Hleft. tauto.
Qed.

(** The whole job on a usable status path that is left alone: the
    [pending] record, the records of the [try] block, and then only
    records that read like the final one. *)
Lemma generate3DModelAsync_runs o w :
  usable env statusPath w ->
  let run := tryOutcome env o statusPath w in
  let w' := (generate3DModelAsync env o statusPath w).1 in
  leftAlone statusPath (newEvents w w') ->
  exists ms k,
    marks (newEvents w w')
    = (Some <$> (pending, 0) :: ms ++ replicate k (endMark run.2))
    /\ Sorted follows ((pending, 0) :: ms ++ [endMark run.2])
    /\ (exists found,
          inUse statusPath (beforeCleanup env o statusPath w) found
          /\ mark found = Some (endMark run.2))
    /\ exists left,
         inUse statusPath w' left /\ mark left = Some (endMark run.2).
Proof.
  intros Husable run w' Hleft. subst run w'.
  destruct (started_runs w Husable)
    as (r0 & Hevs0 & _ & Huse0 & Hmark0 & _).
  destruct (generate3DModelAsync_stages o w)
    as (Hg0 & Hg1 & Hg2 & Hg3 & Hparts).
  destruct (Hparts Hleft) as (Hleft1 & Hleft2 & Hleft3).
  rewrite (newEvents_seq w (started env statusPath w))
    by (try done; eauto using grows_trans).
  rewrite (newEvents_seq (started env statusPath w)
             (tryOutcome env o statusPath w).1.1)
    by (try done; eauto using grows_trans).
  rewrite (newEvents_seq (tryOutcome env o statusPath w).1.1
             (beforeCleanup env o statusPath w)) by done.
  rewrite Hevs0, !marks_app.
  destruct (tryBlock_runs o (initialLocals o) (started env statusPath w)
              (pending, 0))
    as (ms & m1 & [_ Hruns] & Hsorted & Hdone).
  fold (tryOutcome env o statusPath w) in Hruns, Hsorted, Hdone.
  destruct (Hruns (ex_intro _ r0 (conj Huse0 Hmark0)) Hleft1)
    as (Hmarks1 & s1 & Huse1 & Hmark1).
  rewrite Hmarks1.
  set (locals := (tryOutcome env o statusPath w).1.2).
  assert (Hfinal : (generate3DModelAsync env o statusPath w).1
                   = finallyBlock env statusPath o locals
                       (beforeCleanup env o statusPath w))
    by apply generate3DModelAsync_unfold.
  rewrite Hfinal in *.
  set (cleanup := read_or true (cleanupReferences o)
                  && (0 <? length (generatedReferences locals))%nat).
  unfold beforeCleanup in *.
  destruct ((tryOutcome env o statusPath w).2) as [u | e] eqn:Hout;
    simpl in *.
  - rewrite (Hdone u eq_refl) in Hmark1.
    destruct (finallyBlock_runs o locals (tryOutcome env o statusPath w).1.1
                (completed, 100)) as [_ Hfin].
    destruct (Hfin (ex_intro _ s1 (conj Huse1 Hmark1)) Hleft3)
      as (Hmarks3 & left & Huse3 & Hmark3).
    fold cleanup in Hmarks3. rewrite Hmarks3.
    exists ms, (if cleanup then S (length (generatedReferences locals))
                else 0%nat).
    unfold newEvents at 1. rewrite drop_all. unfold marks at 1. simpl.
    rewrite Hmark0. split.
    { rewrite fmap_app. f_equal. f_equal. by destruct cleanup. }
    split; [done|]. split; [by exists s1 | by exists left].
  - destruct (catchBlock_runs e (tryOutcome env o statusPath w).1.1 m1)
      as [_ Hcatch].
    destruct (Hcatch (ex_intro _ s1 (conj Huse1 Hmark1)) Hleft2)
      as (Hmarks2 & s2 & Huse2 & Hmark2).
    destruct (finallyBlock_runs o locals
                (catchBlock env statusPath e
                   (tryOutcome env o statusPath w).1.1)
                (failed, 0)) as [_ Hfin].
    destruct (Hfin (ex_intro _ s2 (conj Huse2 Hmark2)) Hleft3)
      as (Hmarks3 & left & Huse3 & Hmark3).
    fold cleanup in Hmarks3. rewrite Hmarks2, Hmarks3.
    exists ms, (2 + if cleanup then S (length (generatedReferences locals))
                    else 0)%nat.
    rewrite Hmark0. split.
    { f_equal. rewrite fmap_app. f_equal. by destruct cleanup. }
    split; [done|]. split; [by exists s2 | by exists left].
Qed.


(** ** The records of the catch and finally blocks *)

Lemma onlyLogsAdded_refl r : is_Some (logs r) -> onlyLogsAdded r r.
Proof.
  intros [lines Hl]. repeat split; try done.
  exists lines, []. by rewrite app_nil_r.
Qed.

Lemma onlyLogsAdded_trans r1 r2 r3 :
  onlyLogsAdded r1 r2 -> onlyLogsAdded r2 r3 -> onlyLogsAdded r1 r3.
Proof.
  intros (?&?&?&?&?&?&?&?& lines & added & Hl1 & Hl2)
         (?&?&?&?&?&?&?&?& lines' & added' & Hl2' & Hl3).
  repeat split; try congruence.
  exists lines, (added ++ added'). split; [done|].
  rewrite Hl3, app_assoc. f_equal. f_equal. congruence.
Qed.

Lemma onlyLogsAdded_pushLog r line :
  is_Some (logs r) -> onlyLogsAdded r (pushLog r line).
Proof.
  intros [lines Hl]. repeat split; try done.
  exists lines, [line]. split; [done|]. by apply logs_pushLog.
Qed.

Lemma catchBlock_existing errorMessage w s :
  inUse statusPath w s ->
  catchBlock env statusPath errorMessage w
  = let failure :=
      assign s
        {| set_id := Absent;
           set_status := Present failed;
           set_progress := Present 0;
           set_message := Present ("Generation failed: " +:+ errorMessage);
           set_startTime := Absent;
           set_endTime := Present (isoTime env (ticks w));
           set_result := Absent;
           set_error := Present errorMessage;
           set_logs := Absent |} in
    writeFileSync statusPath
      (pushLog failure
         ("[" +:+ isoTime env (S (ticks w)) +:+ "] "
          +:+ ("ERROR: " +:+ errorMessage)))
      (now env (writeFileSync statusPath failure (now env w).2)).2.
Proof.
  intros Hs. unfold catchBlock, now. cbv zeta beta iota.
  erewrite updateStatusFile_existing by exact Hs.
  erewrite addLogToStatus_existing
    by (apply inUse_writeFileSync; simpl; apply Hs).
  reflexivity.
Qed.

Lemma catchBlock_record errorMessage w s :
  inUse statusPath w s ->
  exists r t,
    inUse statusPath (catchBlock env statusPath errorMessage w) r
    /\ status r = Some failed
    /\ progress r = Some 0
    /\ message r = Some ("Generation failed: " +:+ errorMessage)
    /\ error r = Some errorMessage
    /\ endTime r = Some t.
Proof.
  intros Hs. unfold catchBlock, now. cbv zeta beta iota.
  erewrite updateStatusFile_existing by exact Hs.
  erewrite addLogToStatus_existing
    by (apply inUse_writeFileSync; simpl; apply Hs).
  do 2 eexists. split.
  { apply inUse_writeFileSync, is_Some_logs_pushLog. simpl. apply Hs. }
  simpl. done.
Qed.

(** The record the last step of the [try] block leaves, when it leaves
    a status file in use. *)
Lemma finishJob_leaves o locals r w rec :
  inUse statusPath (finishJob env statusPath o locals r w) rec ->
  exists t,
    status rec = Some completed
    /\ progress rec = Some 100
    /\ message rec = Some "3D model generation completed successfully!"
    /\ endTime rec = Some t
    /\ result rec
       = Some (if (0 <? length (generatedReferences locals))%nat
               then withReferences r (generatedReferences locals)
                      (read_or "gemini" (referenceModel o))
                      (read_or [Front; Back; Top] (referenceViews o))
               else r).
Proof.
  unfold finishJob, now. cbv zeta beta iota.
  destruct (updateStatusFile_cases (stage 90 "Finalizing result...") w)
    as [[Hblob ->] | (base & w0 & ->)].
  - rewrite updateStatusFile_blob by exact Hblob.
    rewrite addLogToStatus_blob by exact Hblob.
    intros [Hfile _]. simpl in Hfile. congruence.
  - erewrite updateStatusFile_json by (simpl; apply lookup_insert_eq).
    erewrite addLogToStatus_json by (simpl; apply lookup_insert_eq).
    simpl. destruct (logs base) as [lines|] eqn:Hlogs; simpl.
    + intros [Hfile _]. simpl in Hfile. rewrite lookup_insert_eq in Hfile.
      injection Hfile as <-. by eexists.
    + intros [Hfile [lines Hlines]]. simpl in Hfile.
      rewrite lookup_insert_eq in Hfile. injection Hfile as <-.
      simpl in Hlines. congruence.
Qed.

(** One call of [unlinkSync] of the cleanup, the files [present] being
    on disk when the cleanup started and [done] having been handled. *)
Lemma unlinkSync_deletion present done rest refPath w :
  refPath <> statusPath ->
  (forall p, p <> statusPath ->
     (p ∈ files w
      <-> p ∈ present /\ ~ (p ∈ done /\ p ∉ unlinkDenied env))) ->
  (unlinkSync env refPath w).2
  = deletion env present (done ++ refPath :: rest) (length done) refPath
  /\ (forall p, p <> statusPath ->
        (p ∈ files (unlinkSync env refPath w).1
         <-> p ∈ present
             /\ ~ (p ∈ done ++ [refPath] /\ p ∉ unlinkDenied env)))
  /\ disk (unlinkSync env refPath w).1 !! statusPath = disk w !! statusPath.
Proof.
  intros Hne Hinv. pose proof (Hinv refPath Hne) as Href.
  unfold unlinkSync, deletion. rewrite take_app_length.
  assert (Hlater : forall p, p <> statusPath ->
            (p ∈ files w /\ ~ (p = refPath /\ p ∉ unlinkDenied env))
            <-> (p ∈ present
                 /\ ~ (p ∈ done ++ [refPath] /\ p ∉ unlinkDenied env))).
  { intros p Hp. rewrite (Hinv p Hp), elem_of_app, list_elem_of_singleton.
    tauto. }
  repeat case_bool_decide; simpl.
  all: split; [ first [ done | exfalso; tauto ] | ].
  all: split; [ | first [ done | by rewrite lookup_delete_ne ] ].
  all: intros p Hp; rewrite <- (Hlater p Hp).
  all: unfold files; simpl;
    rewrite ?dom_delete, ?elem_of_difference, ?elem_of_singleton.
  all: fold (files w).
  all: destruct (decide (p = refPath)) as [-> | Hpr]; tauto.
Qed.

(** The loop reports on every reference image, in order, says what
    became of its deletion, and adds nothing but these lines to the
    status file. *)
Lemma cleanupLoop_reports present refs : forall done w s lines,
  inUse statusPath w s ->
  logs s = Some lines ->
  statusPath ∉ refs ->
  (forall p, p <> statusPath ->
     (p ∈ files w
      <-> p ∈ present /\ ~ (p ∈ done /\ p ∉ unlinkDenied env))) ->
  exists left reports,
    inUse statusPath (cleanupLoop env statusPath refs w) left
    /\ onlyLogsAdded s left
    /\ logs left = Some (lines ++ reports)
    /\ length reports = length refs
    /\ (forall k path line,
          refs !! k = Some path -> reports !! k = Some line ->
          stamped
            (cleanupText path
               (deletion env present (done ++ refs) (length done + k) path))
            line)
    /\ (forall p, p <> statusPath ->
          (p ∈ files (cleanupLoop env statusPath refs w)
           <-> p ∈ present
               /\ ~ (p ∈ done ++ refs /\ p ∉ unlinkDenied env))).
Proof.
  induction refs as [|refPath rest IH]; intros done w s lines Hs Hl Hrefs Hinv.
  - exists s, []. simpl. rewrite !app_nil_r.
    split; [done|]. split; [apply onlyLogsAdded_refl, Hs|].
    split; [done|]. split; [done|]. split; [|done].
    intros k path line Hk. by rewrite lookup_nil in Hk.
  - apply not_elem_of_cons in Hrefs as [Hne Hrest].
    destruct (unlinkSync_deletion present done rest refPath w
                (not_eq_sym Hne) Hinv) as (Hout & Hinv0 & Hdisk0).
    assert (Hs0 : inUse statusPath (unlinkSync env refPath w).1 s).
    { split; [|apply Hs]. rewrite Hdisk0. apply Hs. }
    set (line := "[" +:+ isoTime env (ticks (unlinkSync env refPath w).1)
                 +:+ "] "
                 +:+ cleanupText refPath (unlinkSync env refPath w).2).
    assert (Hstep :
      match unlinkSync env refPath w with
      | (w0, Return _) =>
          addLogToStatus env statusPath ("Cleaned up: " +:+ refPath) w0
      | (w0, Throw cleanupError) =>
          addLogToStatus env statusPath
            ("Failed to cleanup " +:+ refPath +:+ ": Error: "
             +:+ cleanupError) w0
      end
      = writeFileSync statusPath (pushLog s line)
          (now env (unlinkSync env refPath w).1).2).
    { subst line.
      destruct (unlinkSync env refPath w) as [w0 [[]|e]]; simpl in *;
        by rewrite (addLogToStatus_existing _ _ _ Hs0). }
    cbn [cleanupLoop]. rewrite Hstep.
    destruct (IH (done ++ [refPath])
                (writeFileSync statusPath (pushLog s line)
                   (now env (unlinkSync env refPath w).1).2)
                (pushLog s line) (lines ++ [line]))
      as (left & reports & Hleft & Hsame & Hlogs & Hlen & Hreports & Hfiles).
    + apply inUse_writeFileSync, is_Some_logs_pushLog, Hs.
    + by apply logs_pushLog.
    + done.
    + intros p Hp. rewrite <- (Hinv0 p Hp). unfold files. simpl.
      rewrite dom_insert, elem_of_union, elem_of_singleton. tauto.
    + exists left, (line :: reports).
      split; [done|]. split.
      { eapply onlyLogsAdded_trans; [|exact Hsame].
        apply onlyLogsAdded_pushLog, Hs. }
      split; [by rewrite Hlogs, <- app_assoc|].
      split; [simpl; by rewrite Hlen|]. split.
      * intros [|k] path ln Hk Hln; simpl in Hk, Hln.
        -- injection Hk as <-. injection Hln as <-.
           rewrite Nat.add_0_r, <- Hout. by eexists.
        -- specialize (Hreports k path ln Hk Hln).
           rewrite <- app_assoc, length_app in Hreports. simpl in Hreports.
           by replace (length done + S k)%nat
             with (length done + 1 + k)%nat by lia.
      * intros p Hp. rewrite (Hfiles p Hp), <- app_assoc. done.
Qed.

(** The [finally] block that has images to delete. *)
Lemma finallyBlock_reports o locals w found :
  read_or true (cleanupReferences o) = true ->
  generatedReferences locals <> [] ->
  inUse statusPath w found ->
  statusPath ∉ generatedReferences locals ->
  exists left lines start reports,
    inUse statusPath (finallyBlock env statusPath o locals w) left
    /\ onlyLogsAdded found left
    /\ logs found = Some lines
    /\ logs left = Some (lines ++ start :: reports)
    /\ stamped "Cleaning up reference images..." start
    /\ length reports = length (generatedReferences locals)
    /\ (forall k path line,
          generatedReferences locals !! k = Some path ->
          reports !! k = Some line ->
          stamped
            (cleanupText path
               (deletion env (files w) (generatedReferences locals) k path))
            line)
    /\ (forall path, path ∈ generatedReferences locals ->
          path ∉ unlinkDenied env ->
          path ∉ files (finallyBlock env statusPath o locals w)).
Proof.
  intros Hcleanup Hrefs Hfound Hne.
  assert (Hany : (0 <? length (generatedReferences locals))%nat = true).
  { destruct (generatedReferences locals); [done | reflexivity]. }
  unfold finallyBlock. rewrite Hcleanup, Hany. cbn [andb].
  rewrite (addLogToStatus_existing _ _ _ Hfound).
  destruct (proj2 Hfound) as [lines Hlines].
  set (start := "[" +:+ isoTime env (ticks w) +:+ "] "
                +:+ "Cleaning up reference images...").
  destruct (cleanupLoop_reports (files w) (generatedReferences locals) []
              (writeFileSync statusPath (pushLog found start) (now env w).2)
              (pushLog found start) (lines ++ [start]))
    as (left & reports & Hleft & Hsame & Hlogs & Hlen & Hreports & Hfiles).
  - apply inUse_writeFileSync, is_Some_logs_pushLog, Hfound.
  - by apply logs_pushLog.
  - done.
  - intros p Hp. unfold files. simpl.
    rewrite dom_insert, elem_of_union, elem_of_singleton, elem_of_nil. tauto.
  - exists left, lines, start, reports.
    split; [done|]. split.
    { eapply onlyLogsAdded_trans; [|exact Hsame].
      apply onlyLogsAdded_pushLog, Hfound. }
    split; [done|]. split; [by rewrite Hlogs, <- app_assoc|].
    split; [by exists (isoTime env (ticks w))|]. split; [done|].
    split; [exact Hreports|].
    intros path Hin Hallowed Hthere.
    assert (Hp : path <> statusPath) by (intros ->; done).
    apply (Hfiles path Hp) in Hthere as [_ Hnot]. by apply Hnot.
Qed.

(** The [finally] block leaves the status file with its log. *)
Lemma finallyBlock_leftAlone o locals w :
  read_or true (cleanupReferences o) = true ->
  leftAlone statusPath (newEvents w (finallyBlock env statusPath o locals w)) ->
  statusPath ∉ generatedReferences locals.
Proof.
  intros Hcleanup Hleft Hin. apply Hleft, unlinkCalls_touched.
  destruct (acts_newEvents _ _ _ _ _ (finallyBlock_acts env statusPath o locals w))
    as (_ & _ & _ & ->).
  rewrite Hcleanup. clear -Hin.
  induction (generatedReferences locals) as [|ref refs IH]; [done|].
  simpl. apply elem_of_cons in Hin as [-> | Hin];
    [apply list_elem_of_here | by apply list_elem_of_further, IH].
Qed.

Lemma finallyBlock_onlyLogsAdded o locals w found :
  inUse statusPath w found ->
  leftAlone statusPath (newEvents w (finallyBlock env statusPath o locals w)) ->
  exists left,
    inUse statusPath (finallyBlock env statusPath o locals w) left
    /\ onlyLogsAdded found left.
Proof.
  intros Hfound Hleft.
  destruct (read_or true (cleanupReferences o)
            && (0 <? length (generatedReferences locals))%nat) eqn:Hcond.
  - apply andb_prop in Hcond as [Hcleanup Hany].
    assert (Hrefs : generatedReferences locals <> []).
    { intros Hnil. by rewrite Hnil in Hany. }
    destruct (finallyBlock_reports o locals w found Hcleanup Hrefs Hfound
                (finallyBlock_leftAlone o locals w Hcleanup Hleft))
      as (left & _ & _ & _ & Huse & Hsame & _).
    by exists left.
  - unfold finallyBlock. rewrite Hcond. exists found.
    split; [done | apply onlyLogsAdded_refl, Hfound].
Qed.

End StatusStore.

(** ** The job and its status file *)

Lemma validate3DModelOptions_needs_input o :
  missingPromptAndImages o -> exists e, validate3DModelOptions o = Throw e.
Proof.
  intros [Himages Hprompt]. unfold validate3DModelOptions.
  rewrite !when_then, Himages, Hprompt. simpl.
  repeat match goal with
         | |- exists e, (if ?c then _ else _) = Throw e =>
             destruct c; [ eexists; reflexivity | ]
         end.
  eexists; reflexivity.
Qed.

Lemma tryBlock_invalid env statusPath o locals w e :
  validate3DModelOptions o = Throw e ->
  tryBlock env statusPath o locals w
  = (addLogToStatus env statusPath
       ("Starting 3D generation with model: " +:+ show (read (model o))
        +:+ ", variant: " +:+ show (read (variant o)))
       (updateStatusFile env statusPath
          (stageStatus processing 5
             "Validating options and preparing inputs...") w),
     locals, Throw e).
Proof. intros He. unfold tryBlock. cbv zeta. by rewrite He. Qed.

Lemma mark_Some r s p :
  mark r = Some (s, p) -> status r = Some s /\ progress r = Some p.
Proof.
  unfold mark. destruct (status r), (progress r); simpl; try done.
  by intros [= -> ->].
Qed.

(** The job calls [unlinkSync] in its [finally] block only. *)
Lemma generate3DModelAsync_unlinks env o statusPath w :
  unlinkCalls (newEvents w (generate3DModelAsync env o statusPath w).1)
  = if read_or true (cleanupReferences o)
    then generatedReferences (tryOutcome env o statusPath w).1.2
    else [].
Proof.
  pose proof (generate3DModelAsync_acts env o statusPath w) as Hacts.
  pose proof (tryBlock_acts env statusPath o (started env statusPath w))
    as Htry.
  cbv zeta in Hacts, Htry. fold (tryOutcome env o statusPath w) in Htry.
  destruct (validate3DModelOptions o) as [[]|e].
  - destruct Hacts as (b & Hacts & _ & _ & -> & _).
    destruct (acts_newEvents _ _ _ _ _ Hacts) as (_ & _ & _ & ->).
    rewrite !unlinkCalls_app, unlinkCalls_requested, unlinkCalls_unlinked.
    done.
  - destruct Htry as (_ & -> & _).
    destruct (acts_newEvents _ _ _ _ _ Hacts) as (_ & _ & _ & ->).
    simpl. by destruct (read_or true (cleanupReferences o)).
Qed.

Lemma Sorted_snoc_replicate {A} (R : A -> A -> Prop) l t k :
  Sorted R (l ++ [t]) -> R t t -> Sorted R (l ++ replicate k t).
Proof.
  intros Hsorted Hrefl. induction l as [|x l IH]; simpl in *.
  - clear Hsorted. induction k as [|k IH]; simpl; [constructor|].
    constructor; [done|]. destruct k; simpl; by constructor.
  - apply Sorted_inv in Hsorted as [Hsorted Hhd].
    constructor; [by apply IH|].
    destruct l as [|y l]; simpl in *.
    + apply HdRel_inv in Hhd. destruct k; simpl; by constructor.
    + apply HdRel_inv in Hhd. by constructor.
Qed.

Lemma StronglySorted_lookup {A} (R : A -> A -> Prop) l i j a b :
  StronglySorted R l -> (i < j)%nat ->
  l !! i = Some a -> l !! j = Some b -> R a b.
Proof.
  intros Hsorted. revert i j.
  induction Hsorted as [|x l _ IH Hall]; intros i j Hij Ha Hb; [done|].
  destruct j as [|j]; [lia|]. simpl in Hb.
  destruct i as [|i]; simpl in Ha.
  - injection Ha as ->. rewrite Forall_forall in Hall. apply Hall.
    by eapply list_elem_of_lookup_2.
  - apply (IH i j); [lia | done | done].
Qed.

(** A job whose request fails validation. *)
Lemma generate3DModelAsync_invalid env o statusPath w e :
  validate3DModelOptions o = Throw e ->
  usable env statusPath w ->
  let w' := (generate3DModelAsync env o statusPath w).1 in
  let evs := newEvents w w' in
  (exists left,
     statusFile statusPath w' = Some left
     /\ status left = Some failed
     /\ error left = Some e)
  /\ marks evs
     = (Some <$> [(pending, 0); (processing, 5); (processing, 5);
                  (failed, 0); (failed, 0)])
  /\ imageCalls evs = [] /\ backendCalls evs = [] /\ unlinkCalls evs = [].
Proof.
  intros He Husable w' evs. subst evs w'.
  pose proof (proj1 Husable) as Hwritable.
  destruct (started_runs env statusPath Hwritable w Husable)
    as (r0 & Hevs0 & [evs0 Htrace0] & Huse0 & Hmark0 & _).
  rewrite (newEvents_app _ _ _ Htrace0) in Hevs0. subst evs0.
  rewrite generate3DModelAsync_unfold. unfold beforeCleanup, tryOutcome.
  rewrite (tryBlock_invalid env statusPath o _ _ e He). cbn [fst snd].
  rewrite finallyBlock_nothing_generated by done.
  set (w0 := started env statusPath w) in *.
  rewrite (updateStatusFile_existing env statusPath Hwritable _ _ _ Huse0).
  erewrite (addLogToStatus_existing env statusPath Hwritable)
    by (apply inUse_writeFileSync; simpl; apply Huse0).
  erewrite (catchBlock_existing env statusPath Hwritable)
    by (apply inUse_writeFileSync, is_Some_logs_pushLog; simpl; apply Huse0).
  cbv zeta.
  erewrite newEvents_app
    by (simpl; rewrite Htrace0, <- !app_assoc; reflexivity).
  split.
  { eexists. split.
    - unfold statusFile. simpl. by rewrite lookup_insert_eq.
    - done. }
  unfold marks. simpl. by rewrite Hmark0.
Qed.

(** C1, as the code has it. For a request with neither prompt nor input
    images validation throws. On the asynchronous path the background
    task has started by then: on a status path that can hold a status
    file, the records written read pending at progress 0, processing at
    progress 5 (twice) and then failed at progress 0 (twice), and the
    record left has the validation message as its error; no image is
    requested, no backend is called and nothing is deleted. *)
Theorem generate3DModelAsync_rejects_missing_input env o statusPath w :
  missingPromptAndImages o ->
  usable env statusPath w ->
  let w' := (generate3DModelAsync env o statusPath w).1 in
  let evs := newEvents w w' in
  (exists e left,
     validate3DModelOptions o = Throw e
     /\ statusFile statusPath w' = Some left
     /\ status left = Some failed
     /\ error left = Some e)
  /\ marks evs
     = (Some <$> [(pending, 0); (processing, 5); (processing, 5);
                  (failed, 0); (failed, 0)])
  /\ imageCalls evs = [] /\ backendCalls evs = [] /\ unlinkCalls evs = [].
Proof.
  intros Hmissing Husable w' evs. subst evs w'.
  destruct (validate3DModelOptions_needs_input o Hmissing) as [e He].
  destruct (generate3DModelAsync_invalid env o statusPath w e He Husable)
    as ((left & Hfile & Hstatus & Herror) & Hrest).
  split; [by exists e, left | exact Hrest].
Qed.

Lemma generate3DModelAsync_rejects_missing_input_witness :
  marks
    (newEvents freshWorld
       (generate3DModelAsync testEnv emptyRequest "model_status.json"
          freshWorld).1)
  = (Some <$> [(pending, 0); (processing, 5); (processing, 5);
               (failed, 0); (failed, 0)]).
Proof.
  refine (proj1 (proj2
    (generate3DModelAsync_rejects_missing_input testEnv emptyRequest
       "model_status.json" freshWorld _ _))).
  - split; reflexivity.
  - split; [intros n; reflexivity | vm_compute; exact I].
Defined.

(** C1 as stated fails: for the request of the unit test, which has
    neither prompt nor images, the status file does hold a [processing]
    record before the failure is recorded. *)
Lemma generate3DModelAsync_reaches_processing_counterexample :
  ~ (missingPromptAndImages emptyRequest ->
     Forall (fun r => status r <> Some processing)
       (statusWrites
          (newEvents freshWorld
             (generate3DModelAsync testEnv emptyRequest "model_status.json"
                freshWorld).1))).
Proof.
  intros H.
  assert (Hmissing : missingPromptAndImages emptyRequest) by (split; reflexivity).
  specialize (H Hmissing).
  vm_compute in H.
  apply Forall_cons in H as [_ H]. apply Forall_cons in H as [H _].
  by apply H.
Qed.

(** On a disk that refuses the writes nothing is recorded at all: the
    status store swallows the failure of every write. *)
Example generate3DModelAsync_nothing_recorded :
  let w' := (generate3DModelAsync readOnlyEnv emptyRequest "model_status.json"
               freshWorld).1 in
  statusWrites (newEvents freshWorld w') = []
  /\ statusFile "model_status.json" w' = None.
Proof. vm_compute. done. Qed.

(** C2, as the code has it. On a status path that can hold a status
    file and that nothing else writes or deletes during the job: of two
    records written by one job, the later one never has an earlier
    status (pending before processing before completed or failed), a
    completed or failed status stays what it is, and the progress of the
    later record is at least that of the earlier one unless the later
    record is the failure record, which resets the progress to 0. *)
Theorem generate3DModelAsync_status_never_regresses env o statusPath w i j
    earlier later :
  let history :=
    statusWrites
      (newEvents w (generate3DModelAsync env o statusPath w).1) in
  usable env statusPath w ->
  leftAlone statusPath
    (newEvents w (generate3DModelAsync env o statusPath w).1) ->
  (i < j)%nat ->
  history !! i = Some earlier ->
  history !! j = Some later ->
  exists s p s' p',
    status earlier = Some s /\ progress earlier = Some p
    /\ status later = Some s' /\ progress later = Some p'
    /\ statusRank s <= statusRank s'
    /\ (isTerminal s -> s' = s)
    /\ (p <= p' \/ s' = failed).
Proof.
  intros history Husable Hleft Hij Hi Hj. subst history.
  destruct (generate3DModelAsync_runs env statusPath (proj1 Husable) o w
              Husable Hleft)
    as (ms & k & Hmarks & Hsorted & _).
  set (run := (pending, 0) :: ms
              ++ replicate k (endMark (tryOutcome env o statusPath w).2))
    in Hmarks.
  assert (Hstrong : StronglySorted follows run).
  { apply Sorted_StronglySorted; [apply _|].
    apply (Sorted_snoc_replicate follows ((pending, 0) :: ms)); [done|].
    destruct (tryOutcome env o statusPath w).2; follows_step. }
  assert (Hat : forall n r,
            statusWrites
              (newEvents w (generate3DModelAsync env o statusPath w).1) !! n
            = Some r ->
            exists m, run !! n = Some m /\ mark r = Some m).
  { intros n r Hn.
    assert (Hm : marks (newEvents w
                          (generate3DModelAsync env o statusPath w).1) !! n
                 = Some (mark r))
      by (unfold marks; by rewrite list_lookup_fmap, Hn).
    rewrite Hmarks, list_lookup_fmap in Hm.
    destruct (run !! n) as [m|]; [|done]. injection Hm as Hm. by exists m. }
  destruct (Hat i earlier Hi) as ([s p] & Hri & Hmi).
  destruct (Hat j later Hj) as ([s' p'] & Hrj & Hmj).
  apply mark_Some in Hmi as [Hs Hp]. apply mark_Some in Hmj as [Hs' Hp'].
  exists s, p, s', p'. do 4 (split; [done|]).
  apply (StronglySorted_lookup follows run i j (s, p) (s', p') Hstrong Hij Hri
           Hrj).
Qed.

Lemma generate3DModelAsync_status_never_regresses_witness :
  exists earlier later s p s' p',
    statusWrites
      (newEvents freshWorld
         (generate3DModelAsync failingEnv cubeRequest "cube_status.json"
            freshWorld).1) !! 1%nat = Some earlier
    /\ statusWrites
         (newEvents freshWorld
            (generate3DModelAsync failingEnv cubeRequest "cube_status.json"
               freshWorld).1) !! 4%nat = Some later
    /\ status earlier = Some s /\ progress earlier = Some p
    /\ status later = Some s' /\ progress later = Some p'
    /\ statusRank s <= statusRank s'
    /\ (isTerminal s -> s' = s)
    /\ (p <= p' \/ s' = failed).
Proof.
  do 2 eexists.
  destruct (generate3DModelAsync_status_never_regresses failingEnv cubeRequest
              "cube_status.json" freshWorld 1 4 _ _
              ltac:(split; [intros n; reflexivity | vm_compute; exact I])
              ltac:(vm_compute; intros Hin; not_in_list Hin)
              ltac:(lia)
              ltac:(vm_compute; reflexivity)
              ltac:(vm_compute; reflexivity))
    as (s & p & s' & p' & H).
  exists s, p, s', p'.
  split; [vm_compute; reflexivity|]. split; [vm_compute; reflexivity|].
  exact H.
Defined.

(** C2 as stated fails: in the run of the unit-test request the second
    record has progress 5 and the fourth, the failure record, has
    progress 0. *)
Lemma generate3DModelAsync_progress_resets_counterexample :
  ~ (forall i j earlier later p p',
       (i < j)%nat ->
       statusWrites
         (newEvents freshWorld
            (generate3DModelAsync testEnv emptyRequest "model_status.json"
               freshWorld).1) !! i = Some earlier ->
       statusWrites
         (newEvents freshWorld
            (generate3DModelAsync testEnv emptyRequest "model_status.json"
               freshWorld).1) !! j = Some later ->
       progress earlier = Some p -> progress later = Some p' ->
       p <= p').
Proof.
  intros H.
  specialize (H 1%nat 3%nat _ _ 5 0 ltac:(lia) eq_refl eq_refl eq_refl eq_refl).
  lia.
Qed.

(** The record of a job whose [try] block threw. *)
Lemma generate3DModelAsync_failed env o statusPath w w1 locals e :
  tryOutcome env o statusPath w = (w1, locals, Throw e) ->
  usable env statusPath w ->
  leftAlone statusPath
    (newEvents w (generate3DModelAsync env o statusPath w).1) ->
  exists r t,
    statusFile statusPath (generate3DModelAsync env o statusPath w).1 = Some r
    /\ status r = Some failed
    /\ progress r = Some 0
    /\ message r = Some ("Generation failed: " +:+ e)
    /\ error r = Some e
    /\ endTime r = Some t.
Proof.
  intros Htry Husable Hleft.
  pose proof (proj1 Husable) as Hwritable.
  destruct (started_runs env statusPath Hwritable w Husable)
    as (r0 & _ & _ & Huse0 & Hmark0 & _).
  destruct (generate3DModelAsync_stages env statusPath Hwritable o w)
    as (_ & _ & _ & _ & Hparts).
  destruct (Hparts Hleft) as (Hleft1 & _ & Hleft3).
  destruct (tryBlock_runs env statusPath Hwritable o (initialLocals o)
              (started env statusPath w) (pending, 0))
    as (ms & m1 & [_ Hruns] & _).
  fold (tryOutcome env o statusPath w) in Hruns.
  destruct (Hruns (ex_intro _ r0 (conj Huse0 Hmark0)) Hleft1)
    as (_ & s1 & Huse1 & _).
  rewrite generate3DModelAsync_unfold in *.
  unfold beforeCleanup in *. rewrite Htry in *. cbn [fst snd] in *.
  destruct (catchBlock_record env statusPath Hwritable e w1 s1 Huse1)
    as (r & t & Huse2 & Hstatus & Hprogress & Hmessage & Herror & Hend).
  destruct (finallyBlock_onlyLogsAdded env statusPath Hwritable o locals _ r
              Huse2 Hleft3)
    as (left & Huse3 & Hsame).
  destruct Hsame as (_ & Hs & Hp & Hm & _ & Ht & _ & He & _).
  exists left, t. rewrite (inUse_statusFile _ _ _ Huse3).
  repeat split; congruence.
Qed.


(** C3, as the code has it. When the [try] block of the background task
    throws, at validation or at any later step, and the status path can
    hold a status file that nothing else writes or deletes during the
    job, the task ends with a record whose status is failed and whose
    progress is 0; [error] is the text of the failure, [message] is that
    text behind the words "Generation failed: ", and [endTime] is set. *)
Theorem generate3DModelAsync_failure_record env o statusPath w w1 locals e :
  tryOutcome env o statusPath w = (w1, locals, Throw e) ->
  usable env statusPath w ->
  leftAlone statusPath
    (newEvents w (generate3DModelAsync env o statusPath w).1) ->
  exists r t,
    statusFile statusPath (generate3DModelAsync env o statusPath w).1 = Some r
    /\ status r = Some failed
    /\ progress r = Some 0
    /\ message r = Some ("Generation failed: " +:+ e)
    /\ error r = Some e
    /\ endTime r = Some t.
Proof. apply generate3DModelAsync_failed. Qed.

Lemma generate3DModelAsync_failure_record_witness :
  exists r t,
    statusFile "cube_status.json"
      (generate3DModelAsync failingEnv cubeRequest "cube_status.json"
         freshWorld).1 = Some r
    /\ status r = Some failed
    /\ progress r = Some 0
    /\ message r
       = Some "Generation failed: Seed3D API error: quota exceeded"
    /\ error r = Some "Seed3D API error: quota exceeded"
    /\ endTime r = Some t.
Proof.
  set (run := tryOutcome failingEnv cubeRequest "cube_status.json" freshWorld).
  apply (generate3DModelAsync_failure_record failingEnv cubeRequest
           "cube_status.json" freshWorld run.1.1 run.1.2
           "Seed3D API error: quota exceeded").
  - vm_compute. reflexivity.
  - split; [intros n; reflexivity | vm_compute; exact I].
  - vm_compute. intros Hin. not_in_list Hin.
Defined.

(** C3 as stated fails: in the run of the unit-test request the failure
    text is the validation message, and the final [message] is not that
    text. *)
Lemma generate3DModelAsync_failure_message_counterexample :
  ~ (forall w1 locals e,
       tryOutcome testEnv emptyRequest "model_status.json" freshWorld
       = (w1, locals, Throw e) ->
       exists r,
         statusFile "model_status.json"
           (generate3DModelAsync testEnv emptyRequest "model_status.json"
              freshWorld).1 = Some r
         /\ message r = Some e
         /\ error r = Some e).
Proof.
  intros H.
  set (run := tryOutcome testEnv emptyRequest "model_status.json" freshWorld)
    in H.
  destruct (H run.1.1 run.1.2
              "Either input images or a prompt is required for 3D model generation")
    as (r & Hfile & Hmessage & _).
  - vm_compute. reflexivity.
  - vm_compute in Hfile. injection Hfile as <-. discriminate Hmessage.
Qed.

(** C4, as the code has it. When the job generated reference images,
    [cleanupReferences] is not switched off, and the status path can
    hold a status file that nothing else writes or deletes during the
    job (it is none of the generated images, in particular), the
    [finally] block, on the success path as on the failure path, calls
    [unlinkSync] on each generated image, in order, so that no generated
    image that may be deleted is left on disk; it logs one line when it
    starts and one line per image, in order, which says that the image
    was cleaned up when [unlinkSync] returned and gives the error when
    it threw (a failure is caught: the block has no way to throw); and
    the record the block leaves differs from the completed or failed
    record it found only by those log lines. *)
Theorem generate3DModelAsync_cleanup env o statusPath w :
  let outcome := (tryOutcome env o statusPath w).2 in
  let refs := generatedReferences (tryOutcome env o statusPath w).1.2 in
  let before := beforeCleanup env o statusPath w in
  let w' := (generate3DModelAsync env o statusPath w).1 in
  read_or true (cleanupReferences o) = true ->
  refs <> [] ->
  usable env statusPath w ->
  leftAlone statusPath (newEvents w w') ->
  unlinkCalls (newEvents w w') = refs
  /\ (forall path, path ∈ refs -> path ∉ unlinkDenied env -> path ∉ files w')
  /\ exists found left lines start reports,
       statusFile statusPath before = Some found
       /\ statusFile statusPath w' = Some left
       /\ status found = Some match outcome with
                               | Return _ => completed
                               | Throw _ => failed
                               end
       /\ onlyLogsAdded found left
       /\ logs found = Some lines
       /\ logs left = Some (lines ++ start :: reports)
       /\ stamped "Cleaning up reference images..." start
       /\ length reports = length refs
       /\ forall k path line,
            refs !! k = Some path -> reports !! k = Some line ->
            stamped
              (cleanupText path (deletion env (files before) refs k path))
              line.
Proof.
  intros outcome refs before w' Hcleanup Hrefs Husable Hleft.
  pose proof (proj1 Husable) as Hwritable.
  destruct (generate3DModelAsync_stages env statusPath Hwritable o w)
    as (_ & _ & _ & _ & Hparts).
  destruct (Hparts Hleft) as (_ & _ & Hleft3).
  destruct (generate3DModelAsync_runs env statusPath Hwritable o w Husable
              Hleft)
    as (_ & _ & _ & _ & (found & Hfound & Hmark) & _).
  fold before in Hfound. fold outcome in Hmark.
  subst w'. rewrite generate3DModelAsync_unlinks, Hcleanup.
  rewrite generate3DModelAsync_unfold in *. fold before in Hleft3 |- *.
  fold refs.
  set (locals := (tryOutcome env o statusPath w).1.2) in *.
  destruct (finallyBlock_reports env statusPath Hwritable o locals before
              found Hcleanup Hrefs Hfound
              (finallyBlock_leftAlone env statusPath o locals before
                 Hcleanup Hleft3))
    as (left & lines & start & reports & Huse & Hsame & Hlines & Hlogs
        & Hstart & Hlen & Hreports & Hgone).
  split; [done|]. split; [exact Hgone|].
  exists found, left, lines, start, reports.
  split; [by apply inUse_statusFile|]. split; [by apply inUse_statusFile|].
  split.
  { destruct outcome; apply mark_Some in Hmark as [Hs _]; exact Hs. }
  done.
Qed.

Lemma generate3DModelAsync_cleanup_witness :
  unlinkCalls
    (newEvents freshWorld
       (generate3DModelAsync savingEnv cubeRequest "cube_status.json"
          freshWorld).1)
  = generatedReferences
      (tryOutcome savingEnv cubeRequest "cube_status.json" freshWorld).1.2.
Proof.
  refine (proj1 (generate3DModelAsync_cleanup savingEnv cubeRequest
                   "cube_status.json" freshWorld _ _ _ _)).
  - reflexivity.
  - vm_compute. discriminate.
  - split; [intros n; reflexivity | vm_compute; exact I].
  - vm_compute. intros Hin. not_in_list Hin.
Defined.

(** C4 as stated fails: when the output path has no extension, the one
    reference image of the job is saved at the path that is also the
    status path; the cleanup deletes that file, and the log line that
    follows creates a new status file, which reads processing. *)
Lemma generate3DModelAsync_cleanup_restarts_counterexample :
  ~ (read_or true (cleanupReferences aliasRequest) = true ->
     generatedReferences
       (tryOutcome savingEnv aliasRequest "robot" freshWorld).1.2 <> [] ->
     exists left,
       statusFile "robot"
         (generate3DModelAsync savingEnv aliasRequest "robot" freshWorld).1
       = Some left
       /\ (status left = Some completed \/ status left = Some failed)).
Proof.
  intros H. destruct H as (left & Hfile & Hstatus).
  - reflexivity.
  - vm_compute. discriminate.
  - vm_compute in Hfile. injection Hfile as <-.
    destruct Hstatus as [Hstatus | Hstatus]; discriminate Hstatus.
Qed.

(** The run behind it: once the image is saved at the status path no
    record can be written, although the job goes on and its [try] block
    returns; the cleanup deletes the file, and its log line starts a new
    record at progress 0. *)
Example generate3DModelAsync_status_path_reused :
  let w' := (generate3DModelAsync savingEnv aliasRequest "robot"
               freshWorld).1 in
  marks (newEvents freshWorld w')
  = (Some <$> [(pending, 0); (processing, 5); (processing, 5);
               (processing, 10); (processing, 10); (processing, 20);
               (processing, 0)])
  /\ touched (newEvents freshWorld w') = ["robot"; "robot"; "robot"]
  /\ (tryOutcome savingEnv aliasRequest "robot" freshWorld).2 = Return tt.
Proof. vm_compute. done. Qed.

(** The failure scenario: the 3D backend throws after one reference
    image was generated; the image is deleted and the job is failed. *)
Example generate3DModelAsync_cleanup_after_failure :
  let w' := (generate3DModelAsync failingEnv cubeRequest "cube_status.json"
               freshWorld).1 in
  unlinkCalls (newEvents freshWorld w') = ["cube"]
  /\ ("cube" ∉ files w')
  /\ status <$> statusFile "cube_status.json" w' = Some (Some failed).
Proof.
  split; [by vm_compute|]. split; [|by vm_compute].
  unfold files. rewrite elem_of_dom. vm_compute. by intros [x Hx].
Qed.

(** * Further properties *)

(** ** The option resolver *)

Lemma default_variant_inv m vs :
  AVAILABLE_VARIANTS !! m = Some vs ->
  DEFAULT_VARIANTS !! m = Some SINGLE /\ SINGLE ∈ vs.
Proof.
  intros Hm. apply available_inv in Hm.
  destruct Hm as [[-> ->]|[[-> ->]|[[-> ->]|[[-> ->]|[-> ->]]]]];
    (split; [ vm_compute; reflexivity | in_list ]).
Qed.

(** X1. For a model of the table the lenient helper never fails: it
    answers with the requested variant when the table permits it, and
    with the model's default variant, which the table permits too, when
    no variant is requested or the requested one is not permitted. *)
Theorem validateAndGetVariant_lenient m vs requested :
  AVAILABLE_VARIANTS !! m = Some vs ->
  exists d,
    DEFAULT_VARIANTS !! m = Some d /\ d ∈ vs
    /\ (forall v, requested = Some v -> v <> EmptyString -> v ∈ vs ->
          validateAndGetVariant m requested = Return (Some v))
    /\ ((forall v, requested = Some v -> v = EmptyString \/ v ∉ vs) ->
          validateAndGetVariant m requested = Return (Some d)).
Proof.
  intros Hm. destruct (default_variant_inv m vs Hm) as [Hd Hin].
  exists SINGLE. split; [done|]. split; [done|].
  unfold validateAndGetVariant. rewrite Hm, Hd. split.
  - intros v -> Hv Hpermitted. destruct v; [done|]. simpl.
    by rewrite (proj2 (array_includes_elem_of vs _) Hpermitted).
  - intros Hnot. destruct requested as [v|]; [|done].
    destruct (Hnot v eq_refl) as [-> | Hout]; [done|].
    destruct v; [done|]. simpl.
    destruct (array_includes vs _) eqn:E; [|done].
    by apply array_includes_elem_of in E.
Qed.

Lemma validateAndGetVariant_lenient_witness :
  validateAndGetVariant SEED3D (Some MULTI_TURBO) = Return (Some SINGLE).
Proof.
  destruct (validateAndGetVariant_lenient SEED3D [SINGLE] (Some MULTI_TURBO))
    as (d & Hd & _ & _ & Hfallback).
  - vm_compute. reflexivity.
  - rewrite Hfallback.
    + vm_compute in Hd. by injection Hd as <-.
    + intros v [= <-]. right. intros Hin. not_in_list Hin.
Defined.

(** X2. Options that pass validation have a non-blank output path, a
    model of the compatibility table, a variant (when one is given) that
    the table permits for that model, a format (when one is given)
    among glb and gltf, and a prompt or an input image. *)
Theorem validate3DModelOptions_accepts_only o :
  validate3DModelOptions o = Return tt ->
  exists m vs out,
    model o = Present m
    /\ AVAILABLE_VARIANTS !! m = Some vs
    /\ outputPath o = Present out /\ blank out = false
    /\ (forall v, variant o = Present v -> v <> EmptyString -> v ∈ vs)
    /\ (forall f, format o = Present f -> f <> EmptyString ->
          f = GLB \/ f = GLTF)
    /\ (no_input_images o = false \/ truthy (read (prompt o)) = true).
Proof. exact (validated_inv o). Qed.

Lemma validate3DModelOptions_accepts_only_witness :
  exists m vs out,
    model fullRequest = Present m
    /\ AVAILABLE_VARIANTS !! m = Some vs
    /\ outputPath fullRequest = Present out /\ blank out = false
    /\ (forall v, variant fullRequest = Present v -> v <> EmptyString ->
          v ∈ vs)
    /\ (forall f, format fullRequest = Present f -> f <> EmptyString ->
          f = GLB \/ f = GLTF)
    /\ (no_input_images fullRequest = false
        \/ truthy (read (prompt fullRequest)) = true).
Proof.
  apply (validate3DModelOptions_accepts_only fullRequest).
  vm_compute. reflexivity.
Defined.

(** X3. [getDefault3DOptions] has defaults exactly for the models of the
    compatibility table; the defaults name the model, set the format to
    glb and set a variant the table permits for the model.  For any
    other model it throws, naming the model, and so does
    [merge3DWithDefaults]. *)
Theorem getDefault3DOptions_table o :
  (forall name vs,
     model o = Present name ->
     AVAILABLE_VARIANTS !! name = Some vs ->
     exists d v,
       getDefault3DOptions (read (model o)) = Return d
       /\ model d = Present name
       /\ format d = Present GLB
       /\ variant d = Present v /\ v ∈ vs)
  /\ ((forall name, model o = Present name ->
         AVAILABLE_VARIANTS !! name = None) ->
      getDefault3DOptions (read (model o))
      = Throw ("No default options available for model: "
               +:+ show (read (model o)))
      /\ merge3DWithDefaults o
         = Throw ("No default options available for model: "
                  +:+ show (read (model o)))).
Proof.
  split.
  - intros name vs -> Hvs. apply available_inv in Hvs.
    destruct Hvs as [[-> ->]|[[-> ->]|[[-> ->]|[[-> ->]|[-> ->]]]]];
      do 2 eexists; (split; [reflexivity|]); simpl;
      repeat split; in_list.
  - intros Hnone.
    assert (Hthrow : getDefault3DOptions (read (model o))
                     = Throw ("No default options available for model: "
                              +:+ show (read (model o)))).
    { destruct (model o) as [| |name]; try reflexivity.
      specialize (Hnone name eq_refl).
      unfold getDefault3DOptions, value_is. simpl.
      repeat (destruct (String.eqb name _) eqn:E;
              [ apply String.eqb_eq in E; subst name;
                vm_compute in Hnone; discriminate Hnone
              | clear E ]).
      reflexivity. }
    split; [done|]. unfold merge3DWithDefaults. by rewrite Hthrow.
Qed.

Lemma getDefault3DOptions_table_witness :
  (exists d v,
     getDefault3DOptions (read (model emptyRequest)) = Return d
     /\ model d = Present TRELLIS
     /\ format d = Present GLB
     /\ variant d = Present v /\ v ∈ [SINGLE; MULTI])
  /\ getDefault3DOptions (Some "dalle")
     = Throw "No default options available for model: dalle".
Proof.
  split.
  - apply (proj1 (getDefault3DOptions_table emptyRequest)
             TRELLIS [SINGLE; MULTI] eq_refl).
    vm_compute. reflexivity.
  - refine (proj1 (proj2 (getDefault3DOptions_table
              (smartBase "a cube" "cube.glb" "dalle")) _)).
    intros name [= <-]. vm_compute. reflexivity.
Defined.

(** X4. [selectModelVariant] answers with a multi-image variant only for
    more than one input image, with a turbo variant only when turbo is
    preferred, and never with a turbo variant for the four models that
    have none; a model outside the table is treated like hunyuan3d. *)
Theorem selectModelVariant_shape m n preferTurbo :
  (includes (selectModelVariant m n preferTurbo) "multi" = true -> 1 < n)
  /\ (includes (selectModelVariant m n preferTurbo) "turbo" = true ->
      preferTurbo = true
      /\ m <> TRELLIS /\ m <> MESHY /\ m <> HUNYUAN_WORLD /\ m <> SEED3D)
  /\ (AVAILABLE_VARIANTS !! m = None ->
      selectModelVariant m n preferTurbo
      = selectModelVariant HUNYUAN3D n preferTurbo).
Proof.
  unfold selectModelVariant.
  destruct (String.eqb m TRELLIS) eqn:E1; [apply String.eqb_eq in E1|];
  destruct (String.eqb m MESHY) eqn:E2; try apply String.eqb_eq in E2;
  destruct (String.eqb m HUNYUAN_WORLD) eqn:E3; try apply String.eqb_eq in E3;
  destruct (String.eqb m SEED3D) eqn:E4; try apply String.eqb_eq in E4;
  subst; try discriminate; simpl;
  destruct (Z.leb_spec n 1); destruct preferTurbo; simpl;
  (split; [ intros; first [ discriminate | lia ] | ]);
  (split; [ intros; first [ discriminate | idtac ] | ]);
  try (intros Hnone; first [ reflexivity | vm_compute in Hnone; discriminate Hnone ]).
  all: repeat split; try done.
  all: try (apply String.eqb_neq; done).
Qed.

Lemma selectModelVariant_shape_witness : 1 < 3.
Proof.
  refine (proj1 (selectModelVariant_shape TRELLIS 3 false) _).
  reflexivity.
Defined.

(** ** The polling loop, continued *)

Section PollingErrors.
Variable http : nat -> string -> Completion MeshyTask.
Variables url auth : string.
Variable pollInterval : Z.

Lemma pollLoop_waits attempt remaining :
  0 <= pollInterval ->
  0 <= totalWait (pollLoop http url auth pollInterval attempt remaining).1
    <= Z.of_nat remaining * pollInterval
  /\ (length (sleeps (pollLoop http url auth pollInterval attempt remaining).1)
      <= length (requests
                   (pollLoop http url auth pollInterval attempt remaining).1))%nat
  /\ Forall (fun u => u = url)
       (requests (pollLoop http url auth pollInterval attempt remaining).1).
Proof.
  intros Hpos. revert attempt.
  induction remaining as [|n IH]; intros attempt.
  - simpl. unfold totalWait. simpl. repeat split; try lia. constructor.
  - cbn [pollLoop].
    assert (Hone : forall out : Completion MeshyTask,
              0 <= totalWait ([Requested url auth], out).1
                <= Z.of_nat (S n) * pollInterval
              /\ (length (sleeps ([Requested url auth], out).1)
                  <= length (requests ([Requested url auth], out).1))%nat
              /\ Forall (fun u => u = url)
                   (requests ([Requested url auth], out).1)).
    { intros out. unfold totalWait. simpl.
      repeat split; try lia; try nia; by repeat constructor. }
    destruct (http attempt url) as [task|e]; [|apply Hone].
    destruct (task_error_field task); [apply Hone|].
    destruct (value_is (task_status task) "SUCCEEDED"); [apply Hone|].
    destruct (value_is (task_status task) "FAILED"
              || value_is (task_status task) "EXPIRED"); [apply Hone|].
    destruct (IH (S attempt)) as ([Hlo Hhi] & Hlen & Hurl).
    destruct (pollLoop http url auth pollInterval (S attempt) n) as [evs out].
    unfold totalWait in *. simpl in *.
    repeat split; try lia; try nia; by constructor.
Qed.

Lemma pollLoop_stops k attempt remaining :
  (forall j, (j < k)%nat -> stillRunning (http (attempt + j) url)) ->
  (k < remaining)%nat ->
  (forall e, http (attempt + k) url = Throw e ->
     (pollLoop http url auth pollInterval attempt remaining).2 = Throw e
     /\ length (requests
                  (pollLoop http url auth pollInterval attempt remaining).1)
        = S k)
  /\ (forall task err,
        http (attempt + k) url = Return task ->
        task_error_field task = Some err ->
        (pollLoop http url auth pollInterval attempt remaining).2
        = Throw ("Meshy API error: "
                 +:+ or_else (err_message err) (err_json err))
        /\ length (requests
                     (pollLoop http url auth pollInterval attempt remaining).1)
           = S k).
Proof.
  intros Hrun Hk.
  rewrite (pollLoop_running http url auth pollInterval k attempt remaining)
    by (done || lia).
  destruct (remaining - k)%nat as [|n] eqn:Hn; [lia|].
  cbn [pollLoop fst snd].
  split.
  - intros e He. rewrite He. cbn [fst snd].
    rewrite requests_app, requests_rounds, length_app, length_replicate.
    simpl. split; [done | lia].
  - intros task err Htask Herr. rewrite Htask, Herr. cbn [fst snd].
    rewrite requests_app, requests_rounds, length_app, length_replicate.
    simpl. split; [done | lia].
Qed.
End PollingErrors.

(** X5. Whatever the ceiling and the interval, the polling loop stops at
    the first answer that is not a running task: when the request
    itself fails its error is passed on, and when the answer carries an
    error field the loop throws "Meshy API error: " with the error's
    message, or with the error's JSON text when it has no message.  No
    request follows. *)
Theorem pollMeshyTaskStatus_stops_on_error http taskId apiKey basePath
    maxAttempts pollInterval k :
  let url := "https://api.meshy.ai/openapi/v1/" +:+ basePath +:+ "/" +:+ taskId in
  let run := pollMeshyTaskStatus http taskId apiKey basePath maxAttempts
               pollInterval in
  (k < maxAttempts)%nat ->
  (forall j, (j < k)%nat -> stillRunning (http j url)) ->
  (forall e, http k url = Throw e ->
     run.2 = Throw e /\ length (requests run.1) = S k)
  /\ (forall task err,
        http k url = Return task ->
        task_error_field task = Some err ->
        run.2 = Throw ("Meshy API error: "
                       +:+ or_else (err_message err) (err_json err))
        /\ length (requests run.1) = S k).
Proof.
  intros url run Hk Hrun. subst run. unfold pollMeshyTaskStatus. fold url.
  apply (pollLoop_stops http url _ pollInterval k 0 maxAttempts); done.
Qed.

(** X6. The polling loop asks one URL only, sleeps at most once per
    request, and (the interval not being negative) waits at most the
    ceiling times the interval in total: ten minutes with the defaults.
    With a ceiling of zero it sends nothing and times out at once. *)
Theorem pollMeshyTaskStatus_waits http taskId apiKey basePath maxAttempts
    pollInterval :
  let url := "https://api.meshy.ai/openapi/v1/" +:+ basePath +:+ "/" +:+ taskId in
  let run := pollMeshyTaskStatus http taskId apiKey basePath maxAttempts
               pollInterval in
  0 <= pollInterval ->
  0 <= totalWait run.1 <= Z.of_nat maxAttempts * pollInterval
  /\ (length (sleeps run.1) <= length (requests run.1))%nat
  /\ Forall (fun u => u = url) (requests run.1)
  /\ (maxAttempts = 0%nat ->
      run = ([], Throw "Meshy task timed out after maximum polling attempts"))
  /\ (maxAttempts = defaultMaxAttempts ->
      pollInterval = defaultPollInterval ->
      totalWait run.1 <= 600000).
Proof.
  intros url run Hpos. subst run. unfold pollMeshyTaskStatus. fold url.
  destruct (pollLoop_waits http url ("Bearer " +:+ apiKey) pollInterval 0
              maxAttempts Hpos) as (Hwait & Hlen & Hurl).
  repeat split; try done; try lia.
  - by intros ->.
  - intros -> ->.
    destruct (pollLoop_waits http url ("Bearer " +:+ apiKey)
                defaultPollInterval 0 defaultMaxAttempts Hpos)
      as ([_ Hhi] & _ & _).
    unfold defaultMaxAttempts, defaultPollInterval in *. lia.
Qed.

Lemma pollMeshyTaskStatus_stops_on_error_witness :
  (pollMeshyTaskStatus refusedSecond "task" "key" "image-to-3d"
     defaultMaxAttempts defaultPollInterval).2
  = Throw "Meshy API error: Invalid API key"
  /\ length (requests
               (pollMeshyTaskStatus refusedSecond "task" "key" "image-to-3d"
                  defaultMaxAttempts defaultPollInterval).1) = 2%nat.
Proof.
  pose proof (pollMeshyTaskStatus_stops_on_error refusedSecond "task" "key"
                "image-to-3d" defaultMaxAttempts defaultPollInterval 1) as H.
  cbv zeta in H. destruct H as [_ H].
  - unfold defaultMaxAttempts. lia.
  - intros j Hj. exists runningTask.
    destruct j as [|j]; [ by repeat split | lia ].
  - exact (H refusedTask _ eq_refl eq_refl).
Defined.

Lemma pollMeshyTaskStatus_waits_witness :
  totalWait (pollMeshyTaskStatus thirdTimeLucky "task" "key" "image-to-3d"
               defaultMaxAttempts defaultPollInterval).1 <= 600000
  /\ pollMeshyTaskStatus thirdTimeLucky "task" "key" "image-to-3d" 0 5000
     = ([], Throw "Meshy task timed out after maximum polling attempts").
Proof.
  split.
  - refine (proj2 (proj2 (proj2 (proj2
      (pollMeshyTaskStatus_waits thirdTimeLucky "task" "key" "image-to-3d"
         defaultMaxAttempts defaultPollInterval _)))) eq_refl eq_refl).
    unfold defaultPollInterval. lia.
  - refine (proj1 (proj2 (proj2 (proj2
      (pollMeshyTaskStatus_waits thirdTimeLucky "task" "key" "image-to-3d"
         0 5000 _)))) eq_refl).
    lia.
Defined.

(** ** What a job does outside its status file, continued *)

(** X7. Outside its status file a job acts in a fixed order: first the
    image requests, then the backend call, then the deletions.  A
    request that passes validation calls exactly one backend; a request
    that fails validation requests no image, calls no backend and
    deletes nothing. *)
Theorem generate3DModelAsync_action_order env o statusPath w :
  let evs := newEvents w (generate3DModelAsync env o statusPath w).1 in
  external evs
  = (ImageRequested <$> imageCalls evs)
    ++ (uncurry BackendCalled <$> backendCalls evs)
    ++ (UnlinkCalled <$> unlinkCalls evs)
  /\ (validate3DModelOptions o = Return tt -> length (backendCalls evs) = 1%nat)
  /\ (forall e, validate3DModelOptions o = Throw e -> external evs = []).
Proof.
  intros evs. subst evs.
  pose proof (generate3DModelAsync_acts env o statusPath w) as H.
  cbv zeta in H.
  destruct (validate3DModelOptions o) as [[]|e].
  - destruct H as (b & Hacts & _).
    apply acts_newEvents in Hacts as (Hext & Himg & Hback & Hunlink).
    rewrite Hext, Himg, Hback, Hunlink.
    rewrite !imageCalls_app, !backendCalls_app, !unlinkCalls_app.
    rewrite imageCalls_requested, backendCalls_requested,
      unlinkCalls_requested, imageCalls_unlinked, backendCalls_unlinked,
      unlinkCalls_unlinked.
    simpl. by rewrite app_nil_r.
  - apply acts_newEvents in H as (Hext & Himg & Hback & Hunlink).
    rewrite Hext, Himg, Hback, Hunlink. by repeat split.
Qed.

Lemma generate3DModelAsync_action_order_witness :
  let evs := newEvents freshWorld
               (generate3DModelAsync savingEnv robotRequest
                  "robot_status.json" freshWorld).1 in
  length (imageCalls evs) = 3%nat
  /\ length (backendCalls evs) = 1%nat
  /\ unlinkCalls evs = ["robot"; "robot"; "robot"]
  /\ external evs
     = (ImageRequested <$> imageCalls evs)
       ++ (uncurry BackendCalled <$> backendCalls evs)
       ++ (UnlinkCalled <$> unlinkCalls evs).
Proof.
  cbv zeta.
  split; [vm_compute; reflexivity|].
  split.
  - refine (proj1 (proj2 (generate3DModelAsync_action_order savingEnv
              robotRequest "robot_status.json" freshWorld)) _).
    vm_compute. reflexivity.
  - split; [vm_compute; reflexivity|].
    exact (proj1 (generate3DModelAsync_action_order savingEnv robotRequest
                    "robot_status.json" freshWorld)).
Defined.

(** X8. The backend a job calls is the one of the requested model and
    of the variant the job runs with (the requested one, or else the one
    [selectModelVariant] picks for the number of input images), a
    variant the table permits for the model.  It is handed the prompt,
    output path and format of the request (glb when none is given) and,
    of the input images (the caller's, or the generated references),
    the first one for a single-image backend, all of them for a
    multi-image backend, and the first four for Meshy's. *)
Theorem generate3DModelAsync_routing env o statusPath w b args :
  let evs := newEvents w (generate3DModelAsync env o statusPath w).1 in
  let inputs :=
    if wantsReferences o then savedByCalls env 0 (imageCalls evs)
    else read_or [] (inputImagePaths o) in
  (b, args) ∈ backendCalls evs ->
  model o = Present (backendFamily b)
  /\ backendVariant b = actualVariantOf o (length inputs)
  /\ (exists vs, AVAILABLE_VARIANTS !! backendFamily b = Some vs
                 /\ backendVariant b ∈ vs)
  /\ args = backendArgsFor o b inputs
  /\ (b = meshyGenerateMulti ->
      b_images args = imagePaths (take 4 inputs)).
Proof.
  intros evs inputs. subst evs inputs.
  pose proof (generate3DModelAsync_acts env o statusPath w) as H.
  pose proof (actualVariantOf_permitted o (length (jobInputs env o))) as Hperm.
  cbv zeta in H.
  destruct (validate3DModelOptions o) as [[]|e].
  - destruct H as (b0 & Hacts & Hfamily & Hvariant & _).
    apply acts_newEvents in Hacts as (_ & Himg & Hback & _).
    rewrite Himg, Hback.
    rewrite !imageCalls_app, !backendCalls_app.
    rewrite imageCalls_requested, backendCalls_requested,
      imageCalls_unlinked, backendCalls_unlinked.
    simpl. rewrite app_nil_r.
    intros Hin. apply list_elem_of_singleton in Hin. injection Hin as -> ->.
    fold (jobInputs env o).
    destruct (Hperm eq_refl) as (m & vs & Hm & Hvs & Hv).
    rewrite Hfamily in Hm. injection Hm as <-.
    rewrite <- Hvariant in Hv.
    repeat split; try done.
    + by exists vs.
    + by intros ->.
  - apply acts_newEvents in H as (_ & _ & -> & _).
    intros Hin. by apply elem_of_nil in Hin.
Qed.

Lemma generate3DModelAsync_routing_witness :
  backendCalls
    (newEvents photoWorld
       (generate3DModelAsync savingEnv photoRequest "chair_status.json"
          photoWorld).1)
  = [(meshyGenerateMulti,
      {| b_prompt := Some "a wooden chair";
         b_images := imagePaths ["front.png"; "side.png"];
         b_outputPath := Some "chair.glb";
         b_format := "glb" |})]
  /\ backendVariant meshyGenerateMulti
     = actualVariantOf photoRequest 2.
Proof.
  split; [vm_compute; reflexivity|].
  refine (proj1 (proj2 (generate3DModelAsync_routing savingEnv photoRequest
            "chair_status.json" photoWorld meshyGenerateMulti
            {| b_prompt := Some "a wooden chair";
               b_images := imagePaths ["front.png"; "side.png"];
               b_outputPath := Some "chair.glb";
               b_format := "glb" |} _))).
  vm_compute. apply list_elem_of_here.
Defined.

(** X9. When the caller supplies input images, gives no prompt, or
    switches reference generation off, the job requests no image and
    deletes nothing: it leaves the files on disk as it found them, every
    file but its status file and the files the 3D backend saves holding
    what it held (what the 3D backend saves is the backend's
    business). *)
Theorem generate3DModelAsync_leaves_given_images env o statusPath w :
  let w' := (generate3DModelAsync env o statusPath w).1 in
  wantsReferences o = false ->
  imageCalls (newEvents w w') = []
  /\ unlinkCalls (newEvents w w') = []
  /\ (forall p, p ∈ files w -> p ∈ files w')
  /\ (forall p, p <> statusPath ->
        p ∉ backendSaved env (newEvents w w') ->
        disk w' !! p = disk w !! p)
  /\ files w' ∖ ({[statusPath]}
                 ∪ list_to_set (backendSaved env (newEvents w w')))
     = files w ∖ ({[statusPath]}
                  ∪ list_to_set (backendSaved env (newEvents w w'))).
Proof.
  intros w' Hno.
  pose proof (generate3DModelAsync_acts env o statusPath w) as H.
  cbv zeta in H. unfold jobInputs, jobRequests in H. rewrite Hno in H.
  fold w' in H.
  assert (Hquiet : exists xs,
             acts env statusPath w xs w'
             /\ imageCalls xs = [] /\ unlinkCalls xs = []).
  { destruct (validate3DModelOptions o) as [[]|e].
    - destruct H as (b & Hacts & _). eexists. split; [exact Hacts|].
      simpl. by destruct (read_or true (cleanupReferences o)).
    - by exists []. }
  destruct Hquiet as (xs & Hacts & Himg & Hunlink).
  destruct (acts_newEvents _ _ _ _ _ Hacts) as (_ & Himg' & _ & Hunlink').
  rewrite Himg', Hunlink'.
  split; [done|]. split; [done|].
  destruct Hacts as (evs & Htrace & Hext & Hkeep & Hsame & Hsaved).
  rewrite (newEvents_app _ _ _ Htrace).
  assert (Hnone : imageCalls evs = [])
    by (by rewrite <- imageCalls_external, Hext).
  assert (Hdel : unlinkCalls evs = [])
    by (by rewrite <- unlinkCalls_external, Hext).
  assert (Hheld : forall p, p <> statusPath ->
            p ∉ backendSaved env evs -> disk w' !! p = disk w !! p).
  { intros p Hne Hp. apply Hsame; [done|].
    rewrite <- (Hsaved Hnone) in Hp. clear -Hp Hdel.
    induction evs as [|[] evs IH]; simpl in *; try done; try by apply IH.
    apply not_elem_of_cons in Hp as [Hne Hp].
    apply not_elem_of_cons. split; [done | by apply IH]. }
  split; [|split; [exact Hheld|]].
  - intros p Hp. apply Hkeep; [done|]. rewrite Hdel. apply not_elem_of_nil.
  - apply set_eq. intros p.
    rewrite !elem_of_difference, !not_elem_of_union, !not_elem_of_singleton,
      !not_elem_of_list_to_set.
    unfold files. rewrite !elem_of_dom.
    split; intros [Hin [Hne Hp]]; (split; [|done]);
      [rewrite <- (Hheld p Hne Hp) | rewrite (Hheld p Hne Hp)]; done.
Qed.

Lemma generate3DModelAsync_leaves_given_images_witness :
  disk (generate3DModelAsync savingEnv photoRequest "chair_status.json"
          photoWorld).1 !! "front.png"
  = disk photoWorld !! "front.png".
Proof.
  refine (proj1 (proj2 (proj2 (proj2
            (generate3DModelAsync_leaves_given_images
               savingEnv photoRequest "chair_status.json" photoWorld _))))
            "front.png" _ _).
  - reflexivity.
  - discriminate.
  - vm_compute. intros Hin. not_in_list Hin.
Defined.

(** X10. A job deletes exactly the images its own image requests
    reported as saved, and only when [cleanupReferences] is not
    switched off: a file that was on disk before and was not reported by
    one of these requests is not deleted by the job. *)
Theorem generate3DModelAsync_deletes_only_generated env o statusPath w :
  let w' := (generate3DModelAsync env o statusPath w).1 in
  let saved := savedByCalls env 0 (imageCalls (newEvents w w')) in
  unlinkCalls (newEvents w w')
  = (if read_or true (cleanupReferences o) then saved else [])
  /\ (forall p, p ∈ files w -> p ∉ saved -> p ∈ files w').
Proof.
  intros w' saved. subst w' saved.
  pose proof (generate3DModelAsync_acts env o statusPath w) as H.
  cbv zeta in H.
  destruct (validate3DModelOptions o) as [[]|e].
  - destruct H as (b & Hacts & _).
    destruct (acts_newEvents _ _ _ _ _ Hacts) as (_ & Himg & _ & Hunlink).
    rewrite Himg, Hunlink.
    rewrite !imageCalls_app, !unlinkCalls_app.
    rewrite imageCalls_requested, unlinkCalls_requested, imageCalls_unlinked,
      unlinkCalls_unlinked.
    simpl. rewrite app_nil_r. split; [done|].
    intros p Hp Hnot. destruct Hacts as (evs & _ & Hext & Hkeep & _).
    apply Hkeep; [done|]. rewrite <- unlinkCalls_external, Hext.
    rewrite !unlinkCalls_app, unlinkCalls_requested, unlinkCalls_unlinked.
    simpl. destruct (read_or true (cleanupReferences o)); [done|].
    apply not_elem_of_nil.
  - destruct (acts_newEvents _ _ _ _ _ H) as (_ & -> & _ & ->).
    simpl. split; [by destruct (read_or true (cleanupReferences o))|].
    intros p Hp _. destruct H as (evs & _ & Hext & Hkeep & _).
    apply Hkeep; [done|]. rewrite <- unlinkCalls_external, Hext.
    apply not_elem_of_nil.
Qed.

Lemma generate3DModelAsync_deletes_only_generated_witness :
  "front.png" ∈ files (generate3DModelAsync savingEnv robotRequest
                         "robot_status.json" photoWorld).1.
Proof.
  refine (proj2 (generate3DModelAsync_deletes_only_generated savingEnv
            robotRequest "robot_status.json" photoWorld) "front.png" _ _).
  - vm_compute. set_solver.
  - vm_compute. intros Hin. not_in_list Hin.
Defined.

(** X11. A validated request without input images, with a prompt and
    with reference generation left on makes the image requests of the
    reference generator, called with the prompt, the output path
    without its extension and the configured image model (gemini by
    default): one request per configured view when the requested
    variant is a multi variant, and otherwise the front view alone.
    The suffix that names the view replaces an extension: when the
    shortened output path has no dot left, every request is told to
    write to that very path. *)
Theorem generate3DModelAsync_reference_requests env o statusPath w :
  let calls :=
    imageCalls (newEvents w (generate3DModelAsync env o statusPath w).1) in
  validate3DModelOptions o = Return tt ->
  wantsReferences o = true ->
  exists out,
    outputPath o = Present out
    /\ calls
       = referenceRequests env (show (read (prompt o)))
           (replace_ext out EmptyString) (plannedViews o)
           (read_or "gemini" (referenceModel o))
    /\ length calls = length (plannedViews o)
    /\ Forall (fun call =>
                 gi_provider call = read_or "gemini" (referenceModel o)) calls
    /\ (has_dot (replace_ext out EmptyString) = false ->
        Forall (fun call =>
                  gi_outputPath call = replace_ext out EmptyString) calls).
Proof.
  intros calls Hvalid Hwants. subst calls.
  pose proof (generate3DModelAsync_acts env o statusPath w) as H.
  cbv zeta in H. rewrite Hvalid in H.
  destruct H as (b & Hacts & _).
  destruct (acts_newEvents _ _ _ _ _ Hacts) as (_ & Himg & _).
  rewrite Himg, !imageCalls_app, imageCalls_requested, imageCalls_unlinked.
  simpl. rewrite app_nil_r.
  destruct (validated_inv o Hvalid) as (m & vs & out & _ & _ & Hout & _).
  exists out. split; [done|].
  unfold jobRequests. rewrite Hwants, Hout. cbn [read show].
  split; [done|].
  destruct (generateReferenceImages_acts env statusPath (show (read (prompt o)))
              (replace_ext out EmptyString) (plannedViews o)
              (read_or "gemini" (referenceModel o)) w)
    as (_ & _ & Hlen & Hall).
  cbv zeta in Hlen, Hall.
  split; [done|]. split.
  - eapply Forall_impl; [exact Hall|]. by intros call [? _].
  - intros Hdot. eapply Forall_impl; [exact Hall|].
    intros call [_ [view ->]]. by apply replace_ext_no_dot.
Qed.

Lemma generate3DModelAsync_reference_requests_witness :
  Forall (fun call => gi_outputPath call = "robot")
    (imageCalls
       (newEvents freshWorld
          (generate3DModelAsync savingEnv robotRequest "robot_status.json"
             freshWorld).1)).
Proof.
  destruct (generate3DModelAsync_reference_requests savingEnv robotRequest
              "robot_status.json" freshWorld)
    as (out & Hout & _ & _ & _ & Hsame).
  - vm_compute. reflexivity.
  - reflexivity.
  - injection Hout as <-. exact (Hsame eq_refl).
Defined.
(** ** The records of a job *)

#[local] Instance continues_transitive : Transitive continues.
Proof.
  intros r1 r2 r3 (Hi1 & Ht1 & lines & added & Hl1 & Hl2)
         (Hi2 & Ht2 & lines' & added' & Hl2' & Hl3).
  repeat split; [congruence | congruence |].
  exists lines, (added ++ added'). split; [done|].
  rewrite Hl3, app_assoc. f_equal. f_equal. congruence.
Qed.

Lemma continues_refl s : is_Some (logs s) -> continues s s.
Proof.
  intros [lines Hl]. repeat split. exists lines, []. by rewrite app_nil_r.
Qed.

#[local] Instance sameError_transitive : Transitive sameError.
Proof. intros r1 r2 r3 H1 H2. unfold sameError in *. congruence. Qed.

Section Evolution.
Variable env : Env.
Variable statusPath : string.
Hypothesis Hwritable : forall n, writable env n statusPath = true.
Variable R : relation Model3DGenerationStatus.
Variable ok : StatusUpdate -> Prop.
Context `{!Transitive R}.
Hypothesis R_refl : forall s, is_Some (logs s) -> R s s.
Hypothesis R_update : forall s upd,
  ok upd -> is_Some (logs s) -> R s (assign s upd).
Hypothesis R_log : forall s line, is_Some (logs s) -> R s (pushLog s line).
Hypothesis ok_logs : forall upd, ok upd -> set_logs upd = Absent.
Hypothesis ok_stage : forall p msg, ok (stage p msg).
Hypothesis ok_stageStatus : forall s p msg, ok (stageStatus s p msg).
Hypothesis ok_completed : forall msg t r,
  ok {| set_id := Absent; set_status := Present completed;
        set_progress := Present 100; set_message := Present msg;
        set_startTime := Absent; set_endTime := Present t;
        set_result := Present r; set_error := Absent; set_logs := Absent |}.

Lemma evolves_refl w : evolves statusPath R w w.
Proof.
  split; [apply grows_refl|]. intros s Hs _. exists s.
  unfold newEvents. rewrite drop_all.
  split; [done|]. split; [apply R_refl, Hs|]. split; constructor.
Qed.

Lemma evolves_seq w w1 w2 :
  evolves statusPath R w w1 -> evolves statusPath R w1 w2 ->
  evolves statusPath R w w2.
Proof.
  intros [Hg1 H1] [Hg2 H2]. split; [by eapply grows_trans|].
  intros s Hs Hleft. rewrite (newEvents_seq w w1 w2) in * by done.
  apply leftAlone_app in Hleft as [Hleft1 Hleft2].
  destruct (H1 s Hs Hleft1) as (s1 & Hs1 & HR1 & Hall1 & Hsorted1).
  destruct (H2 s1 Hs1 Hleft2) as (s2 & Hs2 & HR2 & Hall2 & Hsorted2).
  exists s2. rewrite statusWrites_app.
  split; [done|]. split; [by etrans|]. split.
  - apply Forall_app. split.
    + eapply Forall_impl; [exact Hall1|]. intros r [Ha Hb].
      split; [done | by etrans].
    + eapply Forall_impl; [exact Hall2|]. intros r [Ha Hb].
      split; [by etrans | done].
  - apply StronglySorted_app_2; [|done|done].
    intros r1 r2 Hr1 Hr2.
    rewrite Forall_forall in Hall1, Hall2.
    etrans; [apply (Hall1 r1 Hr1) | apply (Hall2 r2 Hr2)].
Qed.

Lemma evolves_guarded w w' :
  grows w w' ->
  (forall s, inUse statusPath w s -> evolves statusPath R w w') ->
  evolves statusPath R w w'.
Proof.
  intros Hg H. split; [done|].
  intros s Hs. destruct (H s Hs) as [_ Hrun]. by apply Hrun.
Qed.

Lemma evolves_stored w s r :
  inUse statusPath w s -> R s r -> is_Some (logs r) ->
  evolves statusPath R w (writeFileSync statusPath r w).
Proof.
  intros Hs HR Hl. split; [by exists [StatusWritten r]|].
  rewrite (newEvents_app _ (writeFileSync statusPath r w) [StatusWritten r])
    by done.
  intros s' Hs' _. rewrite (inUse_unique _ _ _ _ Hs' Hs). exists r. simpl.
  split; [by apply inUse_writeFileSync|]. split; [done|]. split.
  - repeat constructor; [done | by apply R_refl].
  - repeat constructor.
Qed.

Lemma evolves_quiet w evs w' :
  quiet w evs w' -> evolves statusPath R w w'.
Proof.
  intros (Htrace & Hnone & _ & Hsame). split; [by exists evs|].
  rewrite (newEvents_app _ _ _ Htrace).
  intros s [Hs Hl] Hleft. exists s. rewrite Hnone.
  split; [split; [by rewrite Hsame | done]|].
  split; [by apply R_refl|]. split; constructor.
Qed.

Lemma evolves_tick w : evolves statusPath R w (now env w).2.
Proof. apply (evolves_quiet w []), quiet_tick. Qed.

Lemma evolves_clock w :
  evolves statusPath R w
    {| disk := disk w; ticks := S (ticks w); trace := trace w |}.
Proof. apply (evolves_tick w). Qed.

Lemma evolves_update upd w :
  ok upd -> evolves statusPath R w (updateStatusFile env statusPath upd w).
Proof.
  intros Hok. apply evolves_guarded.
  { eapply acts_grows, acts_update. }
  intros s Hs. rewrite (updateStatusFile_existing env statusPath Hwritable _ _ _ Hs).
  apply (evolves_stored w s); [done | apply R_update; [done | apply Hs] |].
  rewrite logs_assign by by apply ok_logs. apply Hs.
Qed.

Lemma evolves_log msg w :
  evolves statusPath R w (addLogToStatus env statusPath msg w).
Proof.
  apply evolves_guarded.
  { eapply acts_grows, acts_log. }
  intros s Hs. rewrite (addLogToStatus_existing env statusPath Hwritable _ _ _ Hs).
  apply (evolves_seq w (now env w).2); [apply evolves_tick|].
  apply (evolves_stored _ s); [done | apply R_log, Hs |].
  apply is_Some_logs_pushLog, Hs.
Qed.

Lemma evolves_backend b args w :
  evolves statusPath R w (callBackend env b args w).1.
Proof. eapply evolves_quiet, quiet_callBackend. Qed.

Lemma evolves_unlink path w :
  evolves statusPath R w (unlinkSync env path w).1.
Proof. eapply evolves_quiet, quiet_unlink. Qed.

Lemma evolves_references prompt outputBasePath views model w :
  evolves statusPath R w
    (generateReferenceImages env prompt outputBasePath views model w).1.
Proof.
  unfold generateReferenceImages.
  destruct (referenceLoop_calls env prompt outputBasePath model
              (arraySort frontFirst views) 0 [])
    as (calls & _ & _ & Hrun).
  destruct (Hrun w) as (_ & _ & evs & Hquiet & _).
  by apply (evolves_quiet w evs).
Qed.

Lemma evolves_cleanupLoop refs : forall w,
  evolves statusPath R w (cleanupLoop env statusPath refs w).
Proof.
  induction refs as [|refPath rest IH]; intros w; simpl;
    [apply evolves_refl|].
  eapply evolves_seq; [|apply IH].
  pose proof (evolves_unlink refPath w) as Hunlink.
  destruct (unlinkSync env refPath w) as [w0 [[]|e]]; simpl in Hunlink;
    (eapply evolves_seq; [exact Hunlink | apply evolves_log]).
Qed.

Ltac evolves_step :=
  first [ simple apply evolves_log
        | simple apply evolves_tick
        | simple apply evolves_clock
        | simple apply evolves_backend
        | simple apply evolves_references
        | simple apply evolves_update; first [ simple apply ok_stage
                                             | simple apply ok_stageStatus
                                             | simple apply ok_completed ] ].

Ltac evolves_chain :=
  first [ simple apply evolves_refl
        | evolves_step
        | eapply evolves_seq; [ | evolves_step ]; [ evolves_chain ] ].

Lemma evolves_dispatch o actualVariant inputs w :
  evolves statusPath R w (dispatch env statusPath o actualVariant inputs w).1.
Proof.
  unfold dispatch. cbv zeta.
  repeat match goal with
         | |- context [if ?c then _ else _] => destruct c
         end;
    cbn [fst]; evolves_chain.
Qed.

Lemma evolves_prepareReferences o locals w :
  evolves statusPath R w (prepareReferences env statusPath o locals w).1.1.
Proof.
  unfold prepareReferences.
  destruct (_ && _ && _); [|apply evolves_refl].
  destruct (read (outputPath o)) as [out|]; [|simpl; evolves_chain].
  match goal with
  | |- context [generateReferenceImages ?e ?a ?b ?c ?d ?w0] =>
      pose proof (evolves_references a b c d w0) as Hrefs;
      destruct (generateReferenceImages e a b c d w0) as [w3 refs]
  end.
  simpl in *.
  eapply evolves_seq; [|apply evolves_log].
  eapply evolves_seq; [|exact Hrefs].
  evolves_chain.
Qed.

Lemma evolves_requestModel o locals w :
  evolves statusPath R w (requestModel env statusPath o locals w).1.
Proof.
  unfold requestModel. cbv zeta.
  eapply evolves_seq; [|apply evolves_dispatch].
  evolves_chain.
Qed.

Lemma evolves_finishJob o locals r w :
  evolves statusPath R w (finishJob env statusPath o locals r w).
Proof.
  unfold finishJob, now. cbv zeta beta iota.
  eapply evolves_seq; [|apply evolves_log].
  eapply evolves_seq; [|apply evolves_update, ok_completed].
  evolves_chain.
Qed.

Lemma evolves_tryBlock o locals w :
  evolves statusPath R w (tryBlock env statusPath o locals w).1.1.
Proof.
  unfold tryBlock. cbv zeta.
  destruct (validate3DModelOptions o) as [[]|e]; [|simpl; evolves_chain].
  match goal with
  | |- context [prepareReferences env statusPath o ?l ?w0] =>
      pose proof (evolves_prepareReferences o l w0) as HP;
      destruct (prepareReferences env statusPath o l w0)
        as [[w4 locals1] outP]
  end.
  simpl in HP.
  assert (Hto4 : evolves statusPath R w w4).
  { eapply evolves_seq; [|exact HP]. evolves_chain. }
  destruct outP as [[]|e]; [|exact Hto4].
  pose proof (evolves_requestModel o locals1 w4) as HR.
  destruct (requestModel env statusPath o locals1 w4) as [w5 [r|e]];
    simpl in *.
  - eapply evolves_seq; [|apply evolves_finishJob].
    by eapply evolves_seq.
  - by eapply evolves_seq.
Qed.

Lemma evolves_finallyBlock o locals w :
  evolves statusPath R w (finallyBlock env statusPath o locals w).
Proof.
  unfold finallyBlock.
  destruct (_ && _); [|apply evolves_refl].
  eapply evolves_seq; [apply evolves_log | apply evolves_cleanupLoop].
Qed.

End Evolution.

Lemma continues_assign s upd :
  set_id upd = Absent /\ set_startTime upd = Absent /\ set_logs upd = Absent ->
  is_Some (logs s) ->
  continues s (assign s upd).
Proof.
  intros (Hid & Hstart & Hlogs) [lines Hl]. unfold continues. simpl.
  rewrite Hid, Hstart, Hlogs. simpl. repeat split.
  exists lines, []. by rewrite app_nil_r.
Qed.

Lemma continues_pushLog s line :
  is_Some (logs s) -> continues s (pushLog s line).
Proof.
  intros [lines Hl]. repeat split. exists lines, [line].
  split; [done | by apply logs_pushLog].
Qed.

Lemma backgroundTask_unfold env statusPath o w :
  (generate3DModelAsync env o statusPath w).1
  = backgroundTask env statusPath o (started env statusPath w).
Proof. reflexivity. Qed.

Lemma backgroundTask_continues env statusPath o w :
  (forall n, writable env n statusPath = true) ->
  evolves statusPath continues w (backgroundTask env statusPath o w).
Proof.
  intros Hwritable.
  set (ok := fun upd => set_id upd = Absent /\ set_startTime upd = Absent
                        /\ set_logs upd = Absent).
  assert (Hlogs : forall upd, ok upd -> set_logs upd = Absent)
    by (by intros upd (_ & _ & ?)).
  unfold backgroundTask.
  pose proof (evolves_tryBlock env statusPath Hwritable continues ok
                continues_refl continues_assign continues_pushLog Hlogs
                ltac:(done) ltac:(done) ltac:(done) o
                {| finalInputPaths := read_or [] (inputImagePaths o);
                   generatedReferences := [] |} w) as Htry.
  destruct (tryBlock env statusPath o _ w) as [[w1 locals] outcome].
  simpl in Htry.
  eapply (evolves_seq statusPath continues); [exact Htry|].
  eapply (evolves_seq statusPath continues);
    [|apply (evolves_finallyBlock env statusPath Hwritable continues);
      [apply continues_refl | apply continues_pushLog]].
  destruct outcome as [u|e];
    [apply (evolves_refl statusPath continues), continues_refl|].
  unfold catchBlock, now. cbv zeta beta iota.
  eapply (evolves_seq statusPath continues);
    [apply (evolves_clock env statusPath continues), continues_refl|].
  eapply (evolves_seq statusPath continues);
    [|apply (evolves_log env statusPath Hwritable continues);
      [apply continues_refl | apply continues_pushLog]].
  apply (evolves_update env statusPath Hwritable continues ok);
    [apply continues_refl | apply continues_assign | exact Hlogs |].
  by repeat split.
Qed.

(** X12. On a status path that can hold a status file and that nothing
    else writes or deletes during the job, the records a job writes form
    one history: a later record has the id and the start time of every
    earlier one and all its log lines.  When the status file holds a
    record before the job starts (that of an earlier job, say), the job
    continues it: each of its records keeps that record's id, start time
    and log lines.  When there is no such file, the id is the base name
    of the status path and the start time is the time of the first
    write. *)
Theorem generate3DModelAsync_history_continues env o statusPath w :
  let history :=
    statusWrites
      (newEvents w (generate3DModelAsync env o statusPath w).1) in
  usable env statusPath w ->
  leftAlone statusPath
    (newEvents w (generate3DModelAsync env o statusPath w).1) ->
  (forall i j earlier later,
     (i < j)%nat ->
     history !! i = Some earlier ->
     history !! j = Some later ->
     continues earlier later)
  /\ (forall old r,
        statusFile statusPath w = Some old -> r ∈ history -> continues old r)
  /\ (forall r, statusFile statusPath w = None -> r ∈ history ->
        id r = Some (basename env statusPath ".json")
        /\ startTime r = Some (isoTime env (ticks w))).
Proof.
  intros history Husable Hleft. subst history.
  pose proof (proj1 Husable) as Hwritable.
  destruct (started_runs env statusPath Hwritable w Husable)
    as (r0 & Hevs0 & Hg0 & Huse0 & _ & Hold & Hnew).
  destruct (backgroundTask_continues env statusPath o
              (started env statusPath w) Hwritable) as [Hg Hrest].
  rewrite backgroundTask_unfold in *.
  rewrite (newEvents_seq w (started env statusPath w)) in * by done.
  apply leftAlone_app in Hleft as [_ Hleft].
  destruct (Hrest r0 Huse0 Hleft) as (s' & _ & _ & Hall & Hsorted).
  rewrite Hevs0. simpl.
  set (rest := statusWrites
                 (newEvents (started env statusPath w)
                    (backgroundTask env statusPath o
                       (started env statusPath w)))) in *.
  assert (Hfrom : Forall (continues r0) rest).
  { eapply Forall_impl; [exact Hall|]. by intros r [? _]. }
  assert (Hhistory : forall r, r ∈ r0 :: rest -> continues r0 r).
  { intros r Hr. apply elem_of_cons in Hr as [-> | Hr];
      [apply continues_refl, Huse0|].
    rewrite Forall_forall in Hfrom. by apply Hfrom. }
  split; [|split].
  - intros i j earlier later Hij Hi Hj.
    apply (StronglySorted_lookup continues (r0 :: rest) i j); try done.
    by constructor.
  - intros old r Hfile Hr.
    assert (Hdisk : disk w !! statusPath = Some (StatusJson old)).
    { unfold statusFile in Hfile.
      destruct (disk w !! statusPath) as [[]|]; congruence. }
    etrans; [|by apply Hhistory].
    rewrite (Hold old Hdisk). apply continues_assign; [done|].
    destruct Husable as [_ Hlogs]. by rewrite Hdisk in Hlogs.
  - intros r Hnone Hr.
    assert (Hdisk : disk w !! statusPath = None).
    { destruct Husable as [_ Hfile]. unfold statusFile in Hnone.
      destruct (disk w !! statusPath) as [[]|]; done. }
    destruct (Hhistory r Hr) as (Hid & Hstart & _).
    destruct (Hnew Hdisk) as (Hid0 & Hstart0 & _).
    by rewrite Hid, Hstart.
Qed.

Lemma generate3DModelAsync_history_continues_witness :
  Forall (fun r => id r = Some "first_job"
                   /\ startTime r = Some "2024-12-24T08:00:00.000Z")
    (statusWrites
       (newEvents staleWorld
          (generate3DModelAsync savingEnv cubeRequest "cube_status.json"
             staleWorld).1)).
Proof.
  apply Forall_forall. intros r Hr.
  destruct (proj1 (proj2 (generate3DModelAsync_history_continues savingEnv
              cubeRequest "cube_status.json" staleWorld
              ltac:(split; [intros n; reflexivity | vm_compute; by eexists])
              ltac:(vm_compute; intros Hin; not_in_list Hin)))
              staleRecord r eq_refl Hr) as (Hid & Hstart & _).
  by rewrite Hid, Hstart.
Defined.

Lemma sameError_tryBlock env statusPath o locals w :
  (forall n, writable env n statusPath = true) ->
  evolves statusPath sameError w (tryBlock env statusPath o locals w).1.1.
Proof.
  intros Hwritable.
  apply (evolves_tryBlock env statusPath Hwritable sameError
           (fun upd => set_error upd = Absent /\ set_logs upd = Absent));
    try done.
  - intros s upd [Hok _] _. unfold sameError. simpl. by rewrite Hok.
  - by intros upd [_ ?].
Qed.

(** The record of a job whose [try] block returned. *)
Lemma generate3DModelAsync_completed env o statusPath w w1 locals u r w5 :
  tryOutcome env o statusPath w = (w1, locals, Return u) ->
  w1 = finishJob env statusPath o locals r w5 ->
  usable env statusPath w ->
  leftAlone statusPath
    (newEvents w (generate3DModelAsync env o statusPath w).1) ->
  exists rec t,
    statusFile statusPath (generate3DModelAsync env o statusPath w).1
    = Some rec
    /\ status rec = Some completed
    /\ progress rec = Some 100
    /\ message rec = Some "3D model generation completed successfully!"
    /\ endTime rec = Some t
    /\ result rec
       = Some (if (0 <? length (generatedReferences locals))%nat
               then withReferences r (generatedReferences locals)
                      (read_or "gemini" (referenceModel o))
                      (read_or [Front; Back; Top] (referenceViews o))
               else r)
    /\ error rec = statusFile statusPath w ≫= error.
Proof.
  intros Htry Hw1 Husable Hleft.
  pose proof (proj1 Husable) as Hwritable.
  destruct (started_runs env statusPath Hwritable w Husable)
    as (r0 & _ & _ & Huse0 & Hmark0 & Hold & Hnew).
  destruct (generate3DModelAsync_stages env statusPath Hwritable o w)
    as (_ & _ & _ & _ & Hparts).
  destruct (Hparts Hleft) as (Hleft1 & _ & Hleft3).
  destruct (sameError_tryBlock env statusPath o (initialLocals o)
              (started env statusPath w) Hwritable) as [_ Hsame].
  fold (tryOutcome env o statusPath w) in Hsame.
  destruct (Hsame r0 Huse0 Hleft1) as (s1 & Huse1 & Herror & _).
  clear Hsame Hparts Hleft.
  rewrite generate3DModelAsync_unfold in *.
  unfold beforeCleanup in *. rewrite Htry in *. cbn [fst snd] in *.
  destruct (finishJob_leaves env statusPath Hwritable o locals r w5 s1)
    as (t & Hs & Hp & Hm & Ht & Hr).
  { by rewrite <- Hw1. }
  destruct (finallyBlock_onlyLogsAdded env statusPath Hwritable o locals w1 s1
              Huse1 Hleft3)
    as (rec & Huse & Hid & Hs' & Hp' & Hm' & _ & Ht' & Hr' & He' & _).
  exists rec, t.
  rewrite (inUse_statusFile _ _ _ Huse).
  rewrite Hs', Hp', Hm', Ht', Hr', He', Hs, Hp, Hm, Ht, Hr.
  do 6 (split; [done|]).
  rewrite Herror. unfold statusFile.
  destruct (disk w !! statusPath) as [[old|]|] eqn:Hdisk.
  - by rewrite (Hold old eq_refl).
  - destruct Husable as [_ Hfile]. by rewrite Hdisk in Hfile.
  - by destruct (Hnew eq_refl) as (_ & _ & -> & _).
Qed.

(** X13. When the [try] block of the background task returns, on a
    status path that can hold a status file and that nothing else
    writes or deletes during the job, the task ends with a record whose
    status is completed and whose progress is 100, with the completion
    message and an end time.  Its result is the answer of the one
    backend call; when reference images were generated, the answer
    carries their paths, the image model, and as generated views the
    configured reference views (whichever views were in fact
    requested).  The error field is not touched: it is what the status
    file held before the job, and absent for a new file. *)
Theorem generate3DModelAsync_completion_record env o statusPath w w1 locals u :
  let w' := (generate3DModelAsync env o statusPath w).1 in
  let evs := newEvents w w' in
  let saved := savedByCalls env 0 (imageCalls evs) in
  tryOutcome env o statusPath w = (w1, locals, Return u) ->
  usable env statusPath w ->
  leftAlone statusPath evs ->
  exists rec t b args r,
    statusFile statusPath w' = Some rec
    /\ status rec = Some completed
    /\ progress rec = Some 100
    /\ message rec = Some "3D model generation completed successfully!"
    /\ endTime rec = Some t
    /\ backendCalls evs = [(b, args)]
    /\ backend env b args = Return r
    /\ result rec
       = Some (if (0 <? length saved)%nat
               then withReferences r saved
                      (read_or "gemini" (referenceModel o))
                      (read_or [Front; Back; Top] (referenceViews o))
               else r)
    /\ error rec = statusFile statusPath w ≫= error.
Proof.
  intros w' evs saved Htry Husable Hleft. subst w' evs saved.
  pose proof (generate3DModelAsync_acts env o statusPath w) as H.
  pose proof (tryBlock_acts env statusPath o (started env statusPath w))
    as Hblock.
  cbv zeta in H, Hblock. fold (tryOutcome env o statusPath w) in Hblock.
  rewrite Htry in Hblock. simpl in Hblock.
  destruct (validate3DModelOptions o) as [[]|e];
    [|by destruct Hblock as (_ & _ & ?)].
  clear Hblock.
  destruct H as (b & Hacts & _ & _ & Hlocals & Hout & Hdone).
  rewrite Htry in Hlocals, Hout, Hdone. simpl in Hlocals, Hout, Hdone.
  destruct (backend env b (backendArgsFor o b (jobInputs env o)))
    as [r|e] eqn:Hbackend; [|done].
  destruct (Hdone r eq_refl) as (w5 & Hw1).
  destruct (generate3DModelAsync_completed env o statusPath w w1 locals u r w5
              Htry Hw1 Husable Hleft)
    as (rec & t & Hfile & Hs & Hp & Hm & Ht & Hr & He).
  destruct (acts_newEvents _ _ _ _ _ Hacts) as (_ & Himg & Hback & _).
  rewrite Himg, Hback. clear Himg Hback Hacts.
  rewrite !imageCalls_app, !backendCalls_app.
  rewrite imageCalls_requested, backendCalls_requested,
    imageCalls_unlinked, backendCalls_unlinked.
  exists rec, t, b, (backendArgsFor o b (jobInputs env o)), r.
  rewrite Hr, Hlocals. cbn [generatedReferences app].
  rewrite !app_nil_r. by repeat split.
Qed.

Lemma generate3DModelAsync_completion_record_witness :
  exists rec,
    statusFile "cube_status.json"
      (generate3DModelAsync savingEnv cubeRequest "cube_status.json"
         staleWorld).1 = Some rec
    /\ status rec = Some completed
    /\ error rec = Some "Seed3D API error: quota exceeded".
Proof.
  destruct (generate3DModelAsync_completion_record savingEnv cubeRequest
              "cube_status.json" staleWorld
              (tryOutcome savingEnv cubeRequest "cube_status.json"
                 staleWorld).1.1
              (tryOutcome savingEnv cubeRequest "cube_status.json"
                 staleWorld).1.2 tt)
    as (rec & t & b & args & r & Hfile & Hs & _ & _ & _ & _ & _ & _ & He).
  - vm_compute. reflexivity.
  - split; [intros n; reflexivity | vm_compute; by eexists].
  - vm_compute. intros Hin. not_in_list Hin.
  - exists rec. by repeat split.
Defined.

(** ** The synchronous generation *)

Lemma syncCleanupLoop_acts env statusPath refs : forall w,
  acts env statusPath w (UnlinkCalled <$> refs) (syncCleanupLoop env refs w).
Proof.
  induction refs as [|refPath rest IH]; intros w; simpl; [apply acts_refl|].
  eapply (acts_seq env statusPath w [UnlinkCalled refPath]);
    [apply acts_unlink | apply IH].
Qed.

Lemma syncFinallyBlock_acts env statusPath o locals w :
  acts env statusPath w
    (UnlinkCalled <$> (if read_or true (cleanupReferences o)
                       then generatedReferences locals else []))
    (syncFinallyBlock env o locals w).
Proof.
  unfold syncFinallyBlock.
  destruct (read_or true (cleanupReferences o)); simpl;
    [|apply acts_refl].
  destruct (generatedReferences locals) as [|ref refs] eqn:Hrefs;
    [apply acts_refl|].
  cbn [length Nat.ltb Nat.leb]. rewrite <- Hrefs.
  apply syncCleanupLoop_acts.
Qed.

Lemma syncReferences_acts env statusPath o out w :
  outputPath o = Present out ->
  acts env statusPath w (ImageRequested <$> jobRequests env o)
    (syncReferences env o (initialLocals o) w).1.1
  /\ (syncReferences env o (initialLocals o) w).1.2
     = {| finalInputPaths := jobInputs env o;
          generatedReferences := savedByCalls env 0 (jobRequests env o) |}
  /\ (syncReferences env o (initialLocals o) w).2
     = (if wantsReferences o && (length (jobInputs env o) =? 0)%nat
        then Throw "Failed to generate reference images automatically"
        else Return tt).
Proof.
  intros Hout.
  unfold syncReferences, jobInputs, jobRequests, wantsReferences,
    plannedViews, initialLocals.
  cbn [finalInputPaths generatedReferences].
  destruct (_ && _ && _); [|by split; [apply acts_refl|]].
  rewrite Hout. cbn [read show].
  match goal with
  | |- context [generateReferenceImages ?e ?a ?b ?c ?d ?w0] =>
      destruct (generateReferenceImages_acts e statusPath a b c d w0)
        as (Hacts & Hrefs & _);
      destruct (generateReferenceImages e a b c d w0) as [w3 refs]
  end.
  simpl in Hacts, Hrefs. subst refs. simpl.
  by destruct (length _ =? 0)%nat.
Qed.

(** The synchronous function on a validated request: with no input
    image at hand it throws before any backend is called; otherwise it
    does what the background task does outside the status file. *)
Lemma generate3DModel_acts env statusPath o w :
  validate3DModelOptions o = Return tt ->
  let run := generate3DModel env o w in
  let decorate r :=
    if (0 <? length (savedByCalls env 0 (jobRequests env o)))%nat
    then withReferences r (savedByCalls env 0 (jobRequests env o))
           (read_or "gemini" (referenceModel o))
           (read_or [Front; Back; Top] (referenceViews o))
    else r in
  if (length (jobInputs env o) =? 0)%nat then
    acts env statusPath w (ImageRequested <$> jobRequests env o) run.1
    /\ run.2
       = Throw (if wantsReferences o
                then "Failed to generate reference images automatically"
                else "At least one input image is required for 3D model generation")
  else
    exists b,
      acts env statusPath w ((ImageRequested <$> jobRequests env o)
              ++ [BackendCalled b (backendArgsFor o b (jobInputs env o))]
              ++ (UnlinkCalled <$>
                    (if read_or true (cleanupReferences o)
                     then savedByCalls env 0 (jobRequests env o)
                     else []))) run.1
      /\ model o = Present (backendFamily b)
      /\ backendVariant b = actualVariantOf o (length (jobInputs env o))
      /\ run.2 = (backend env b (backendArgsFor o b (jobInputs env o))
                  ≫= fun r => Return (decorate r)).
Proof.
  intros Hvalid run decorate. subst run decorate.
  unfold generate3DModel, syncTryBlock. fold (initialLocals o).
  destruct (validated_inv o Hvalid)
    as (m0 & vs0 & out & _ & _ & Hout & _).
  destruct (actualVariantOf_permitted o (length (jobInputs env o)) Hvalid)
    as (m & vs & Hm & Hvs & Hv).
  destruct (syncReferences_acts env statusPath o out w Hout)
    as (HactsS & HlocalsS & HoutS).
  destruct (syncReferences env o (initialLocals o) w)
    as [[w1 locals1] outS].
  simpl in HactsS, HlocalsS, HoutS. subst locals1 outS.
  cbn [finalInputPaths generatedReferences].
  destruct (length (jobInputs env o) =? 0)%nat eqn:Hnone.
  - assert (Hsaved : savedByCalls env 0 (jobRequests env o) = []).
    { unfold jobInputs, jobRequests in *.
      destruct (wantsReferences o); [|done].
      apply Nat.eqb_eq in Hnone. by apply length_zero_iff_nil. }
    pose proof (syncFinallyBlock_acts env statusPath o
                  {| finalInputPaths := jobInputs env o;
                     generatedReferences :=
                       savedByCalls env 0 (jobRequests env o) |} w1)
      as Hfin.
    simpl in Hfin. rewrite Hsaved in *.
    assert (Hquiet : acts env statusPath w (ImageRequested <$> jobRequests env o)
                       (syncFinallyBlock env o
                          {| finalInputPaths := jobInputs env o;
                             generatedReferences := [] |} w1)).
    { eapply acts_then; [exact HactsS|].
      by destruct (read_or true (cleanupReferences o)). }
    by destruct (wantsReferences o).
  - rewrite andb_false_r.
    fold (actualVariantOf o (length (jobInputs env o))).
    destruct (callModel_acts env statusPath o m vs
                (actualVariantOf o (length (jobInputs env o)))
                (jobInputs env o) w1 Hm Hvs Hv)
      as (b & HactsC & HoutC & Hfamily & Hvariant).
    destruct (callModel env o _ (jobInputs env o) w1) as [w2 outC].
    simpl in HactsC, HoutC. subst outC.
    exists b. rewrite Hfamily.
    assert (Hall : acts env statusPath w
              ((ImageRequested <$> jobRequests env o)
               ++ [BackendCalled b (backendArgsFor o b (jobInputs env o))]
               ++ (UnlinkCalled <$>
                     (if read_or true (cleanupReferences o)
                      then savedByCalls env 0 (jobRequests env o)
                      else [])))
              (syncFinallyBlock env o
                 {| finalInputPaths := jobInputs env o;
                    generatedReferences :=
                      savedByCalls env 0 (jobRequests env o) |} w2)).
    { rewrite app_assoc.
      eapply acts_seq; [|apply syncFinallyBlock_acts].
      by eapply acts_seq. }
    destruct (backend env b (backendArgsFor o b (jobInputs env o)))
      as [r|e]; simpl; (split; [exact Hall | done]).
Qed.

Lemma backend_determined b b' :
  backendFamily b = backendFamily b' ->
  backendVariant b = backendVariant b' ->
  b = b'.
Proof. destruct b, b'; simpl; intros Hf Hv; try done. Qed.

(** How the background task ends, by the answer of its backend. *)
Lemma generate3DModelAsync_outcome env o statusPath w :
  validate3DModelOptions o = Return tt ->
  let w' := (generate3DModelAsync env o statusPath w).1 in
  exists b,
    acts env statusPath w
      ((ImageRequested <$> jobRequests env o)
       ++ [BackendCalled b (backendArgsFor o b (jobInputs env o))]
       ++ (UnlinkCalled <$>
             (if read_or true (cleanupReferences o)
              then savedByCalls env 0 (jobRequests env o)
              else []))) w'
    /\ model o = Present (backendFamily b)
    /\ backendVariant b = actualVariantOf o (length (jobInputs env o))
    /\ (usable env statusPath w ->
        leftAlone statusPath (newEvents w w') ->
        match backend env b (backendArgsFor o b (jobInputs env o)) with
        | Return r =>
            exists rec,
              statusFile statusPath w' = Some rec
              /\ status rec = Some completed
              /\ result rec
                 = Some (if (0 <? length (savedByCalls env 0
                                            (jobRequests env o)))%nat
                         then withReferences r
                                (savedByCalls env 0 (jobRequests env o))
                                (read_or "gemini" (referenceModel o))
                                (read_or [Front; Back; Top]
                                   (referenceViews o))
                         else r)
        | Throw e =>
            exists rec,
              statusFile statusPath w' = Some rec
              /\ status rec = Some failed
              /\ error rec = Some e
        end).
Proof.
  intros Hvalid w'. subst w'.
  pose proof (generate3DModelAsync_acts env o statusPath w) as H.
  cbv zeta in H. rewrite Hvalid in H.
  destruct H as (b & Hacts & Hfamily & Hvariant & Hlocals & Hout & Hdone).
  exists b. split; [done|]. split; [done|]. split; [done|].
  intros Husable Hleft.
  destruct (tryOutcome env o statusPath w) as [[w1 locals] outcome] eqn:Htry.
  simpl in Hlocals, Hout, Hdone.
  destruct (backend env b (backendArgsFor o b (jobInputs env o)))
    as [r|e]; simpl in Hout; subst outcome.
  - destruct (Hdone r eq_refl) as (w5 & Hw1).
    destruct (generate3DModelAsync_completed env o statusPath w w1 locals tt
                r w5 Htry Hw1 Husable Hleft)
      as (rec & t & Hfile & Hs & _ & _ & _ & Hr & _).
    exists rec. rewrite Hr, Hlocals. done.
  - destruct (generate3DModelAsync_failed env o statusPath w w1 locals e
                Htry Husable Hleft)
      as (rec & t & Hfile & Hs & _ & _ & He & _).
    by exists rec.
Qed.

(** X14. On a validated request that has an input image to work on
    (the caller's, or a generated reference) the synchronous function
    and the background task do the same outside the status file: the
    same image requests, the same backend call, the same deletions.
    When the status path can hold a status file that nothing else
    writes or deletes during the job, what the synchronous function
    returns is the result the task records as completed, and what it
    throws is the error the task records as failed. *)
Theorem generate3DModel_agrees_with_async env o statusPath w :
  let sync := generate3DModel env o w in
  let async := (generate3DModelAsync env o statusPath w).1 in
  validate3DModelOptions o = Return tt ->
  jobInputs env o <> [] ->
  external (newEvents w sync.1) = external (newEvents w async)
  /\ (usable env statusPath w ->
      leftAlone statusPath (newEvents w async) ->
      (forall r,
         sync.2 = Return r <->
         exists rec, statusFile statusPath async = Some rec
                     /\ status rec = Some completed /\ result rec = Some r)
      /\ (forall e,
            sync.2 = Throw e <->
            exists rec, statusFile statusPath async = Some rec
                        /\ status rec = Some failed
                        /\ error rec = Some e)).
Proof.
  intros sync async Hvalid Hinputs. subst sync async.
  pose proof (generate3DModel_acts env statusPath o w Hvalid) as Hsync.
  destruct (generate3DModelAsync_outcome env o statusPath w Hvalid)
    as (b & Hacts & Hfamily & Hvariant & Hend).
  cbv zeta in Hsync.
  destruct (length (jobInputs env o) =? 0)%nat eqn:Hnone.
  { apply Nat.eqb_eq, length_zero_iff_nil in Hnone. done. }
  destruct Hsync as (b' & Hacts' & Hfamily' & Hvariant' & Hout').
  assert (b' = b) as ->.
  { apply backend_determined; [|congruence].
    rewrite Hfamily in Hfamily'. by injection Hfamily'. }
  destruct (acts_newEvents _ _ _ _ _ Hacts) as (-> & _).
  destruct (acts_newEvents _ _ _ _ _ Hacts') as (-> & _).
  split; [done|]. intros Husable Hleft. specialize (Hend Husable Hleft).
  rewrite Hout'.
  remember (generate3DModelAsync env o statusPath w).1 as async eqn:Easync.
  clear Easync.
  destruct (backend env b (backendArgsFor o b (jobInputs env o)))
    as [r0|e0]; simpl; destruct Hend as (rec & Hfile & Hs & Hr).
  - split.
    + intros r. split.
      * intros [= <-]. by exists rec.
      * intros (rec' & Hfile' & _ & Hr'). congruence.
    + intros e. split; [done|].
      intros (rec' & Hfile' & Hs' & _). congruence.
  - split.
    + intros r. split; [done|].
      intros (rec' & Hfile' & Hs' & _). congruence.
    + intros e. split.
      * intros [= <-]. by exists rec.
      * intros (rec' & Hfile' & _ & He'). congruence.
Qed.

Lemma generate3DModel_agrees_with_async_witness :
  exists r rec,
    (generate3DModel savingEnv photoRequest photoWorld).2 = Return r
    /\ statusFile "chair_status.json"
         (generate3DModelAsync savingEnv photoRequest
            "chair_status.json" photoWorld).1 = Some rec
    /\ status rec = Some completed
    /\ result rec = Some r.
Proof.
  destruct (generate3DModel_agrees_with_async savingEnv photoRequest
              "chair_status.json" photoWorld)
    as (_ & Hrecords).
  - vm_compute. reflexivity.
  - vm_compute. discriminate.
  - destruct Hrecords as (Hreturn & _).
    + split; [intros n; reflexivity | vm_compute; exact I].
    + vm_compute. intros Hin. not_in_list Hin.
    + destruct (proj1 (Hreturn emptyResult)) as (rec & Hrec).
      * vm_compute. reflexivity.
      * by exists emptyResult, rec.
Defined.

(** X15. On a validated request that has no input image to work on
    the two entry points part ways.  The synchronous function throws
    without calling a backend: "Failed to generate reference images
    automatically" when no image request saved an image, "At least one
    input image is required for 3D model generation" when reference
    generation is switched off.  The background task has no such check:
    it calls the backend of the model with no image. *)
Theorem generate3DModel_requires_image env o statusPath w :
  let sync := generate3DModel env o w in
  let async := (generate3DModelAsync env o statusPath w).1 in
  validate3DModelOptions o = Return tt ->
  jobInputs env o = [] ->
  sync.2
  = Throw (if wantsReferences o
           then "Failed to generate reference images automatically"
           else "At least one input image is required for 3D model generation")
  /\ backendCalls (newEvents w sync.1) = []
  /\ unlinkCalls (newEvents w sync.1) = []
  /\ exists b,
       backendCalls (newEvents w async) = [(b, backendArgsFor o b [])]
       /\ (b_images (backendArgsFor o b []) = imagePath None
           \/ b_images (backendArgsFor o b []) = imagePaths []).
Proof.
  intros sync async Hvalid Hinputs. subst sync async.
  pose proof (generate3DModel_acts env statusPath o w Hvalid) as Hsync.
  destruct (generate3DModelAsync_outcome env o statusPath w Hvalid)
    as (b & Hacts & _).
  cbv zeta in Hsync. rewrite Hinputs in Hsync, Hacts. simpl in Hsync.
  destruct Hsync as (Hacts' & ->).
  destruct (acts_newEvents _ _ _ _ _ Hacts) as (_ & _ & -> & _).
  destruct (acts_newEvents _ _ _ _ _ Hacts') as (_ & _ & -> & ->).
  rewrite backendCalls_requested, unlinkCalls_requested.
  split; [done|]. split; [done|]. split; [done|].
  exists b. split.
  - rewrite !backendCalls_app, backendCalls_requested, backendCalls_unlinked.
    done.
  - destruct b; simpl; auto.
Qed.

Lemma generate3DModel_requires_image_witness :
  (generate3DModel noImagesEnv (smartBase "a cube" "cube.glb" HUNYUAN_WORLD)
     freshWorld).2
  = Throw "Failed to generate reference images automatically"
  /\ exists b,
       backendCalls
         (newEvents freshWorld
            (generate3DModelAsync noImagesEnv
               (smartBase "a cube" "cube.glb" HUNYUAN_WORLD)
               "cube_status.json" freshWorld).1)
       = [(b, backendArgsFor (smartBase "a cube" "cube.glb" HUNYUAN_WORLD)
                b [])].
Proof.
  destruct (generate3DModel_requires_image noImagesEnv
              (smartBase "a cube" "cube.glb" HUNYUAN_WORLD)
              "cube_status.json" freshWorld)
    as (Hthrow & _ & _ & b & Hcall & _).
  - vm_compute. reflexivity.
  - vm_compute. reflexivity.
  - split; [exact Hthrow | by exists b].
Defined.

Lemma generate3DModel_requests env o w :
  validate3DModelOptions o = Return tt ->
  imageCalls (newEvents w (generate3DModel env o w).1) = jobRequests env o.
Proof.
  intros Hvalid.
  pose proof (generate3DModel_acts env EmptyString o w Hvalid) as H.
  cbv zeta in H.
  destruct (length (jobInputs env o) =? 0)%nat.
  - destruct H as (Hacts & _).
    destruct (acts_newEvents _ _ _ _ _ Hacts) as (_ & -> & _).
    apply imageCalls_requested.
  - destruct H as (b & Hacts & _).
    destruct (acts_newEvents _ _ _ _ _ Hacts) as (_ & -> & _).
    rewrite !imageCalls_app, imageCalls_requested, imageCalls_unlinked.
    simpl. by rewrite app_nil_r.
Qed.

(** X16. Called with a prompt, an output path and a model only,
    [generate3DModelSmart] runs the synchronous generation on the
    defaults of the model (hunyuan3d when no model is given), which
    pass validation whenever the prompt is not empty and the output
    path is not blank.  The defaults of trellis and hunyuan3d ask for
    the multi variant, so three reference images (front, back, top) are
    requested from gemini; those of the other models ask for the single
    variant, and one image is requested.  For a model without defaults
    the function throws before validation, and does nothing. *)
Theorem generate3DModelSmart_defaults env p out model w :
  let m := default HUNYUAN3D model in
  let run := generate3DModelSmart env p out model noOptions w in
  (forall vs,
     AVAILABLE_VARIANTS !! m = Some vs ->
     p <> EmptyString ->
     blank out = false ->
     exists full,
       merge3DWithDefaults (smartBase p out m) = Return full
       /\ validate3DModelOptions full = Return tt
       /\ run = generate3DModel env full w
       /\ variant full = Present (if multiByDefault m then MULTI else SINGLE)
       /\ length (imageCalls (newEvents w run.1))
          = (if multiByDefault m then 3 else 1)%nat
       /\ Forall (fun call => gi_provider call = "gemini")
            (imageCalls (newEvents w run.1)))
  /\ (AVAILABLE_VARIANTS !! m = None ->
      run = (w, Throw ("No default options available for model: " +:+ m))).
Proof.
  intros m run. subst run. unfold generate3DModelSmart. fold m.
  assert (Hbase : spread (smartBase p out m) noOptions = smartBase p out m)
    by done.
  rewrite Hbase. clear Hbase. split.
  - intros vs Hvs Hp Hout.
    assert (Hmerge : exists full,
               merge3DWithDefaults (smartBase p out m) = Return full
               /\ validate3DModelOptions full = Return tt
               /\ variant full
                  = Present (if multiByDefault m then MULTI else SINGLE)
               /\ wantsReferences full = true
               /\ plannedViews full
                  = (if multiByDefault m then [Front; Back; Top]
                     else [Front])
               /\ referenceModel full = Present "gemini"
               /\ outputPath full = Present out
               /\ prompt full = Present p).
    { clearbody m. apply available_inv in Hvs.
      destruct p as [|c p]; [done|]. destruct out as [|c' out]; [done|].
      simpl in Hout.
      destruct Hvs as [[-> ->]|[[-> ->]|[[-> ->]|[[-> ->]|[-> ->]]]]];
        eexists; (split; [reflexivity|]);
        unfold validate3DModelOptions, wantsReferences; simpl;
        rewrite Hout; by repeat split. }
    destruct Hmerge as (full & Hmerge & Hvalid & Hvariant & Hwants & Hviews
                        & Hmodel & Hpathfull & Hprompt).
    exists full. rewrite Hmerge, Hvalid.
    split; [done|]. split; [done|]. split; [done|]. split; [done|].
    rewrite (generate3DModel_requests env full w Hvalid).
    unfold jobRequests. rewrite Hwants, Hviews, Hmodel.
    match goal with
    | |- context [referenceRequests env ?a ?b ?c ?d] =>
        destruct (generateReferenceImages_acts env EmptyString a b c d w)
          as (_ & _ & Hlen & Hall)
    end.
    cbv zeta in Hlen, Hall. split.
    + rewrite Hlen. by destruct (multiByDefault m).
    + eapply Forall_impl; [exact Hall|]. by intros call [? _].
  - intros Hnone. unfold merge3DWithDefaults. simpl.
    assert (Hthrow : getDefault3DOptions (Some m)
                     = Throw ("No default options available for model: "
                              +:+ m)); [|by rewrite Hthrow].
    clearbody m. unfold getDefault3DOptions, value_is.
    repeat (destruct (String.eqb m _) eqn:E;
            [ apply String.eqb_eq in E; subst m;
              vm_compute in Hnone; discriminate Hnone
            | clear E ]).
    reflexivity.
Qed.

Lemma generate3DModelSmart_defaults_witness :
  length
    (imageCalls
       (newEvents freshWorld
          (generate3DModelSmart savingEnv "a toy robot" "robot.glb" None
             noOptions freshWorld).1))
  = 3%nat.
Proof.
  destruct (proj1 (generate3DModelSmart_defaults savingEnv "a toy robot"
                     "robot.glb" None freshWorld)
              [SINGLE; MULTI; SINGLE_TURBO; MULTI_TURBO])
    as (full & _ & _ & _ & _ & Hlen & _).
  - vm_compute. reflexivity.
  - discriminate.
  - reflexivity.
  - exact Hlen.
Defined.

(** ** The reference generator and the status store, continued *)

(** X17. The reference generator asks for the front views first and
    then for the other views in the order they were given, one request
    per view.  Each request names the image model, writes to the base
    path with its extension replaced by the view's suffix, and asks
    for 1024x1024 from openai and square_hd from falai.  Only the first
    request carries the caller's prompt; the later ones ask for another
    view of the object in the images saved so far. *)
Theorem generateReferenceImages_request_order env prompt outputBasePath views
    model w :
  let run := generateReferenceImages env prompt outputBasePath views model w in
  let calls := imageCalls (newEvents w run.1) in
  let sorted :=
    filter (fun v => v = Front) views ++ filter (fun v => v <> Front) views in
  length calls = length views
  /\ (views = [] -> run = (w, []))
  /\ forall k view,
       sorted !! k = Some view ->
       exists call,
         calls !! k = Some call
         /\ gi_provider call = model
         /\ gi_outputPath call
            = replace_ext outputBasePath
                ("_ref_" +:+ view_name view +:+ ".png")
         /\ gi_prompt call
            = (if (k =? 0)%nat then firstViewPrompt prompt view
               else nextViewPrompt view)
         /\ gi_inputImagePaths call
            = (if (k =? 0)%nat then None
               else Some (savedByCalls env 0 (take k calls)))
         /\ gi_size call
            = (if String.eqb model "openai" then Some "1024x1024" else None)
         /\ gi_image_size call
            = (if String.eqb model "falai" then Some "square_hd" else None).
Proof.
  intros run calls sorted. subst run calls sorted.
  destruct (generateReferenceImages_calls env prompt outputBasePath views
              model w) as (Hlen & Hcalls & _).
  rewrite arraySort_length in Hlen.
  split; [done|]. split; [by intros ->|].
  intros k view Hview. rewrite <- arraySort_frontFirst in Hview.
  rewrite (Hcalls k view Hview). eexists. split; [reflexivity|].
  simpl. by repeat split.
Qed.

Lemma generateReferenceImages_request_order_witness :
  gi_outputPath
  <$> imageCalls
        (newEvents freshWorld
           (generateReferenceImages testEnv "a red cube" "cube.glb"
              [Top; Front; Back] "falai" freshWorld).1)
  = ["cube_ref_front.png"; "cube_ref_top.png"; "cube_ref_back.png"].
Proof.
  pose proof (generateReferenceImages_request_order testEnv "a red cube"
                "cube.glb" [Top; Front; Back] "falai" freshWorld) as H.
  cbv zeta in H. destruct H as (Hlen & _ & Hcalls).
  destruct (Hcalls 0%nat Front eq_refl) as (c0 & H0 & _ & Hp0 & _).
  destruct (Hcalls 1%nat Top eq_refl) as (c1 & H1 & _ & Hp1 & _).
  destruct (Hcalls 2%nat Back eq_refl) as (c2 & H2 & _ & Hp2 & _).
  destruct (imageCalls _) as [|d0 [|d1 [|d2 [|d3 rest]]]]; try done.
  simpl in *. injection H0 as ->. injection H1 as ->. injection H2 as ->.
  by rewrite Hp0, Hp1, Hp2.
Defined.

(** X18. On a status path that can be written and that holds a record
    with its log, [updateStatusFile] with an update that leaves the log
    alone reads the clock not at all, is idempotent, and commutes with
    [addLogToStatus]: the stored record is the same in either order,
    namely the old record with the fields of the update overwritten and
    one line, stamped with the time, appended to its log.  An update
    that sets the log does not commute: the line logged before it is
    lost.  On a missing file the order matters too: the record a log
    entry creates is processing, the record an update creates is
    pending, unless the update sets the status. *)
Theorem updateStatusFile_commutes_with_log env statusPath upd msg w :
  let updated := updateStatusFile env statusPath upd w in
  let line := "[" +:+ isoTime env (ticks w) +:+ "] " +:+ msg in
  (forall n, writable env n statusPath = true) ->
  (forall old,
     inUse statusPath w old ->
     set_logs upd = Absent ->
     ticks updated = ticks w
     /\ statusFile statusPath (updateStatusFile env statusPath upd updated)
        = statusFile statusPath updated
     /\ statusFile statusPath (addLogToStatus env statusPath msg updated)
        = Some (pushLog (assign old upd) line)
     /\ statusFile statusPath
          (updateStatusFile env statusPath upd
             (addLogToStatus env statusPath msg w))
        = Some (pushLog (assign old upd) line))
  /\ (forall old lines,
        inUse statusPath w old ->
        set_logs upd = Present lines ->
        logs <$> statusFile statusPath
                   (addLogToStatus env statusPath msg updated)
        = Some (Some (lines ++ [line]))
        /\ logs <$> statusFile statusPath
                      (updateStatusFile env statusPath upd
                         (addLogToStatus env statusPath msg w))
           = Some (Some lines))
  /\ (disk w !! statusPath = None ->
      set_status upd = Absent ->
      set_logs upd = Absent ->
      status <$> statusFile statusPath
                   (addLogToStatus env statusPath msg updated)
      = Some (Some pending)
      /\ status <$> statusFile statusPath
                      (updateStatusFile env statusPath upd
                         (addLogToStatus env statusPath msg w))
         = Some (Some processing)).
Proof.
  intros updated line Hwritable. subst updated line.
  assert (Hread : forall r w0,
            statusFile statusPath (writeFileSync statusPath r w0) = Some r).
  { intros r w0. unfold statusFile. simpl. by rewrite lookup_insert_eq. }
  split; [|split].
  - intros old Hold Hlogs.
    rewrite (updateStatusFile_existing env statusPath Hwritable _ _ _ Hold).
    rewrite (addLogToStatus_existing env statusPath Hwritable _ _ _ Hold).
    erewrite (updateStatusFile_json env statusPath Hwritable upd
                (writeFileSync statusPath (assign old upd) w))
      by (simpl; apply lookup_insert_eq).
    erewrite (addLogToStatus_json env statusPath Hwritable msg
                (writeFileSync statusPath (assign old upd) w))
      by (simpl; apply lookup_insert_eq).
    erewrite (updateStatusFile_json env statusPath Hwritable upd
                (writeFileSync statusPath _ (now env w).2))
      by (simpl; apply lookup_insert_eq).
    rewrite logs_assign by done.
    destruct Hold as [_ [lines Hlines]]. rewrite Hlines, !Hread.
    split; [done|]. split.
    { f_equal. unfold assign. simpl.
      by destruct (set_id upd), (set_status upd), (set_progress upd),
        (set_message upd), (set_startTime upd), (set_endTime upd),
        (set_result upd), (set_error upd), (set_logs upd). }
    split; [done|].
    f_equal. unfold assign, pushLog. simpl. by rewrite Hlogs.
  - intros old lines Hold Hlogs.
    rewrite (updateStatusFile_existing env statusPath Hwritable _ _ _ Hold).
    rewrite (addLogToStatus_existing env statusPath Hwritable _ _ _ Hold).
    erewrite (addLogToStatus_json env statusPath Hwritable msg
                (writeFileSync statusPath (assign old upd) w))
      by (simpl; apply lookup_insert_eq).
    erewrite (updateStatusFile_json env statusPath Hwritable upd
                (writeFileSync statusPath _ (now env w).2))
      by (simpl; apply lookup_insert_eq).
    simpl. rewrite Hlogs. simpl. rewrite !Hread. simpl.
    by rewrite Hlogs.
  - intros Hnone Hstatus Hlogs.
    unfold updateStatusFile at 1, addLogToStatus at 2.
    rewrite Hnone. unfold now. cbv beta iota zeta.
    rewrite !writeStatus_writes by done.
    erewrite (addLogToStatus_json env statusPath Hwritable msg)
      by (simpl; apply lookup_insert_eq).
    erewrite (updateStatusFile_json env statusPath Hwritable upd)
      by (simpl; apply lookup_insert_eq).
    unfold assign. simpl. rewrite Hlogs. simpl. rewrite !Hread. simpl.
    by rewrite Hstatus.
Qed.

Lemma updateStatusFile_commutes_with_log_witness :
  statusFile "cube_status.json"
    (updateStatusFile testEnv "cube_status.json"
       (stage 50 "Processing with Meshy...")
       (addLogToStatus testEnv "cube_status.json" "half way" staleWorld))
  = statusFile "cube_status.json"
      (addLogToStatus testEnv "cube_status.json" "half way"
         (updateStatusFile testEnv "cube_status.json"
            (stage 50 "Processing with Meshy...") staleWorld)).
Proof.
  destruct (proj1 (updateStatusFile_commutes_with_log testEnv
                     "cube_status.json" (stage 50 "Processing with Meshy...")
                     "half way" staleWorld
                     ltac:(intros n; reflexivity))
              staleRecord
              ltac:(split; [reflexivity | vm_compute; by eexists])
              eq_refl)
    as (_ & _ & Hlog & Hupdate).
  by rewrite Hlog, Hupdate.
Defined.

(** ** Defaults and validation *)

Lemma over_absent {A} (u : Slot A) : over Absent u = u.
Proof. by destruct u. Qed.

(** X19. Merging the defaults into a request does not change what
    validation says about it: the merged request passes when the
    request passes, and fails with the same message when the request
    fails.  A request whose model has defaults and no variant gets the
    default variant, which is then used whatever the number of input
    images: multi for trellis and hunyuan3d, also on a single image. *)
Theorem merge3DWithDefaults_keeps_verdict o merged :
  merge3DWithDefaults o = Return merged ->
  validate3DModelOptions merged = validate3DModelOptions o
  /\ (variant o = Absent ->
      exists m d,
        model o = Present m
        /\ variant merged = Present d
        /\ d = (if multiByDefault m then MULTI else SINGLE)
        /\ forall n, actualVariantOf merged n = d).
Proof.
  unfold merge3DWithDefaults.
  destruct (getDefault3DOptions (read (model o))) as [d|e] eqn:Hd; [|done].
  intros [= <-].
  destruct (model o) as [| |m] eqn:Hm; try done.
  unfold getDefault3DOptions, value_is in Hd. cbn [read] in Hd.
  assert (Hcases :
    (m = TRELLIS /\ d = withModelVariant baseDefaults TRELLIS MULTI)
    \/ (m = HUNYUAN3D /\ d = withModelVariant baseDefaults HUNYUAN3D MULTI)
    \/ (m = HUNYUAN_WORLD
        /\ d = withModelVariant baseDefaults HUNYUAN_WORLD SINGLE)
    \/ (m = SEED3D /\ d = withModelVariant baseDefaults SEED3D SINGLE)
    \/ (m = MESHY /\ d = withModelVariant baseDefaults MESHY SINGLE)).
  { repeat (destruct (String.eqb m _) eqn:E in Hd;
            [ apply String.eqb_eq in E; injection Hd as <-; tauto
            | clear E ]).
    done. }
  clear Hd.
  split.
  - unfold validate3DModelOptions, model_is, variant_includes,
      no_input_images, spread.
    cbn [prompt inputImagePaths outputPath model variant format].
    rewrite Hm.
    destruct Hcases as [[-> ->]|[[-> ->]|[[-> ->]|[[-> ->]|[-> ->]]]]];
      cbn [prompt inputImagePaths outputPath model variant format
           withModelVariant baseDefaults];
      rewrite !over_absent;
      destruct (variant o) as [| |v], (format o) as [| |f];
      reflexivity.
  - intros Hv.
    destruct Hcases as [[-> ->]|[[-> ->]|[[-> ->]|[[-> ->]|[-> ->]]]]];
      do 2 eexists; unfold actualVariantOf, spread; simpl; rewrite Hv;
      by repeat split.
Qed.

Lemma merge3DWithDefaults_keeps_verdict_witness :
  exists merged,
    merge3DWithDefaults photoRequest = Return merged
    /\ validate3DModelOptions merged = validate3DModelOptions photoRequest
    /\ actualVariantOf merged 2 = SINGLE
    /\ actualVariantOf photoRequest 2 = MULTI.
Proof.
  eexists. split; [reflexivity|].
  destruct (merge3DWithDefaults_keeps_verdict photoRequest _ eq_refl)
    as (Hverdict & Hvariant).
  split; [exact Hverdict|].
  destruct (Hvariant eq_refl) as (m & d & Hm & _ & Hd & Hactual).
  injection Hm as <-. rewrite (Hactual 2%nat), Hd. by vm_compute.
Defined.

(** ** The image helper *)

(** X20. What becomes of the requests of the reference generator in
    [generateImage]: openai is asked for a 1024x1024 image and, from the
    second request on, handed the first image saved so far (none when
    nothing was saved); gemini is handed all images saved so far; falai
    is asked for a square_hd image, as an edit of the first saved image
    when there is one and as a new image otherwise.  For any other
    image model every request is rejected as an unsupported provider. *)
Theorem generateReferenceImages_provider_calls P env prompt outputBasePath
    views model w k call :
  let run := generateReferenceImages env prompt outputBasePath views model w in
  let calls := imageCalls (newEvents w run.1) in
  let saved := if (k =? 0)%nat then [] else savedByCalls env 0 (take k calls) in
  calls !! k = Some call ->
  ImageHelpers.generateImage P (asOptions call)
  = if String.eqb model "openai" then
      text ← ImageHelpers.openaiGenerateImage P
               {| ImageHelpers.openai_prompt := Some (gi_prompt call);
                  ImageHelpers.openai_outputPath := Some (gi_outputPath call);
                  ImageHelpers.openai_inputImagePath := head saved;
                  ImageHelpers.openai_size := Some "1024x1024";
                  ImageHelpers.openai_quality := None;
                  ImageHelpers.openai_style := None;
                  ImageHelpers.openai_n := None |};
      mret (ImageHelpers.ProviderText text)
    else if String.eqb model "gemini" then
      text ← ImageHelpers.geminiGenerateImage P
               {| ImageHelpers.gemini_prompt := Some (gi_prompt call);
                  ImageHelpers.gemini_outputPath := Some (gi_outputPath call);
                  ImageHelpers.gemini_inputImagePaths :=
                    if (k =? 0)%nat then None else Some saved;
                  ImageHelpers.gemini_model := None |};
      mret (ImageHelpers.ProviderText text)
    else if String.eqb model "falai" then
      match saved with
      | first :: _ =>
          text ← ImageHelpers.falaiEditImage P
                   {| ImageHelpers.edit_prompt := Some (gi_prompt call);
                      ImageHelpers.edit_inputImagePath := first;
                      ImageHelpers.edit_outputPath :=
                        Some (gi_outputPath call);
                      ImageHelpers.edit_image_size := Some "square_hd";
                      ImageHelpers.edit_num_inference_steps := None;
                      ImageHelpers.edit_guidance_scale := None |};
          mret (ImageHelpers.ProviderText text)
      | [] =>
          text ← ImageHelpers.falaiGenerateImage P
                   {| ImageHelpers.falai_prompt := Some (gi_prompt call);
                      ImageHelpers.falai_outputPath :=
                        Some (gi_outputPath call);
                      ImageHelpers.falai_image_size := Some "square_hd";
                      ImageHelpers.falai_num_inference_steps := None;
                      ImageHelpers.falai_guidance_scale := None |};
          mret (ImageHelpers.ProviderText text)
      end
    else Throw ("Unsupported provider: " +:+ model).
Proof.
  intros run calls saved. subst run calls saved.
  destruct (generateReferenceImages_calls env prompt outputBasePath views
              model w) as (Hlen & Hcalls & _).
  set (calls := imageCalls
                  (newEvents w
                     (generateReferenceImages env prompt outputBasePath views
                        model w).1)) in *.
  clearbody calls.
  intros Hcall.
  destruct (lookup_lt_is_Some_2 (arraySort frontFirst views) k) as [view Hview].
  { rewrite <- Hlen. by eapply lookup_lt_Some. }
  rewrite (Hcalls k view Hview) in Hcall. injection Hcall as <-.
  unfold ImageHelpers.generateImage, asOptions, viewRequest. simpl.
  destruct (String.eqb model "openai") eqn:Hopenai.
  { apply String.eqb_eq in Hopenai. subst model. simpl.
    by destruct (k =? 0)%nat. }
  destruct (String.eqb model "gemini") eqn:Hgemini.
  { apply String.eqb_eq in Hgemini. subst model. simpl.
    by destruct (k =? 0)%nat. }
  destruct (String.eqb model "falai") eqn:Hfalai.
  { apply String.eqb_eq in Hfalai. subst model. simpl.
    destruct (k =? 0)%nat; [done|]. simpl.
    by destruct (savedByCalls env 0 (take k calls)). }
  done.
Qed.

Lemma generateReferenceImages_provider_calls_witness :
  match imageCalls
          (newEvents freshWorld
             (generateReferenceImages savingEnv "a toy robot" "robot.glb"
                [Front; Back; Top] "openai" freshWorld).1) !! 2%nat
  with
  | Some call =>
      ImageHelpers.generateImage echoProviders (asOptions call)
      = Return (ImageHelpers.ProviderText "robot_ref_front.png")
  | None => False
  end.
Proof.
  destruct (imageCalls _ !! 2%nat) as [call|] eqn:Hcall;
    [|vm_compute in Hcall; discriminate Hcall].
  rewrite (generateReferenceImages_provider_calls echoProviders savingEnv
             "a toy robot" "robot.glb" [Front; Back; Top] "openai" freshWorld
             2 call Hcall).
  vm_compute. reflexivity.
Defined.

Lemma not_among_false xs (v : Slot string) :
  ImageHelpers.not_among xs (read v) = false <-> oneOf xs v.
Proof.
  unfold ImageHelpers.not_among, oneOf. split.
  - intros H s ->. cbn [read] in H. destruct s as [|c s]; [by left|].
    right. simpl in H. apply negb_false_iff in H.
    by apply array_includes_elem_of.
  - intros H. destruct v as [| |s]; try done. cbn [read].
    destruct (H s eq_refl) as [-> | Hin]; [done|].
    apply andb_false_iff. right. apply negb_false_iff.
    by apply array_includes_elem_of.
Qed.

Lemma out_of_range_false (lo hi : Q) (v : Slot ImageHelpers.Number) :
  ImageHelpers.out_of_range (read v) lo hi = false <-> within lo hi v.
Proof.
  unfold ImageHelpers.out_of_range, within. split.
  - intros H x ->. cbn [read] in H.
    destruct x as [q| | |]; simpl in H; try done; [|by left].
    right. exists q. split; [done|].
    destruct (Qeq_bool q 0) eqn:Hzero.
    + left. by apply Qeq_bool_iff.
    + right. simpl in H. apply orb_false_iff in H as [Hlo Hhi].
      apply negb_false_iff in Hlo, Hhi.
      by split; apply Qle_bool_iff.
  - intros H. destruct v as [| |x]; try done. cbn [read].
    destruct (H x eq_refl) as [-> | (q & -> & Hq)]; [done|]. simpl.
    destruct Hq as [Hzero | [Hlo Hhi]].
    + apply Qeq_bool_iff in Hzero. by rewrite Hzero.
    + apply Qle_bool_iff in Hlo, Hhi. rewrite Hlo, Hhi. simpl.
      apply andb_false_r.
Qed.

Lemma when_passes (b : bool) msg (rest : Completion unit) :
  (when b msg ;; rest) = Return tt <-> b = false /\ rest = Return tt.
Proof. destruct b; simpl; split; try done; by intros [? ?]. Qed.

Lemma when_alone (b : bool) msg : when b msg = Return tt <-> b = false.
Proof. by destruct b. Qed.

Lemma required_string (v : Slot string) :
  negb (truthy (read v)) || blank (show (read v)) = false
  <-> exists s, v = Present s /\ blank s = false.
Proof.
  split.
  - intros H. apply orb_false_iff in H as [Ht Hb].
    destruct v as [| |s]; try done. by exists s.
  - intros (s & -> & Hs). cbn [read show]. rewrite Hs.
    by destruct s.
Qed.

(** X21. [validateImageOptions] accepts exactly the options with a
    non-blank prompt, a non-blank output path and one of the three
    providers, whose provider-specific options are in range: for openai
    the size, quality, style and [n] (1 to 10), for falai the image
    size, the inference steps (1 to 50) and the guidance scale (1 to
    20); nothing more is checked for gemini.  An option that is left
    out, an empty string, the number zero and NaN count as not given
    and pass. *)
Theorem validateImageOptions_characterised o :
  ImageHelpers.validateImageOptions o = Return tt <-> imageOptionsValid o.
Proof.
  unfold ImageHelpers.validateImageOptions, imageOptionsValid.
  rewrite !when_passes, !required_string.
  split.
  - intros (Hp & Hout & Hprovider & Hrest).
    split; [done|]. split; [done|].
    apply negb_false_iff in Hprovider.
    destruct (ImageHelpers.provider o) as [| |pr]; try done.
    cbn [read value_in] in Hprovider.
    apply array_includes_elem_of in Hprovider.
    apply elem_of_cons in Hprovider as [-> | Hprovider].
    { left. simpl in Hrest.
      rewrite !when_passes, when_alone, !not_among_false,
        out_of_range_false in Hrest.
      by destruct Hrest as (? & ? & ? & ?). }
    apply elem_of_cons in Hprovider as [-> | Hprovider]; [by right; left|].
    apply elem_of_cons in Hprovider as [-> | Hprovider];
      [|by apply elem_of_nil in Hprovider].
    right; right. simpl in Hrest.
    rewrite !when_passes, when_alone, !not_among_false,
      !out_of_range_false in Hrest.
    by destruct Hrest as (? & ? & ?).
  - intros (Hp & Hout & Hprovider).
    split; [done|]. split; [done|].
    destruct Hprovider
      as [(-> & Hs & Hq & Hst & Hn) | [-> | (-> & Hs & Hsteps & Hg)]];
      simpl.
    + split; [done|].
      by rewrite !when_passes, when_alone, !not_among_false,
        out_of_range_false.
    + done.
    + split; [done|].
      by rewrite !when_passes, when_alone, !not_among_false,
        !out_of_range_false.
Qed.

Lemma validateImageOptions_characterised_witness :
  ImageHelpers.validateImageOptions zeroImagesRequest = Return tt.
Proof.
  apply validateImageOptions_characterised.
  split; [by exists "a red cube"|]. split; [by exists "cube.png"|].
  left. repeat split; try done.
  intros x [= <-]. right. exists 0%Q. split; [done|]. by left.
Defined.

Lemma over_filled {A} (d u : Slot A) : filled d u (over d u).
Proof. unfold filled. by destruct u. Qed.

(** X22. [mergeWithDefaults] knows the three providers and throws for
    any other.  The merged options have every key as the caller set it
    and, for a key the caller left out, the default of the provider:
    size 1024x1024, quality standard, style vivid and [n] 1 for openai,
    the model gemini-2.5-flash-image for gemini, image size square_hd,
    20 inference steps and guidance scale 7.5 for falai, and nothing
    for the other keys.  Merging does not change what
    [validateImageOptions] says about the options: the defaults
    themselves are in range. *)
Theorem mergeWithDefaults_keeps_verdict o :
  let pr := show (read (ImageHelpers.provider o)) in
  (value_in ["openai"; "gemini"; "falai"] (read (ImageHelpers.provider o))
   = true ->
   exists merged,
     ImageHelpers.mergeWithDefaults o = Return merged
     /\ ImageHelpers.validateImageOptions merged
        = ImageHelpers.validateImageOptions o
     /\ ImageHelpers.prompt merged = ImageHelpers.prompt o
     /\ ImageHelpers.outputPath merged = ImageHelpers.outputPath o
     /\ ImageHelpers.provider merged = ImageHelpers.provider o
     /\ ImageHelpers.inputImagePaths merged = ImageHelpers.inputImagePaths o
     /\ ImageHelpers.transparentBackground merged
        = ImageHelpers.transparentBackground o
     /\ ImageHelpers.backgroundColor merged = ImageHelpers.backgroundColor o
     /\ ImageHelpers.transparencyTolerance merged
        = ImageHelpers.transparencyTolerance o
     /\ ImageHelpers.transparencyBlur merged
        = ImageHelpers.transparencyBlur o
     /\ filled (onlyFor "openai" pr "1024x1024")
          (ImageHelpers.size o) (ImageHelpers.size merged)
     /\ filled (onlyFor "openai" pr "standard")
          (ImageHelpers.quality o) (ImageHelpers.quality merged)
     /\ filled (onlyFor "openai" pr "vivid")
          (ImageHelpers.style o) (ImageHelpers.style merged)
     /\ filled (onlyFor "openai" pr (ImageHelpers.Num 1))
          (ImageHelpers.n o) (ImageHelpers.n merged)
     /\ filled (onlyFor "gemini" pr "gemini-2.5-flash-image")
          (ImageHelpers.model o) (ImageHelpers.model merged)
     /\ filled (onlyFor "falai" pr "square_hd")
          (ImageHelpers.image_size o) (ImageHelpers.image_size merged)
     /\ filled (onlyFor "falai" pr (ImageHelpers.Num 20))
          (ImageHelpers.num_inference_steps o)
          (ImageHelpers.num_inference_steps merged)
     /\ filled (onlyFor "falai" pr (ImageHelpers.Num (15 # 2)))
          (ImageHelpers.guidance_scale o)
          (ImageHelpers.guidance_scale merged))
  /\ (value_in ["openai"; "gemini"; "falai"] (read (ImageHelpers.provider o))
      = false ->
      ImageHelpers.mergeWithDefaults o
      = Throw ("No default options available for provider: "
               +:+ show (read (ImageHelpers.provider o)))).
Proof.
  intros pr. subst pr. split.
  - intros Hprovider.
    destruct (ImageHelpers.provider o) as [| |pr] eqn:Hpr; try done.
    cbn [read value_in] in Hprovider.
    apply array_includes_elem_of in Hprovider.
    unfold ImageHelpers.mergeWithDefaults, ImageHelpers.validateImageOptions.
    rewrite Hpr.
    apply elem_of_cons in Hprovider as [-> | Hprovider].
    { eexists. split; [reflexivity|].
      unfold ImageHelpers.spread. simpl. rewrite ?over_absent, ?Hpr. split.
      - destruct (ImageHelpers.size o) as [| |?],
          (ImageHelpers.quality o) as [| |?],
          (ImageHelpers.style o) as [| |?],
          (ImageHelpers.n o) as [| |?]; reflexivity.
      - repeat split; first [ done | by apply over_filled ]. }
    apply elem_of_cons in Hprovider as [-> | Hprovider].
    { eexists. split; [reflexivity|].
      unfold ImageHelpers.spread. simpl. rewrite ?over_absent, ?Hpr. split.
      - reflexivity.
      - repeat split; first [ done | by apply over_filled ]. }
    apply elem_of_cons in Hprovider as [-> | Hprovider].
    { eexists. split; [reflexivity|].
      unfold ImageHelpers.spread. simpl. rewrite ?over_absent, ?Hpr. split.
      - destruct (ImageHelpers.image_size o) as [| |?],
          (ImageHelpers.num_inference_steps o) as [| |?],
          (ImageHelpers.guidance_scale o) as [| |?]; reflexivity.
      - repeat split; first [ done | by apply over_filled ]. }
    by apply elem_of_nil in Hprovider.
  - intros Hprovider.
    unfold ImageHelpers.mergeWithDefaults, ImageHelpers.getDefaultOptions.
    destruct (read (ImageHelpers.provider o)) as [pr|]; [|done].
    unfold value_in, array_includes in Hprovider. simpl in Hprovider.
    apply orb_false_iff in Hprovider as [E1 Hprovider].
    apply orb_false_iff in Hprovider as [E2 Hprovider].
    apply orb_false_iff in Hprovider as [E3 _].
    unfold value_is. by rewrite E1, E2, E3.
Qed.

Lemma mergeWithDefaults_keeps_verdict_witness :
  exists merged,
    ImageHelpers.mergeWithDefaults zeroImagesRequest = Return merged
    /\ ImageHelpers.validateImageOptions merged = Return tt
    /\ ImageHelpers.n merged = Present (ImageHelpers.Num 0)
    /\ ImageHelpers.size merged = Present "1024x1024".
Proof.
  destruct (proj1 (mergeWithDefaults_keeps_verdict zeroImagesRequest)
              eq_refl)
    as (merged & Hmerged & Hverdict & _ & _ & _ & _ & _ & _ & _ & _
        & Hsize & _ & _ & Hn & _).
  exists merged. split; [done|]. split; [|split].
  - rewrite Hverdict. vm_compute. reflexivity.
  - by apply (proj1 Hn).
  - by apply (proj2 Hsize).
Defined.

(** ** Base64 image URIs *)

Lemma append_nil_l s : EmptyString +:+ s = s.
Proof. reflexivity. Qed.

Lemma append_cons c s t : String c s +:+ t = String c (s +:+ t).
Proof. reflexivity. Qed.

Lemma append_assoc s t u : (s +:+ t) +:+ u = s +:+ t +:+ u.
Proof.
  induction s as [|c s IH]; [done|]. by rewrite !append_cons, IH.
Qed.

Lemma strip_prefix_spec p s r : strip_prefix p s = Some r <-> s = p +:+ r.
Proof.
  revert s. induction p as [|a p IH]; intros s; simpl;
    rewrite ?append_cons, ?append_nil_l.
  - split; [by intros [= ->] | by intros ->].
  - destruct s as [|b s]; [done|].
    destruct (Ascii.eqb a b) eqn:E.
    + apply Ascii.eqb_eq in E. subst b. rewrite IH. split.
      * by intros ->.
      * by intros [= ->].
    + split; [done|]. intros [= -> _]. by rewrite Ascii.eqb_refl in E.
Qed.

Lemma base64Payload_spec s some :
  base64Payload s some = true
  <-> exists body pad,
        s = body +:+ pad
        /\ (some = true \/ body <> EmptyString)
        /\ allBase64 body = true
        /\ pad ∈ [EmptyString; "="; "=="].
Proof.
  revert some. induction s as [|c s IH]; intros some; cbn [base64Payload].
  - split.
    + intros ->. exists EmptyString, EmptyString.
      repeat split; [by left | in_list].
    + intros (body & pad & Hs & Hsome & _ & _).
      destruct body; [|done]. destruct Hsome as [-> | ?]; done.
  - destruct (isBase64Char c) eqn:Hc.
    + rewrite IH. split.
      * intros (body & pad & -> & _ & Hall & Hpad).
        exists (String c body), pad. simpl. rewrite Hc.
        repeat split; [by right | done | done].
      * intros (body & pad & Hs & Hsome & Hall & Hpad).
        destruct body as [|b body].
        { rewrite append_nil_l in Hs. subst pad.
          repeat (apply elem_of_cons in Hpad as [Hpad | Hpad];
                  [ try done; injection Hpad as -> ?; subst;
                    by vm_compute in Hc | ]).
          by apply elem_of_nil in Hpad. }
        rewrite append_cons in Hs. simpl in Hall. injection Hs as -> ->.
        apply andb_true_iff in Hall as [_ Hall].
        exists body, pad. repeat split; [by left | done | done].
    + split.
      * intros H. apply andb_true_iff in H as [-> H].
        exists EmptyString, (String c s). rewrite append_nil_l.
        repeat split; [by left|].
        apply orb_true_iff in H as [H | H]; apply String.eqb_eq in H;
          rewrite H; in_list.
      * intros (body & pad & Hs & Hsome & Hall & Hpad).
        destruct body as [|b body].
        { rewrite append_nil_l in Hs. subst pad.
          destruct Hsome as [-> | ?]; [|done].
          repeat (apply elem_of_cons in Hpad as [Hpad | Hpad];
                  [ try done; by rewrite Hpad | ]).
          by apply elem_of_nil in Hpad. }
        rewrite append_cons in Hs. simpl in Hall. injection Hs as -> ->.
        by rewrite Hc in Hall.
Qed.

(** X23. [validateBase64ImageURI] accepts exactly the texts made of
    "data:image/", one of png, jpg, jpeg and webp, ";base64," and a
    payload: one or more characters among letters, digits, [+] and [/],
    followed by at most two [=].  The length of the payload is not
    looked at. *)
Theorem validateBase64ImageURI_characterised uri :
  validateBase64ImageURI uri = true
  <-> exists mime payload,
        uri = "data:image/" +:+ mime +:+ ";base64," +:+ payload
        /\ mime ∈ ["png"; "jpg"; "jpeg"; "webp"]
        /\ isPayload payload.
Proof.
  unfold validateBase64ImageURI, isPayload. split.
  - destruct (strip_prefix "data:image/" uri) as [rest|] eqn:Hrest; [|done].
    apply strip_prefix_spec in Hrest. subst uri.
    intros H. apply existsb_exists in H as (mime & Hmime & H).
    destruct (strip_prefix (mime +:+ ";base64,") rest) as [payload|] eqn:Hp;
      [|done].
    apply strip_prefix_spec in Hp. subst rest.
    apply base64Payload_spec in H
      as (body & pad & -> & [Hno | Hbody] & Hall & Hpad); [done|].
    exists mime, (body +:+ pad). split.
    { by rewrite append_assoc. }
    split; [by apply list_elem_of_In|].
    by exists body, pad.
  - intros (mime & payload & -> & Hmime & body & pad & -> & Hbody & Hall
            & Hpad).
    rewrite (proj2 (strip_prefix_spec "data:image/" _ _) eq_refl).
    apply existsb_exists. exists mime. split; [by apply list_elem_of_In|].
    rewrite (proj2 (strip_prefix_spec (mime +:+ ";base64,")
                      (mime +:+ ";base64," +:+ body +:+ pad)
                      (body +:+ pad))
               (eq_sym (append_assoc _ _ _))).
    apply base64Payload_spec. exists body, pad.
    repeat split; [by right | done | done].
Qed.

Lemma validateBase64ImageURI_characterised_witness :
  validateBase64ImageURI "data:image/jpeg;base64,QUJD" = true
  /\ validateBase64ImageURI "data:image/gif;base64,QUJD" = false.
Proof.
  split.
  - apply validateBase64ImageURI_characterised.
    exists "jpeg", "QUJD". split; [reflexivity|]. split; [in_list|].
    exists "QUJD", EmptyString. split; [reflexivity|].
    split; [discriminate|]. split; [reflexivity | in_list].
  - reflexivity.
Defined.

Lemma validateBase64ImageURI_png d :
  validateBase64ImageURI ("data:image/png;base64," +:+ d) = true
  <-> isPayload d.
Proof.
  unfold validateBase64ImageURI, isPayload.
  rewrite ?append_cons, ?append_nil_l. simpl.
  rewrite ?append_cons, ?append_nil_l. simpl.
  rewrite orb_false_r, base64Payload_spec.
  split; intros (body & pad & Hd & Hbody & Hrest); exists body, pad.
  - by destruct Hbody.
  - split; [done|]. split; [by right | done].
Qed.

(** X24. [convertPathsToBase64URIs] encodes the paths in order and
    stops at the first one that cannot be encoded, with an error that
    names it.  When all can be encoded it returns one URI per path, in
    the same order, each "data:image/png;base64," followed by the
    encoding of the path; such a URI passes [validateBase64ImageURI]
    exactly when the encoding is a payload (not, for one, when it is
    empty). *)
Theorem convertPathsToBase64URIs_in_order encode paths :
  (forall k path e,
     paths !! k = Some path ->
     encode path = Throw e ->
     (forall j p, (j < k)%nat -> paths !! j = Some p ->
                  exists d, encode p = Return d) ->
     convertPathsToBase64URIs encode paths
     = Throw ("Failed to convert image " +:+ path
              +:+ " to base64 URI: " +:+ e))
  /\ ((forall p, p ∈ paths -> exists d, encode p = Return d) ->
      exists uris,
        convertPathsToBase64URIs encode paths = Return uris
        /\ length uris = length paths
        /\ forall k path,
             paths !! k = Some path ->
             exists d,
               encode path = Return d
               /\ uris !! k = Some ("data:image/png;base64," +:+ d)
               /\ (validateBase64ImageURI ("data:image/png;base64," +:+ d)
                   = true <-> isPayload d)).
Proof.
  split.
  - induction paths as [|p paths IH]; intros k path e Hk He Hbefore;
      [done|].
    destruct k as [|k]; simpl in *.
    + injection Hk as ->. by rewrite He.
    + destruct (Hbefore 0%nat p ltac:(lia) eq_refl) as [d ->].
      rewrite (IH k path e Hk He); [done|].
      intros j q Hj Hq. apply (Hbefore (S j) q); [lia | done].
  - induction paths as [|p paths IH]; intros Hall.
    + exists []. by repeat split.
    + destruct (Hall p ltac:(apply list_elem_of_here)) as [d Hd].
      destruct IH as (uris & Huris & Hlen & Hk).
      { intros q Hq. apply Hall. by apply list_elem_of_further. }
      exists (("data:image/png;base64," +:+ d) :: uris).
      simpl. rewrite Hd, Huris. simpl.
      split; [done|]. split; [by rewrite Hlen|].
      intros [|k] path Hpath; simpl in *; [|by apply Hk].
      injection Hpath as <-. exists d. split; [done|]. split; [done|].
      apply validateBase64ImageURI_png.
Qed.

Lemma convertPathsToBase64URIs_in_order_witness :
  convertPathsToBase64URIs sampleEncode ["front.png"; "missing.png"; "top.png"]
  = Throw ("Failed to convert image missing.png to base64 URI: "
           +:+ "ENOENT: no such file or directory, open 'missing.png'").
Proof.
  refine (proj1 (convertPathsToBase64URIs_in_order sampleEncode
                   ["front.png"; "missing.png"; "top.png"])
            1%nat "missing.png" _ eq_refl eq_refl _).
  intros [|j] p Hj Hp; [|lia]. injection Hp as <-. by exists "QUJD".
Defined.

(** ** The multi-view backend of Hunyuan3D *)

Lemma allImageUris_returns svc paths uris :
  Model3DUtils.allImageUris svc paths = Return uris ->
  length uris = length paths
  /\ forall k path,
       paths !! k = Some path ->
       exists uri, Model3DUtils.toImageUri svc path = Return uri
                   /\ uris !! k = Some uri.
Proof.
  revert uris. induction paths as [|p paths IH]; intros uris; simpl.
  - intros [= <-]. by split.
  - destruct (Model3DUtils.toImageUri svc p) as [uri|e] eqn:Hp; [|done].
    destruct (Model3DUtils.allImageUris svc paths) as [rest|e]; [|done].
    intros [= <-]. destruct (IH rest eq_refl) as [Hlen Hk].
    split; [simpl; by rewrite Hlen|].
    intros [|k] path Hpath; simpl in *.
    + injection Hpath as <-. by exists uri.
    + by apply Hk.
Qed.

Lemma bind_returns {A B} (c : Completion A) (k : A -> Completion B) b :
  c ≫= k = Return b -> exists a, c = Return a /\ k a = Return b.
Proof. destruct c as [a|e]; [|done]. intros H. by exists a. Qed.

Lemma hunyuan3DGenerateMulti_refuses svc args key paths :
  Model3DUtils.getFalAIKey svc = Return key ->
  b_images args = imagePaths paths ->
  (length paths < 3)%nat ->
  Model3DUtils.hunyuan3DGenerateMulti svc args
  = Throw ("Hunyuan3D Multi requires at least 3 images "
           +:+ "(front, back, left views). Only "
           +:+ pretty (length paths) +:+ " images provided.").
Proof.
  intros Hkey Hpaths Hfew. unfold Model3DUtils.hunyuan3DGenerateMulti.
  rewrite Hkey, Hpaths. simpl. apply Nat.ltb_lt in Hfew. by rewrite Hfew.
Qed.

(** X25. With an API key at hand, the multi-view backend of Hunyuan3D
    refuses fewer than three images before it converts or sends
    anything, saying how many it was given.  When it returns a result,
    every image given could be converted, the request carried the first
    three of them as the front, back and left image, in the order
    given, and nothing of the others; the result names the variant
    multi, lists all images given as input images and the output path
    as the one saved path. *)
Theorem hunyuan3DGenerateMulti_needs_three svc args key paths :
  Model3DUtils.getFalAIKey svc = Return key ->
  b_images args = imagePaths paths ->
  ((length paths < 3)%nat ->
   Model3DUtils.hunyuan3DGenerateMulti svc args
   = Throw ("Hunyuan3D Multi requires at least 3 images "
            +:+ "(front, back, left views). Only "
            +:+ pretty (length paths) +:+ " images provided."))
  /\ (forall r,
        Model3DUtils.hunyuan3DGenerateMulti svc args = Return r ->
        exists p0 p1 p2 others u0 u1 u2 response out,
          paths = p0 :: p1 :: p2 :: others
          /\ Model3DUtils.toImageUri svc p0 = Return u0
          /\ Model3DUtils.toImageUri svc p1 = Return u1
          /\ Model3DUtils.toImageUri svc p2 = Return u2
          /\ (forall p, p ∈ others ->
                exists u, Model3DUtils.toImageUri svc p = Return u)
          /\ Model3DUtils.makeHTTPRequest svc
               "https://fal.run/fal-ai/hunyuan3d/v2/multi-view"
               ("Key " +:+ key)
               {| Model3DUtils.front_image_url := Some u0;
                  Model3DUtils.back_image_url := Some u1;
                  Model3DUtils.left_image_url := Some u2;
                  Model3DUtils.body_format :=
                    or_else (Some (b_format args)) "glb" |}
             = Return response
          /\ b_outputPath args = Some out
          /\ res_savedPaths r = [out]
          /\ res_variant r = "multi"
          /\ res_model r = "hunyuan3d-2.0"
          /\ res_input_images r = paths
          /\ res_prompt_used r = b_prompt args).
Proof.
  intros Hkey Hpaths. split.
  { by apply (hunyuan3DGenerateMulti_refuses svc args key). }
  unfold Model3DUtils.hunyuan3DGenerateMulti.
  rewrite Hkey, Hpaths. simpl.
  - intros r. destruct (length paths <? 3)%nat eqn:Hlen; [done|].
    apply Nat.ltb_ge in Hlen.
    intros H. apply bind_returns in H as (uris & Huris & H).
    apply bind_returns in H as (response & Hresponse & H).
    destruct (bool_decide _ || bool_decide _); [done|].
    destruct (truthy (Model3DUtils.fal_model_url response)); [|done].
    apply bind_returns in H as (out & Hout & H).
    destruct (b_outputPath args) as [out'|]; [|done].
    injection Hout as ->.
    apply bind_returns in H as (modelPath & Hdownload & H).
    apply bind_returns in H as (info & _ & H).
    injection H as <-. simpl.
    unfold Model3DUtils.downloadAndSave3DModel in Hdownload.
    destruct (Model3DUtils.download svc _ out); [|done].
    injection Hdownload as <-.
    destruct (allImageUris_returns svc paths uris Huris) as [Hsame Hk].
    destruct paths as [|p0 [|p1 [|p2 others]]]; simpl in Hlen; try lia.
    destruct (Hk 0%nat p0 eq_refl) as (u0 & Hu0 & H0).
    destruct (Hk 1%nat p1 eq_refl) as (u1 & Hu1 & H1).
    destruct (Hk 2%nat p2 eq_refl) as (u2 & Hu2 & H2).
    rewrite H0, H1, H2 in Hresponse.
    exists p0, p1, p2, others, u0, u1, u2, response, out.
    repeat split; try done.
    intros p Hp. apply list_elem_of_lookup_1 in Hp as [k Hp].
    destruct (Hk (S (S (S k))) p Hp) as (u & Hu & _). by exists u.
Qed.

Lemma hunyuan3DGenerateMulti_needs_three_witness :
  Model3DUtils.hunyuan3DGenerateMulti sampleServices
    (backendArgsFor twoPhotosRequest hunyuan3DGenerateMulti
       ["front.png"; "side.png"])
  = Throw "Hunyuan3D Multi requires at least 3 images (front, back, left views). Only 2 images provided.".
Proof.
  refine (proj1 (hunyuan3DGenerateMulti_needs_three sampleServices
                   (backendArgsFor twoPhotosRequest hunyuan3DGenerateMulti
                      ["front.png"; "side.png"])
                   "fal-key" ["front.png"; "side.png"] eq_refl eq_refl) _).
  simpl. lia.
Defined.

(** X26. A job for hunyuan3d that runs with the multi variant on fewer
    than three input images cannot succeed: the backend refuses them.
    This is so for two input images and no variant asked for (the
    variant picked for more than one image is multi), and for a request
    from a prompt alone when fewer than three reference images were
    saved.  The background task, on a status path that can hold a
    status file and that nothing else writes or deletes during the job,
    ends failed with the backend's message as its error, and the
    synchronous function, when it has an image at all, throws that
    message. *)
Theorem generate3DModelAsync_hunyuan3d_needs_three env svc key o statusPath w :
  let n := length (jobInputs env o) in
  let message :=
    "Hunyuan3D Multi requires at least 3 images "
    +:+ "(front, back, left views). Only "
    +:+ pretty n +:+ " images provided." in
  backend env hunyuan3DGenerateMulti
  = Model3DUtils.hunyuan3DGenerateMulti svc ->
  Model3DUtils.getFalAIKey svc = Return key ->
  validate3DModelOptions o = Return tt ->
  model o = Present HUNYUAN3D ->
  actualVariantOf o n = MULTI ->
  (n < 3)%nat ->
  (usable env statusPath w ->
   leftAlone statusPath
     (newEvents w (generate3DModelAsync env o statusPath w).1) ->
   exists rec,
     statusFile statusPath (generate3DModelAsync env o statusPath w).1
     = Some rec
     /\ status rec = Some failed
     /\ error rec = Some message)
  /\ ((0 < n)%nat -> (generate3DModel env o w).2 = Throw message).
Proof.
  intros n message Hbackend Hkey Hvalid Hmodel Hvariant Hfew.
  subst n message.
  assert (Hrefused :
    forall b,
      model o = Present (backendFamily b) ->
      backendVariant b = actualVariantOf o (length (jobInputs env o)) ->
      backend env b (backendArgsFor o b (jobInputs env o))
      = Throw ("Hunyuan3D Multi requires at least 3 images "
               +:+ "(front, back, left views). Only "
               +:+ pretty (length (jobInputs env o))
               +:+ " images provided.")).
  { intros b Hfamily Hb.
    assert (b = hunyuan3DGenerateMulti) as ->.
    { apply backend_determined; [|by rewrite Hb, Hvariant].
      rewrite Hmodel in Hfamily. by injection Hfamily as <-. }
    rewrite Hbackend.
    by apply (hunyuan3DGenerateMulti_refuses svc _ key (jobInputs env o)). }
  split.
  - intros Husable Hleft.
    destruct (generate3DModelAsync_outcome env o statusPath w Hvalid)
      as (b & _ & Hfamily & Hb & Hend).
    specialize (Hend Husable Hleft).
    by rewrite (Hrefused b Hfamily Hb) in Hend.
  - intros Hsome.
    pose proof (generate3DModel_acts env statusPath o w Hvalid) as Hsync.
    cbv zeta in Hsync.
    destruct (length (jobInputs env o) =? 0)%nat eqn:Hzero.
    { apply Nat.eqb_eq in Hzero. lia. }
    destruct Hsync as (b & _ & Hfamily & Hb & ->).
    by rewrite (Hrefused b Hfamily Hb).
Qed.

Lemma generate3DModelAsync_hunyuan3d_needs_three_witness :
  exists rec,
    statusFile "chair_status.json"
      (generate3DModelAsync hunyuanEnv twoPhotosRequest
         "chair_status.json" photoWorld).1 = Some rec
    /\ status rec = Some failed
    /\ error rec
       = Some "Hunyuan3D Multi requires at least 3 images (front, back, left views). Only 2 images provided.".
Proof.
  refine (proj1 (generate3DModelAsync_hunyuan3d_needs_three hunyuanEnv
                   sampleServices "fal-key" twoPhotosRequest
                   "chair_status.json" photoWorld eq_refl eq_refl _ eq_refl _
                   _) _ _).
  - vm_compute. reflexivity.
  - vm_compute. reflexivity.
  - vm_compute. lia.
  - split; [intros n; reflexivity | vm_compute; exact I].
  - vm_compute. intros Hin. not_in_list Hin.
Defined.

(** ** The multi-image backend of Meshy *)

(** What the polling loop returns is the answer to its last request,
    and that answer reports success; every answer before left the task
    running. *)
Lemma pollLoop_returns http url auth pollInterval remaining :
  forall attempt task,
    (pollLoop http url auth pollInterval attempt remaining).2 = Return task ->
    exists k,
      (k < remaining)%nat
      /\ (pollLoop http url auth pollInterval attempt remaining).1
         = rounds k url auth pollInterval ++ [Requested url auth]
      /\ http (attempt + k)%nat url = Return task
      /\ value_is (task_status task) "SUCCEEDED" = true.
Proof.
  induction remaining as [|n IH]; intros attempt task; [done|].
  cbn [pollLoop].
  destruct (http attempt url) as [response|e] eqn:Hresponse; [|done].
  destruct (task_error_field response); [done|].
  destruct (value_is (task_status response) "SUCCEEDED") eqn:Hdone.
  { intros [= <-]. exists 0%nat. rewrite Nat.add_0_r.
    split; [lia|]. by split. }
  destruct (value_is (task_status response) "FAILED"
            || value_is (task_status response) "EXPIRED"); [done|].
  specialize (IH (S attempt) task).
  destruct (pollLoop http url auth pollInterval (S attempt) n) as [evs out].
  simpl in *. intros Hout. destruct (IH Hout) as (k & Hk & Hevs & Hanswer & Hs).
  exists (S k). rewrite Hevs. split; [lia|]. split; [done|].
  by rewrite Nat.add_succ_r.
Qed.

(** X27. With an API key at hand, the multi-image backend of Meshy
    refuses no image and more than four before it sends anything.
    Either it sends no status request at all and throws, or the service
    created a task, and the status requests all go to the multi-view
    endpoint for the id of that task: rounds of a request and a wait of
    5000 ms, ended by one last request or by the 120th wait.  An error
    of the polling loop is passed on as it is.  When the backend returns
    a result, the last status request was answered with a succeeded
    task, and the result names the variant multi, lists the images
    given and the output path as the one saved path. *)
Theorem meshyGenerateMulti_polls svc args key paths :
  let run := Model3DUtils.meshyGenerateMulti svc args in
  let auth := "Bearer " +:+ key in
  Model3DUtils.getMeshyKey svc = Return key ->
  b_images args = imagePaths paths ->
  ((length paths = 0%nat \/ (4 < length paths)%nat) ->
   run = ([], Throw "Meshy Multi-Image requires 1-4 images"))
  /\ (length (requests run.1) <= 120)%nat
  /\ Forall (fun ms => ms = 5000) (sleeps run.1)
  /\ ((exists e, run = ([], Throw e))
      \/ exists uris created taskId k,
           Model3DUtils.allMeshyUris svc paths = Return uris
           /\ Model3DUtils.meshyPost svc
                "https://api.meshy.ai/openapi/v1/image-to-3d/multi-view" auth
                {| Model3DUtils.image_urls := uris;
                   Model3DUtils.enable_pbr := true |}
              = Return created
           /\ Model3DUtils.create_result created = Some taskId
           /\ let url := "https://api.meshy.ai/openapi/v1/"
                         +:+ "image-to-3d/multi-view" +:+ "/" +:+ taskId in
              (((k < 120)%nat
                /\ run.1 = rounds k url auth 5000 ++ [Requested url auth])
               \/ (k = 120%nat /\ run.1 = rounds 120 url auth 5000))
              /\ (forall e,
                    (pollMeshyTaskStatus (Model3DUtils.taskOf svc) taskId key
                       "image-to-3d/multi-view" defaultMaxAttempts
                       defaultPollInterval).2 = Throw e ->
                    run.2 = Throw e)
              /\ (forall r,
                    run.2 = Return r ->
                    (k < 120)%nat
                    /\ exists document,
                         Model3DUtils.meshyGet svc k url = Return document
                         /\ value_is
                              (task_status (Model3DUtils.doc_task document))
                              "SUCCEEDED" = true))
  /\ (forall r,
        run.2 = Return r ->
        (1 <= length paths <= 4)%nat
        /\ res_provider r = "Meshy"
        /\ res_variant r = "multi"
        /\ res_input_images r = paths
        /\ exists out, b_outputPath args = Some out
                       /\ res_savedPaths r = [out]).
Proof.
  intros run auth Hkey Hpaths.
  assert (Hguard : (length paths = 0%nat \/ (4 < length paths)%nat)
                   \/ (1 <= length paths <= 4)%nat) by lia.
  assert (Hrun : run = Model3DUtils.meshyGenerateMulti svc args) by done.
  clearbody run.
  unfold Model3DUtils.meshyGenerateMulti in Hrun. rewrite Hkey, Hpaths in Hrun.
  fold auth in Hrun.
  destruct Hguard as [Hbad | Hgood].
  { assert ((length paths <? 1)%nat || (4 <? length paths)%nat = true) as Hg.
    { apply orb_true_iff. destruct Hbad as [H | H];
        [left | right]; apply Nat.ltb_lt; lia. }
    rewrite Hg in Hrun. subst run. simpl.
    split; [done|]. split; [lia|]. split; [constructor|].
    split; [|done]. left. by eexists. }
  split; [intros [H | H]; lia|].
  assert ((length paths <? 1)%nat || (4 <? length paths)%nat = false) as Hg.
  { apply orb_false_iff. split; apply Nat.ltb_ge; lia. }
  rewrite Hg in Hrun. clear Hg.
  match goal with
  | |- ?G =>
      assert (Hquiet : forall e,
                run = (@nil PollEvent, @Throw Model3DGenerationResult e) ->
                G)
  end.
  { intros e ->. simpl. split; [lia|]. split; [constructor|].
    split; [|done]. left. by eexists. }
  destruct (Model3DUtils.allMeshyUris svc paths) as [uris|e] eqn:Huris;
    [|by apply (Hquiet e)].
  destruct (Model3DUtils.meshyPost svc _ _ _) as [created|e] eqn:Hpost;
    [|by apply (Hquiet e)].
  destruct (Model3DUtils.create_error created);
    [by eapply Hquiet|].
  destruct (Model3DUtils.create_result created) as [taskId|] eqn:Hcreated;
    [|simpl in Hrun; by eapply Hquiet].
  destruct (negb (truthy (Some taskId))); [by eapply Hquiet|].
  clear Hquiet. subst run. cbn [show].
  set (url := "https://api.meshy.ai/openapi/v1/" +:+ "image-to-3d/multi-view"
              +:+ "/" +:+ taskId).
  assert (Hpoll : pollMeshyTaskStatus (Model3DUtils.taskOf svc) taskId key
                    "image-to-3d/multi-view" defaultMaxAttempts
                    defaultPollInterval
                  = pollLoop (Model3DUtils.taskOf svc) url auth
                      defaultPollInterval 0 defaultMaxAttempts)
    by reflexivity.
  rewrite !Hpoll.
  destruct (pollLoop_bounds (Model3DUtils.taskOf svc) url auth
              defaultPollInterval 0 defaultMaxAttempts)
    as [Hcount Hsleeps].
  destruct (pollLoop_shape (Model3DUtils.taskOf svc) url auth
              defaultPollInterval 0 defaultMaxAttempts) as [k Hshape].
  pose proof (pollLoop_returns (Model3DUtils.taskOf svc) url auth
                defaultPollInterval defaultMaxAttempts 0)
    as Hreturns.
  destruct (pollLoop (Model3DUtils.taskOf svc) url auth
              defaultPollInterval 0 defaultMaxAttempts) as [events polled]
    eqn:Hloop.
  cbn [fst snd] in *.
  split; [exact Hcount|]. split; [exact Hsleeps|]. split.
  - right. exists uris, created, taskId.
    destruct polled as [task|e].
    + destruct (Hreturns task eq_refl) as (k' & Hk' & Hevents & Hanswer & Hs).
      exists k'. do 3 (split; [done|]). cbv zeta. fold url.
      split; [left; split; [exact Hk' | exact Hevents]|].
      split; [intros e He; rewrite Hpoll in He; discriminate He|].
      intros r _. split; [exact Hk'|].
      unfold Model3DUtils.taskOf in Hanswer. simpl in Hanswer.
      destruct (Model3DUtils.meshyGet svc k' url) as [document|e] eqn:Hdoc;
        [|done].
      injection Hanswer as <-. by exists document.
    + exists k. do 3 (split; [done|]). cbv zeta. fold url.
      split.
      { destruct Hshape as [[Hk Hevents] | [Hk Hevents]];
          [left | right; rewrite Hk in Hevents]; split;
          first [ exact Hk | exact Hevents ]. }
      split; [intros e' He; rewrite Hpoll in He;
              by injection He as <-|].
      done.
  - intros r Hr. destruct polled as [task|e]; [|done]. simpl in Hr.
    apply bind_returns in Hr as (document & _ & Hr).
    destruct (truthy (Model3DUtils.modelUrlOf document _)); [|done].
    apply bind_returns in Hr as (out & Hout & Hr).
    destruct (b_outputPath args) as [out'|]; [|done].
    injection Hout as ->.
    apply bind_returns in Hr as (modelPath & Hdownload & Hr).
    destruct (Model3DUtils.meshyDownload svc _ out); [|done].
    injection Hdownload as <-.
    apply bind_returns in Hr as (info & _ & Hr).
    injection Hr as <-. simpl.
    split; [done|]. repeat split; try done. by exists out.
Qed.

Lemma meshyGenerateMulti_polls_witness :
  (Model3DUtils.meshyGenerateMulti sampleMeshy
     (backendArgsFor photoRequest meshyGenerateMulti
        ["front.png"; "side.png"])).1
  = rounds 2 "https://api.meshy.ai/openapi/v1/image-to-3d/multi-view/task-7"
      "Bearer meshy-key" 5000
    ++ [Requested
          "https://api.meshy.ai/openapi/v1/image-to-3d/multi-view/task-7"
          "Bearer meshy-key"]
  /\ exists r,
       (Model3DUtils.meshyGenerateMulti sampleMeshy
          (backendArgsFor photoRequest meshyGenerateMulti
             ["front.png"; "side.png"])).2 = Return r
       /\ res_savedPaths r = ["chair.glb"].
Proof.
  split; [vm_compute; reflexivity|].
  pose proof (meshyGenerateMulti_polls sampleMeshy
                (backendArgsFor photoRequest meshyGenerateMulti
                   ["front.png"; "side.png"])
                "meshy-key" ["front.png"; "side.png"] eq_refl eq_refl) as H.
  cbv zeta in H. destruct H as (_ & _ & _ & _ & Hresult).
  destruct (Model3DUtils.meshyGenerateMulti sampleMeshy _).2 as [r|e] eqn:Hr.
  - exists r. split; [done|].
    destruct (Hresult r eq_refl) as (_ & _ & _ & _ & out & Hout & ->).
    by injection Hout as <-.
  - vm_compute in Hr. discriminate Hr.
Defined.

(** ** The tool that starts a job *)

(** X28. The [image_to_3d_async] tool answers with an error, and starts
    nothing, only when it is called without arguments or without an
    output path.  Otherwise it starts a job on the status file named in
    the call or, by default, on the output path with its extension
    replaced by "_status.json" (on the output path itself when it has
    no extension), and answers that generation has started: options
    that fail validation are never reported in the answer; they are
    reported in the status file, as a failed job, when the status path
    can hold a status file. *)
Theorem image_to_3d_async_starts env args w :
  let run := HypescapeTools.callTool env args w in
  ((args = None
    \/ exists a, args = Some a
                 /\ truthy (HypescapeTools.arg_outputPath a) = false) ->
   run.1 = w /\ HypescapeTools.isError run.2 = true)
  /\ (forall a out,
        args = Some a ->
        HypescapeTools.arg_outputPath a = Some out ->
        out <> EmptyString ->
        let statusPath :=
          or_else (HypescapeTools.arg_statusFile a)
            (replace_ext out "_status.json") in
        run.1
        = (generate3DModelAsync env (HypescapeTools.requestOptions a)
             statusPath w).1
        /\ run.2 = {| HypescapeTools.text :=
                        HypescapeTools.startedText statusPath;
                      HypescapeTools.isError := false |}
        /\ (truthy (HypescapeTools.arg_statusFile a) = false ->
            has_dot out = false -> statusPath = out)
        /\ (forall e,
              validate3DModelOptions (HypescapeTools.requestOptions a)
              = Throw e ->
              usable env statusPath w ->
              exists rec,
                statusFile statusPath run.1 = Some rec
                /\ status rec = Some failed
                /\ error rec = Some e)).
Proof.
  intros run. subst run. unfold HypescapeTools.callTool. split.
  - intros [-> | (a & -> & Hout)]; simpl; [done|]. by rewrite Hout.
  - intros a out -> Hout Hne.
    unfold HypescapeTools.image_to_3d_async. rewrite Hout.
    assert (Htruthy : truthy (Some out) = true) by by destruct out.
    rewrite Htruthy. cbn [negb show].
    destruct (generate3DModelAsync env (HypescapeTools.requestOptions a)
                (or_else (HypescapeTools.arg_statusFile a)
                   (replace_ext out "_status.json")) w)
      as [w1 statusPath] eqn:Hrun.
    assert (Hpath : statusPath
                    = or_else (HypescapeTools.arg_statusFile a)
                        (replace_ext out "_status.json")).
    { unfold generate3DModelAsync in Hrun. by injection Hrun as _ <-. }
    subst statusPath. cbn [fst snd].
    split; [done|]. split; [done|]. split.
    + intros Hnone Hdot. unfold or_else. rewrite Hnone.
      by apply replace_ext_no_dot.
    + intros e Hvalid Husable.
      destruct (generate3DModelAsync_invalid env
                  (HypescapeTools.requestOptions a)
                  (or_else (HypescapeTools.arg_statusFile a)
                     (replace_ext out "_status.json")) w e Hvalid Husable)
        as ((rec & Hfile & Hrec) & _).
      rewrite Hrun in Hfile. by exists rec.
Qed.

Lemma image_to_3d_async_starts_witness :
  HypescapeTools.isError
    (HypescapeTools.callTool testEnv (Some carelessCall) freshWorld).2
  = false
  /\ exists rec,
       statusFile "robot"
         (HypescapeTools.callTool testEnv (Some carelessCall) freshWorld).1
       = Some rec
       /\ status rec = Some failed
       /\ error rec
          = Some "Model must be one of: trellis, hunyuan3d, hunyuan-world, seed3d, meshy".
Proof.
  destruct (proj2 (image_to_3d_async_starts testEnv (Some carelessCall)
                     freshWorld) carelessCall "robot" eq_refl eq_refl)
    as (_ & Hreply & _ & Hfailed).
  - discriminate.
  - split; [by rewrite Hreply|]. apply Hfailed.
    + vm_compute. reflexivity.
    + split; [intros n; reflexivity | vm_compute; exact I].
Defined.
